(** * MCQ answer parsing and scoring ([evaluate_mcq_json.py])

    A shallow embedding of [parse_answer_text], [evaluate_mcq],
    [format_results] and [process_json_input], and the proofs of the
    properties the specification states about them.

    Conventions of the embedding:
    - a Python [str] is the list of its code points ([N]);
    - the three [str] methods and the two [re] functions the script calls
      are embedded with the semantics CPython gives them; what they read
      from the Unicode character database for code points outside ASCII is
      a parameter ([UnicodeData]);
    - a [dict] is an association list in insertion order;
    - a Python [int] is a [Z], a [float] an IEEE 754 binary64 value
      ([spec_float] with [prec = 53], [emax = 1024]);
    - a function that can raise returns in the error monad [exc]. *)

From Stdlib Require Import Ascii String DecimalString.
From Stdlib Require Import List NArith ZArith Bool Lia.
From Stdlib Require Import SpecFloat.
Import ListNotations.

(** ** Characters and strings *)

Definition char := N.
Definition str := list char.

(** A string literal of the source, as the list of its code points. *)
Definition lit (s : String.string) : str :=
  map Ascii.N_of_ascii (String.list_ascii_of_string s).
Arguments lit s%_string.

Fixpoint str_eqb (a b : str) : bool :=
  match a, b with
  | [], [] => true
  | x :: a', y :: b' => N.eqb x y && str_eqb a' b'
  | _, _ => false
  end.

(** What the script reads from the Unicode character database through
    [str.strip], [str.upper], [\s] and [\d], for the code points from 128
    on. The database is part of the interpreter, not of the repository, so
    it is a parameter here; the ASCII part is fixed below. *)
Record UnicodeData := {
  ucd_isspace : char -> bool;      (* Py_UNICODE_ISSPACE *)
  ucd_isdecimal : char -> bool;    (* Py_UNICODE_ISDECIMAL *)
  ucd_toupper : char -> list char  (* the full upper-case mapping *)
}.

(** The database restricted to Latin-1: the two spaces NEL and NBSP, no
    decimal digit, and the upper-case mappings of the Latin-1 letters (of
    which three leave Latin-1). Code points from 256 on are left alone. *)
Definition latin1 : UnicodeData := {|
  ucd_isspace := fun c => N.eqb c 133 || N.eqb c 160;
  ucd_isdecimal := fun _ => false;
  ucd_toupper := fun c =>
    if N.eqb c 181 then [924]
    else if N.eqb c 223 then [83; 83]
    else if N.eqb c 255 then [376]
    else if N.leb 224 c && N.leb c 254 && negb (N.eqb c 247) then [c - 32]
    else [c]
|}%N.

Module PyStr.
Section WithUnicode.
Variable ucd : UnicodeData.
Local Open Scope N_scope.

Definition ascii_isspace (c : char) : bool :=
  ((9 <=? c) && (c <=? 13)) || ((28 <=? c) && (c <=? 32)).

Definition isspace (c : char) : bool :=
  if c <? 128 then ascii_isspace c else ucd_isspace ucd c.

Definition isdecimal (c : char) : bool :=
  if c <? 128 then (48 <=? c) && (c <=? 57) else ucd_isdecimal ucd c.

Definition toupper (c : char) : list char :=
  if c <? 128 then (if (97 <=? c) && (c <=? 122) then [c - 32] else [c])
  else ucd_toupper ucd c.

(** [s.lstrip()], [s.rstrip()], [s.strip()] *)
Fixpoint lstrip (s : str) : str :=
  match s with
  | c :: s' => if isspace c then lstrip s' else s
  | [] => []
  end.

Definition rstrip (s : str) : str := rev (lstrip (rev s)).

Definition strip (s : str) : str := rstrip (lstrip s).

(** [s.upper()] *)
Definition upper (s : str) : str := flat_map toupper s.

(** [sep in s], for a one-character [sep] *)
Definition contains (sep : char) (s : str) : bool := existsb (N.eqb sep) s.

(** [s.split(sep)], for a one-character [sep] *)
Fixpoint split (sep : char) (s : str) : list str :=
  match s with
  | [] => [[]]
  | c :: s' =>
      if c =? sep then [] :: split sep s'
      else match split sep s' with
           | l :: ls => (c :: l) :: ls
           | [] => [[c]]
           end
  end.

(** [not s] *)
Definition is_empty (s : str) : bool :=
  match s with [] => true | _ => false end.
End WithUnicode.
End PyStr.

(** ** The fragment of [re] the script uses

    One-character classes, the greedy [+] of a class, concatenation and
    capturing groups, matched by backtracking as [sre] does. *)
Module Re.
Inductive regex :=
| Class (p : char -> bool)
| ClassPlus (p : char -> bool)
| Cat (r1 r2 : regex)
| Group (r : regex).

(** [p+] at the head of [s]: take one more character first, and give the
    rest to the continuation only when that fails. *)
Fixpoint many {A} (p : char -> bool) (k : str -> option A) (s : str) : option A :=
  match s with
  | c :: s' =>
      if p c then
        match many p k s' with
        | Some x => Some x
        | None => k s'
        end
      else None
  | [] => None
  end.

(** [exec r s gs k]: match [r] at the head of [s], with the groups closed
    so far in [gs]; [k] gets the rest of the text and the groups. The
    groups of the script's patterns are not nested, so the order they
    close in is their numbering. *)
Fixpoint exec {A} (r : regex) (s : str) (gs : list str)
         (k : str -> list str -> option A) : option A :=
  match r with
  | Class p =>
      match s with
      | c :: s' => if p c then k s' gs else None
      | [] => None
      end
  | ClassPlus p => many p (fun s' => k s' gs) s
  | Cat r1 r2 => exec r1 s gs (fun s1 g1 => exec r2 s1 g1 k)
  | Group r' =>
      exec r' s gs
           (fun s1 g1 => k s1 (g1 ++ [firstn (length s - length s1) s]))
  end.

(** A match object: its groups [1], [2], ... *)
Definition match_obj := list str.

(** [m.group(i)], for [i >= 1] *)
Definition group (m : match_obj) (i : nat) : str := nth (i - 1) m [].

(** The match of [r] that starts at the head of [s], with what follows it. *)
Definition match_at (r : regex) (s : str) : option (match_obj * str) :=
  exec r s [] (fun s1 gs => Some (gs, s1)).

(** [re.finditer(r, s)]: the matches left to right, each search resuming
    where the last match ended. [skip] counts the characters of the
    current match that are still to be passed over. (None of the
    script's patterns matches the empty string.) *)
Fixpoint finditer_from (r : regex) (s : str) (skip : nat) : list match_obj :=
  match s with
  | [] => []
  | _ :: s' =>
      match skip with
      | S n => finditer_from r s' n
      | O =>
          match match_at r s with
          | Some (m, rest) => m :: finditer_from r s' (length s' - length rest)
          | None => finditer_from r s' 0
          end
      end
  end.

Definition finditer (r : regex) (s : str) : list match_obj :=
  finditer_from r s 0.

(** [re.search(r, s)]: the leftmost match, or [None]. *)
Fixpoint search (r : regex) (s : str) : option match_obj :=
  match match_at r s with
  | Some (m, _) => Some m
  | None =>
      match s with
      | [] => None
      | _ :: s' => search r s'
      end
  end.
End Re.

(** ** Dictionaries keyed by strings, in insertion order *)
Module Dict.
Definition dict (V : Type) := list (str * V).

Definition empty {V} : dict V := [].

(** [d[k] = v]: a key already present keeps its place. *)
Fixpoint set {V} (k : str) (v : V) (d : dict V) : dict V :=
  match d with
  | [] => [(k, v)]
  | (k', v') :: d' =>
      if str_eqb k' k then (k', v) :: d' else (k', v') :: set k v d'
  end.

(** [d.get(k)] *)
Fixpoint get {V} (k : str) (d : dict V) : option V :=
  match d with
  | [] => None
  | (k', v') :: d' => if str_eqb k' k then Some v' else get k d'
  end.

(** [len(d)] *)
Definition len {V} (d : dict V) : Z := Z.of_nat (length d).

(** [not d] *)
Definition is_empty {V} (d : dict V) : bool :=
  match d with [] => true | _ => false end.

(** [d.keys()] and [d.items()] *)
Definition keys {V} (d : dict V) : list str := map fst d.
Definition items {V} (d : dict V) : list (str * V) := d.
End Dict.

(** ** [parse_answer_text] *)
Section Parser.
Variable ucd : UnicodeData.

Definition is_A_to_D (c : char) : bool := (N.leb 65 c && N.leb c 68)%N.

(** The classes [\d] and [\s]. *)
Definition digit : char -> bool := PyStr.isdecimal ucd.
Definition space : char -> bool := PyStr.isspace ucd.

(** [(\d+)\s+([A-D])] *)
Definition re_space_separated : Re.regex :=
  Re.Cat (Re.Group (Re.ClassPlus digit))
         (Re.Cat (Re.ClassPlus space) (Re.Group (Re.Class is_A_to_D))).

(** [(\d+)([A-D])] *)
Definition re_adjacent_pairs : Re.regex :=
  Re.Cat (Re.Group (Re.ClassPlus digit)) (Re.Group (Re.Class is_A_to_D)).

(** [(\d+)] and [([A-D])] *)
Definition re_q_no : Re.regex := Re.Group (Re.ClassPlus digit).
Definition re_option : Re.regex := Re.Group (Re.Class is_A_to_D).

(** The body of the two [for match in ...] loops. *)
Definition store_match (answers : Dict.dict str) (m : Re.match_obj) : Dict.dict str :=
  let q_no := Re.group m 1 in
  let option := Re.group m 2 in
  Dict.set q_no option answers.

(** The body of [for line in lines]. *)
Definition store_line (answers : Dict.dict str) (line : str) : Dict.dict str :=
  let trimmed := PyStr.strip ucd line in
  if negb (PyStr.is_empty trimmed) then
    let q_no_match := Re.search re_q_no trimmed in
    let option_match := Re.search re_option trimmed in
    match q_no_match, option_match with
    | Some qm, Some om => Dict.set (Re.group qm 1) (Re.group om 1) answers
    | _, _ => answers
    end
  else answers.

Definition parse_answer_text (answer_text : str) : Dict.dict str :=
  if PyStr.is_empty answer_text then Dict.empty
  else
    let answers := Dict.empty in
    let text := PyStr.upper ucd (PyStr.strip ucd answer_text) in
    let answers := fold_left store_match (Re.finditer re_space_separated text) answers in
    let answers :=
      if Dict.is_empty answers
      then fold_left store_match (Re.finditer re_adjacent_pairs text) answers
      else answers in
    let answers :=
      if Dict.is_empty answers && PyStr.contains 10%N text
      then fold_left store_line (PyStr.split 10%N text) answers
      else answers in
    answers.
End Parser.

(** ** Exceptions *)

Inductive exn :=
| ValueError (msg : str)
| ZeroDivisionError
| OverflowError.

Inductive exc (A : Type) :=
| Raise (e : exn)
| Return (a : A).
Arguments Raise {A} e.
Arguments Return {A} a.

Definition bind {A B} (c : exc A) (f : A -> exc B) : exc B :=
  match c with
  | Raise e => Raise e
  | Return a => f a
  end.

Notation "x <- c ;; k" := (bind c (fun x => k))
  (at level 61, c at next level, right associativity).

(** ** [int] and [float] arithmetic *)
Module PyFloat.
Local Open Scope Z_scope.

Definition prec : Z := 53.
Definition emax : Z := 1024.
Definition float := spec_float.

(** [float(n)] for an [int]: the nearest double, ties to even. *)
Definition of_int (n : Z) : exc float :=
  match binary_normalize prec emax n 0 false with
  | S754_infinity _ => Raise OverflowError
  | x => Return x
  end.

(** [a / b] for two [int]s: the quotient correctly rounded to a double
    (CPython's [long_true_divide]). *)
Definition truediv (a b : Z) : exc float :=
  if b =? 0 then Raise ZeroDivisionError
  else
    let sign := xorb (a <? 0) (b <? 0) in
    if a =? 0 then Return (S754_zero sign)
    else
      let '(mz, ez, lz) := SFdiv_core_binary prec emax (Z.abs a) 0 (Z.abs b) 0 in
      match binary_round_aux prec emax sign mz ez lz with
      | S754_infinity _ => Raise OverflowError
      | x => Return x
      end.

(** [x * y] for two [float]s *)
Definition mul (x y : float) : float := SFmul prec emax x y.

(** [x * n] for a [float] and an [int] *)
Definition mul_int (x : float) (n : Z) : exc float :=
  y <- of_int n ;; Return (mul x y).

(** The integer nearest to [m * 2^e], ties to even. *)
Definition nearest_even (m : positive) (e : Z) : Z :=
  if 0 <=? e then Z.pos m * 2 ^ e
  else
    let d := 2 ^ (- e) in
    let q := Z.pos m / d in
    let r := Z.pos m mod d in
    match 2 * r ?= d with
    | Lt => q
    | Gt => q + 1
    | Eq => if Z.even q then q else q + 1
    end.

(** [round(x)] with one argument: an [int] *)
Definition round (x : float) : exc Z :=
  match x with
  | S754_zero _ => Return 0
  | S754_infinity _ => Raise OverflowError
  | S754_nan => Raise (ValueError (lit "cannot convert float NaN to integer"))
  | S754_finite s m e => Return (cond_Zopp s (nearest_even m e))
  end.
End PyFloat.

(** [str(n)] for an [int] *)
Definition str_of_int (n : Z) : str := lit (NilZero.string_of_int (Z.to_int n)).

(** ** [evaluate_mcq] *)

(** One value of [results]. [studentOption] is [None] for Python's [None]. *)
Record entry := {
  correctOption : str;
  studentOption : option str;
  isCorrect : bool
}.

(** The dictionary [evaluate_mcq] returns; [formattedOutput] is the key
    [process_json_input] adds to it. *)
Record evaluation := {
  score : Z;
  total : Z;
  results : Dict.dict entry;
  percentage : Z;
  formattedOutput : option str
}.

(** [a == b] where [a] is a [str] or [None] and [b] a [str] *)
Definition opt_eqb (a : option str) (b : str) : bool :=
  match a with
  | Some a' => str_eqb a' b
  | None => false
  end.

(** The truth value of a [str] or [None] *)
Definition truthy (a : option str) : bool :=
  match a with
  | Some (_ :: _) => true
  | _ => false
  end.

Section Scorer.
Variable ucd : UnicodeData.
Local Open Scope Z_scope.

(** The body of [for q_no, correct_option in model_answers.items()],
    on the two variables the loop assigns. *)
Definition compare_answer (student_answers : Dict.dict str)
           (st : Z * Dict.dict entry) (item : str * str) : Z * Dict.dict entry :=
  let '(score, results) := st in
  let '(q_no, correct_option) := item in
  let student_option := Dict.get q_no student_answers in
  if opt_eqb student_option correct_option then
    (score + 1,
     Dict.set q_no {| correctOption := correct_option;
                      studentOption := student_option;
                      isCorrect := true |} results)
  else
    (score,
     Dict.set q_no {| correctOption := correct_option;
                      studentOption := if truthy student_option then student_option else None;
                      isCorrect := false |} results).

(** [round((score / total) * 100) if total > 0 else 0] *)
Definition percentage_of (score total : Z) : exc Z :=
  if 0 <? total then
    q <- PyFloat.truediv score total ;;
    p <- PyFloat.mul_int q 100 ;;
    PyFloat.round p
  else Return 0.

Definition evaluate_mcq (model_answer_text student_answer_text : str) : exc evaluation :=
  let model_answers := parse_answer_text ucd model_answer_text in
  let student_answers := parse_answer_text ucd student_answer_text in
  let score := 0 in
  let total := Dict.len model_answers in
  let results := Dict.empty in
  let '(score, results) :=
    fold_left (compare_answer student_answers) (Dict.items model_answers) (score, results) in
  percentage <- percentage_of score total ;;
  Return {| score := score;
            total := total;
            results := results;
            percentage := percentage;
            formattedOutput := None |}.
End Scorer.

(** ** [format_results] *)
Section Formatter.
Local Open Scope Z_scope.

Definition check_mark : str := [10003%N].
Definition cross_mark : str := [10007%N].
Definition newline : str := [10%N].
Definition rule : str := lit "===========================================".
Definition dashes : str := lit "-------------------------------------------".

(** The body of [for q_no, result in results.items()]. *)
Definition format_line (output : str) (item : str * entry) : str :=
  let '(q_no, result) := item in
  let status := if isCorrect result then check_mark else cross_mark in
  let student_answer :=
    match studentOption result with
    | Some ((_ :: _) as o) => o
    | _ => lit "No answer"
    end in
  output ++ lit "Question " ++ q_no ++ lit ": " ++ status
         ++ lit " | Model: " ++ correctOption result
         ++ lit " | Student: " ++ student_answer ++ newline.

Definition format_results (evaluation_result : evaluation) : str :=
  let score := score evaluation_result in
  let total := total evaluation_result in
  let results := results evaluation_result in
  let percentage := percentage evaluation_result in
  let output := newline ++ rule ++ newline in
  let output := output ++ lit "MCQ Answer Evaluation Results" ++ newline in
  let output := output ++ rule ++ newline ++ newline in
  let output := output ++ lit "Detailed Results:" ++ newline in
  let output := output ++ dashes ++ newline in
  let output := fold_left format_line (Dict.items results) output in
  let output := output ++ newline ++ rule ++ newline in
  let output := output ++ lit "Final Score: " ++ str_of_int score ++ lit "/"
                       ++ str_of_int total ++ lit " (" ++ str_of_int percentage
                       ++ lit "%)" ++ newline in
  let output := output ++ rule ++ newline in
  let performance_label :=
    if 90 <=? percentage then lit "Excellent"
    else if 70 <=? percentage then lit "Good"
    else if 50 <=? percentage then lit "Average"
    else lit "Poor" in
  let output := output ++ lit "Performance: " ++ performance_label ++ newline in
  output.
End Formatter.

(** ** [process_json_input] *)

(** The two keys [process_json_input] reads from the JSON object; [None]
    is a key that is absent or [null]. (Values that are not strings are
    outside the embedding.) *)
Record json_input := {
  model_answers : option str;
  student_answers : option str
}.

(** The calls [process_json_input] makes, in order. *)
Inductive call :=
| Call_evaluate_mcq (model_answers student_answers : str)
| Call_format_results (evaluation_result : evaluation).

Definition invalid_json_input : exn :=
  ValueError (lit "Invalid JSON input: model_answers and student_answers are required").

Section Process.
Variable ucd : UnicodeData.

(** The result, with the log of the calls made on the way to it. The test
    [not model_answers or not student_answers] holds for a value that is
    [None] or the empty string. *)
Definition process_json_input (j : json_input) : list call * exc evaluation :=
  match model_answers j, student_answers j with
  | Some m, Some s =>
      if PyStr.is_empty m || PyStr.is_empty s then ([], Raise invalid_json_input)
      else
        match evaluate_mcq ucd m s with
        | Raise e => ([Call_evaluate_mcq m s], Raise e)
        | Return evaluation_result =>
            let formatted_output := format_results evaluation_result in
            ([Call_evaluate_mcq m s; Call_format_results evaluation_result],
             Return {| score := score evaluation_result;
                       total := total evaluation_result;
                       results := results evaluation_result;
                       percentage := percentage evaluation_result;
                       formattedOutput := Some formatted_output |})
        end
  | _, _ => ([], Raise invalid_json_input)
  end.
End Process.

(** ** The parser as the specification describes it

    The pairs each input shape yields, in text order, the shape the
    priority order selects, and the option a question gets from a list of
    pairs. These follow the specification's words; [parse_answer_text] is
    compared with them below. *)
Section Shapes.
Variable ucd : UnicodeData.

Definition pair_of_match (m : Re.match_obj) : str * str :=
  (Re.group m 1, Re.group m 2).

(** Shape 1: a digit run, whitespace, one letter of A-D. *)
Definition space_pairs (text : str) : list (str * str) :=
  map pair_of_match (Re.finditer (re_space_separated ucd) text).

(** Shape 2: a digit run and one letter of A-D, adjacent. *)
Definition adjacent_pairs (text : str) : list (str * str) :=
  map pair_of_match (Re.finditer (re_adjacent_pairs ucd) text).

(** Shape 3, one line: the first digit run and the first letter of A-D
    of the stripped line, when it has both. *)
Definition line_pair (line : str) : list (str * str) :=
  let trimmed := PyStr.strip ucd line in
  match Re.search (re_q_no ucd) trimmed, Re.search re_option trimmed with
  | Some qm, Some om => [(Re.group qm 1, Re.group om 1)]
  | _, _ => []
  end.

(** Shape 3: the pairs of the lines, for a text with a newline. *)
Definition line_pairs (text : str) : list (str * str) :=
  if PyStr.contains 10%N text then flat_map line_pair (PyStr.split 10%N text)
  else [].

(** The first shape, in priority order, that yields a pair. *)
Definition selected_pairs (text : str) : list (str * str) :=
  match space_pairs text with
  | (_ :: _) as ps => ps
  | [] =>
      match adjacent_pairs text with
      | (_ :: _) as ps => ps
      | [] => line_pairs text
      end
  end.

(** The option of the last pair for question [q]. *)
Fixpoint last_option (q : str) (pairs : list (str * str)) : option str :=
  match pairs with
  | [] => None
  | (k, v) :: rest =>
      match last_option q rest with
      | Some v' => Some v'
      | None => if str_eqb k q then Some v else None
      end
  end.
End Shapes.

(** The number of entries of [results] marked correct. *)
Definition count_correct (results : Dict.dict entry) : Z :=
  Z.of_nat (length (filter (fun kv => isCorrect (snd kv)) results)).

(** A string of whitespace only. *)
Definition all_space (ucd : UnicodeData) (s : str) : bool :=
  forallb (PyStr.isspace ucd) s.

(** Storing one pair, and what [compare_answer] adds for one item of the
    model answers: whether it counts, and the entry it stores. *)
Definition set_pair (answers : Dict.dict str) (p : str * str) : Dict.dict str :=
  Dict.set (fst p) (snd p) answers.

Definition is_match (student_answers : Dict.dict str) (item : str * str) : bool :=
  opt_eqb (Dict.get (fst item) student_answers) (snd item).

Definition entry_of (student_answers : Dict.dict str) (item : str * str) : str * entry :=
  let student_option := Dict.get (fst item) student_answers in
  (fst item,
   {| correctOption := snd item;
      studentOption := if is_match student_answers item then student_option
                       else if truthy student_option then student_option else None;
      isCorrect := is_match student_answers item |}).

(** [b] is [a] shifted right by [k] bits: the mantissa is divided by
    [2^k], and the shift is exact when [a] was and no bit was lost. *)
Definition shifted (k : Z) (a b : shr_record) : Prop :=
  (0 <= shr_m b
   /\ shr_m b = shr_m a / 2 ^ k
   /\ (loc_of_shr_record a = loc_Exact -> shr_m a mod 2 ^ k = 0 ->
       loc_of_shr_record b = loc_Exact))%Z.

(** The value with mantissa [m] at the negative exponent [e] and location
    [l] is at most the integer [B]. *)
Definition at_most (B m e : Z) (l : location) : Prop :=
  (m <= B * 2 ^ (- e) /\ (l <> loc_Exact -> m < B * 2 ^ (- e)))%Z.

(** A double that is [+0.0] or positive, finite and at most [B]. *)
Definition float_in (B : Z) (x : PyFloat.float) : Prop :=
  x = S754_zero false
  \/ exists m e, x = S754_finite false m e /\ (e < 0 /\ Z.pos m <= B * 2 ^ (- e))%Z.

(** The texts of the specification's scenarios. *)
Definition text_lines : str := lit "Q1: a" ++ [10%N] ++ lit "Q2: b".
Definition text_model : str := lit "1A 2B 3C 4D".
Definition text_student : str := lit "1 a 2 x 3 c 4 d".

(** ** Definitions for further properties of the code *)

(** What a pattern matches: [denotes r pre gs] when [r] matches exactly
    the text [pre] and closes the groups [gs] on the way. *)
Fixpoint denotes (r : Re.regex) (pre : str) (gs : list str) : Prop :=
  match r with
  | Re.Class p => exists c, pre = [c] /\ p c = true /\ gs = []
  | Re.ClassPlus p => pre <> [] /\ forallb p pre = true /\ gs = []
  | Re.Cat r1 r2 =>
      exists p1 p2 g1 g2,
        pre = p1 ++ p2 /\ gs = g1 ++ g2 /\ denotes r1 p1 g1 /\ denotes r2 p2 g2
  | Re.Group r' => exists g, gs = g ++ [pre] /\ denotes r' pre g
  end.

(** An answer as the patterns admit it: a question number that is a run
    of decimal digits, not empty, and an option that is one letter of A-D. *)
Definition valid_answer (ucd : UnicodeData) (a : str * str) : bool :=
  negb (PyStr.is_empty (fst a))
  && forallb (PyStr.isdecimal ucd) (fst a)
  && match snd a with
     | [c] => is_A_to_D c
     | _ => false
     end.

(** The strings of a list, each once, in the order of their first
    occurrence. *)
Definition see (seen : list str) (k : str) : list str :=
  if existsb (str_eqb k) seen then seen else seen ++ [k].

Definition first_seen (ks : list str) : list str := fold_left see ks [].

(** A text of ASCII characters, and the upper case of an ASCII character. *)
Definition ascii_text (s : str) : bool := forallb (fun c => N.ltb c 128) s.

Definition ascii_upper (c : char) : char :=
  if (N.leb 97 c && N.leb c 122)%bool then (c - 32)%N else c.

(** The lines of the report of [format_results], as the source writes
    them: the line of one question, the score line and the label. *)
Definition question_line (item : str * entry) : str :=
  lit "Question " ++ fst item ++ lit ": "
  ++ (if isCorrect (snd item) then check_mark else cross_mark)
  ++ lit " | Model: " ++ correctOption (snd item)
  ++ lit " | Student: "
  ++ match studentOption (snd item) with
     | Some ((_ :: _) as o) => o
     | _ => lit "No answer"
     end.

Definition final_score_line (r : evaluation) : str :=
  lit "Final Score: " ++ str_of_int (score r) ++ lit "/" ++ str_of_int (total r)
  ++ lit " (" ++ str_of_int (percentage r) ++ lit "%)".

Definition performance_label (percentage : Z) : str :=
  if (90 <=? percentage)%Z then lit "Excellent"
  else if (70 <=? percentage)%Z then lit "Good"
  else if (50 <=? percentage)%Z then lit "Average"
  else lit "Poor".

Definition report_lines (r : evaluation) : list str :=
  [[]; rule; lit "MCQ Answer Evaluation Results"; rule; [];
   lit "Detailed Results:"; dashes]
  ++ map question_line (results r)
  ++ [[]; rule; final_score_line r; rule;
      lit "Performance: " ++ performance_label (percentage r)].

(** The text whose lines, each ended by a newline, are [ls]. *)
Definition unlines (ls : list str) : str := flat_map (fun l => l ++ newline) ls.

(** ** The answer generator ([openai_mcq_generator.py])

    [clean_text], [extract_mcq_questions] and [generate_mcq_answers]. The
    request to the API and [str.format] are parameters of
    [generate_mcq_answers]; what it prints is returned with its result. *)
Module ReOps.
Import Re.

(** A match at the head of the text: groups and what follows. *)
Definition matcher := str -> option (match_obj * str).

(** [re.sub(pattern, repl, s)] for a pattern that matches no empty string
    and a replacement without group references; [skip] as in
    [Re.finditer_from]. *)
Fixpoint sub_from (m : matcher) (repl : str) (s : str) (skip : nat) : str :=
  match s with
  | [] => []
  | c :: s' =>
      match skip with
      | S n => sub_from m repl s' n
      | O =>
          match m s with
          | Some (_, rest) => repl ++ sub_from m repl s' (length s' - length rest)
          | None => c :: sub_from m repl s' 0
          end
      end
  end.

Definition sub (m : matcher) (repl s : str) : str := sub_from m repl s 0.

(** [re.split(pattern, s)] for a pattern that matches no empty string:
    the pieces between the matches, each match's groups between them.
    [piece] is the piece being read. *)
Fixpoint split_from (m : matcher) (s : str) (skip : nat) (piece : str) : list str :=
  match s with
  | [] => [piece]
  | c :: s' =>
      match skip with
      | S n => split_from m s' n piece
      | O =>
          match m s with
          | Some (gs, rest) => piece :: gs ++ split_from m s' (length s' - length rest) []
          | None => split_from m s' 0 (piece ++ [c])
          end
      end
  end.

Definition split (m : matcher) (s : str) : list str := split_from m s 0 [].

(** The pattern that matches the characters of [s] in turn, then [r]. *)
Definition literal (s : str) (r : regex) : regex :=
  fold_right (fun c r' => Cat (Class (N.eqb c)) r') r s.
End ReOps.

(** [sep.join(l)] *)
Fixpoint join (sep : str) (l : list str) : str :=
  match l with
  | [] => []
  | [x] => x
  | x :: rest => x ++ sep ++ join sep rest
  end.

(** [range(start, stop, 2)], for [stop - start <= 2 * n] *)
Fixpoint range2 (start stop n : nat) : list nat :=
  match n with
  | O => []
  | S n' => if start <? stop then start :: range2 (start + 2) stop n' else []
  end.

Module Generator.
Section WithUnicode.
Variable ucd : UnicodeData.

(** [\s+] and [\n+] *)
Definition re_spaces : ReOps.matcher := Re.match_at (Re.ClassPlus (PyStr.isspace ucd)).
Definition re_newlines : ReOps.matcher := Re.match_at (Re.ClassPlus (N.eqb 10)).

Definition clean_text (text : str) : str :=
  let text := ReOps.sub re_spaces (lit " ") text in
  let text := ReOps.sub re_newlines [10%N] text in
  PyStr.strip ucd text.

(** [(\d+)[\.:\)]], the pattern after its optional group. *)
Definition is_number_mark (c : char) : bool :=
  N.eqb c 46 || N.eqb c 58 || N.eqb c 41.

Definition re_number : Re.regex :=
  Re.Cat (Re.Group (Re.ClassPlus (PyStr.isdecimal ucd))) (Re.Class is_number_mark).

(** [(?:Question\s+)?(\d+)[\.:\)]]: the greedy optional group is tried
    first, in all the ways [\s+] allows, and the pattern without it only
    when no way with it matches. *)
Definition re_question_number : ReOps.matcher :=
  fun s =>
    match Re.match_at
            (ReOps.literal (lit "Question")
               (Re.Cat (Re.ClassPlus (PyStr.isspace ucd)) re_number)) s with
    | Some m => Some m
    | None => Re.match_at re_number s
    end.

(** The body of [for i in range(1, len(questions), 2)]. *)
Definition add_question (questions : list str) (result : list (str * str)) (i : nat)
  : list (str * str) :=
  if i + 1 <? length questions then
    let question_num := PyStr.strip ucd (nth i questions []) in
    let question_text := PyStr.strip ucd (nth (i + 1) questions []) in
    result ++ [(question_num, question_text)]
  else result.

Definition extract_mcq_questions (text : str) : list (str * str) :=
  let questions := ReOps.split re_question_number text in
  let result := [] in
  fold_left (add_question questions)
            (range2 1 (length questions) (length questions)) result.

(** [sample_answers] *)
Definition sample_answers : Dict.dict str :=
  [(lit "1", lit "b"); (lit "2", lit "b"); (lit "3", lit "d"); (lit "4", lit "c")].

(** [d.get(k, default)] *)
Definition get_default {V} (k : str) (default : V) (d : Dict.dict V) : V :=
  match Dict.get k d with
  | Some v => v
  | None => default
  end.

(** The body of [for num, _ in questions]. *)
Definition add_answer (formatted_answers : list str) (question : str * str) : list str :=
  let '(num, _) := question in
  let answer := get_default num (lit "a") sample_answers in
  formatted_answers ++ [num ++ lit " " ++ answer].

(** The hard-coded answers [generate_mcq_answers] returns when the API key
    is not set and when the request fails. *)
Definition fallback_answers (questions_text : str) : str :=
  let questions := extract_mcq_questions questions_text in
  let formatted_answers := fold_left add_answer questions [] in
  join [10%N] formatted_answers.


(** The interpreter and the network, as [generate_mcq_answers] uses them:
    the API key read from the environment, [template.format(questions=q)]
    (which may raise), and the chat request, which gives the content of
    the first choice or raises an exception with a message. *)
Variable API_KEY : str.
Variable str_format : str -> str -> exc str.
Variable chat_completion : str -> str + str.

End WithUnicode.
End Generator.

(** The pieces [re.split] returns for a pattern with one group, read as
    the first piece and then each match's group with the piece after it. *)
Definition interleave (l : list (str * str)) : list str :=
  flat_map (fun gp => [fst gp; snd gp]) l.


(** The characters [\d] matches are not whitespace and are their own upper
    case, as in the Unicode character database. *)
Definition plain_digits (ucd : UnicodeData) : Prop :=
  forall c, PyStr.isdecimal ucd c = true ->
            PyStr.isspace ucd c = false /\ PyStr.toupper ucd c = [c].

(** The line the fallback writes for a question, and the pair the parser
    is to read back from it. *)
Definition answer_line (question : str * str) : str :=
  fst question ++ lit " "
  ++ Generator.get_default (fst question) (lit "a") Generator.sample_answers.



(** ** More of [str] *)
Module PyStrOps.
Section WithUnicode.
Variable ucd : UnicodeData.

(** [s.split()]: the words of [s], the stretches between its runs of
    whitespace. [word] is the word being read. *)
Fixpoint words_from (s word : str) : list str :=
  match s with
  | [] => if PyStr.is_empty word then [] else [word]
  | c :: s' =>
      if PyStr.isspace ucd c then
        if PyStr.is_empty word then words_from s' [] else word :: words_from s' []
      else words_from s' (word ++ [c])
  end.

Definition split_whitespace (s : str) : list str := words_from s [].

(** [s.replace(old, new)] for one-character [old] and [new] *)
Definition replace (old new : char) (s : str) : str :=
  map (fun c => if N.eqb c old then new else c) s.
End WithUnicode.
End PyStrOps.

(** What is left of [s] after its longest prefix of characters of [p]. *)
Fixpoint drop_while (p : char -> bool) (s : str) : str :=
  match s with
  | c :: s' => if p c then drop_while p s' else s
  | [] => []
  end.

(** [s] with each run of whitespace replaced by one space; [in_run] when
    the characters before [s] end with whitespace. *)
Fixpoint collapse (ucd : UnicodeData) (s : str) (in_run : bool) : str :=
  match s with
  | [] => []
  | c :: s' =>
      if PyStr.isspace ucd c
      then if in_run then collapse ucd s' true else 32%N :: collapse ucd s' true
      else c :: collapse ucd s' false
  end.

(** A word: not empty, without whitespace. *)
Definition is_word (ucd : UnicodeData) (w : str) : bool :=
  negb (PyStr.is_empty w) && forallb (fun c => negb (PyStr.isspace ucd c)) w.

(** ** The sibling scripts ([exact_mcq_comparison.py], [mcq_comparison.py])

    Both parse an answer text in their own way and score as the JSON
    script does, without its report of each question. What a [print] call
    writes is returned as one string for each call, before the result. *)

(** The body of [for q_no, correct_option in model_answers.items()], the
    same in both scripts. *)
Definition count_answer (student_answers : Dict.dict str) (score : Z) (item : str * str) : Z :=
  let '(q_no, correct_option) := item in
  if opt_eqb (Dict.get q_no student_answers) correct_option then (score + 1)%Z else score.

Module Exact.
Section WithUnicode.
Variable ucd : UnicodeData.

(** [str(d)] for a dictionary, as [print] writes it. *)
Variable dict_repr : Dict.dict str -> str.

(** The body of [for i in range(0, len(parts), 2)]. *)
Definition store_pair (parts : list str) (answers : Dict.dict str) (i : nat)
  : Dict.dict str :=
  if i + 1 <? length parts then
    let q_no := nth i parts [] in
    let option := nth (i + 1) parts [] in
    Dict.set q_no option answers
  else answers.

Definition parse_answer_text (answer_text : str) : list str * Dict.dict str :=
  let printed := [lit "Parsing answer text: " ++ answer_text] in
  if PyStr.is_empty answer_text then (printed, Dict.empty)
  else
    let answers := Dict.empty in
    let text := PyStr.upper ucd answer_text in
    let adjacent_pairs_matches := Re.finditer (re_adjacent_pairs ucd) text in
    let answers := fold_left store_match adjacent_pairs_matches answers in
    let answers :=
      if Dict.is_empty answers then
        let text :=
          PyStr.upper ucd (PyStr.strip ucd (PyStrOps.replace 10%N 32%N answer_text)) in
        let parts := PyStrOps.split_whitespace ucd text in
        fold_left (store_pair parts) (range2 0 (length parts) (length parts)) answers
      else answers in
    (printed ++ [lit "Parsed answers: " ++ dict_repr answers], answers).

Definition evaluate_mcq (model_answer_text student_answer_text : str)
  : list str * (Z * Z) :=
  let '(printed_model, model_answers) := parse_answer_text model_answer_text in
  let '(printed_student, student_answers) := parse_answer_text student_answer_text in
  let score := 0%Z in
  let total := Dict.len model_answers in
  let score := fold_left (count_answer student_answers) (Dict.items model_answers) score in
  (printed_model ++ printed_student, (score, total)).

(** The dictionary [process_json_input] returns. *)
Record result := {
  score : Z;
  total : Z;
  formattedOutput : str
}.

Definition process_json_input (j : json_input) : list str * exc result :=
  match model_answers j, student_answers j with
  | Some m, Some s =>
      if PyStr.is_empty m || PyStr.is_empty s then ([], Raise invalid_json_input)
      else
        let '(printed, (score, total)) := evaluate_mcq m s in
        let formatted_output :=
          lit "Final Score: " ++ str_of_int score ++ lit "/" ++ str_of_int total in
        (printed,
         Return {| score := score; total := total; formattedOutput := formatted_output |})
  | _, _ => ([], Raise invalid_json_input)
  end.
End WithUnicode.
End Exact.

(** The fragment of [re] that [mcq_comparison.py] adds: the greedy [*] of
    a class and [$], after the patterns of [Re]. *)
Module ReLine.
Inductive pattern :=
| Plain (r : Re.regex)
| Star (p : char -> bool)
| Dollar
| Seq (a b : pattern).

(** [$] holds at the end of the text and before a newline that ends it. *)
Definition at_end (s : str) : bool :=
  match s with
  | [] => true
  | [c] => N.eqb c 10
  | _ => false
  end.

Fixpoint exec {A} (r : pattern) (s : str) (gs : list str)
         (k : str -> list str -> option A) : option A :=
  match r with
  | Plain r' => Re.exec r' s gs k
  | Star p =>
      match Re.many p (fun s' => k s' gs) s with
      | Some x => Some x
      | None => k s gs
      end
  | Dollar => if at_end s then k s gs else None
  | Seq a b => exec a s gs (fun s1 g1 => exec b s1 g1 k)
  end.

(** [re.match(r, s)], which tries the head of [s] only; a leading [^]
    adds nothing to it. *)
Definition match_ (r : pattern) (s : str) : option Re.match_obj :=
  exec r s [] (fun _ gs => Some gs).
End ReLine.

Module Comparison.
Section WithUnicode.
Variable ucd : UnicodeData.

(** [str.isdigit] for the code points from 128 on. *)
Variable ucd_isdigit : char -> bool.

Definition isdigit (s : str) : bool :=
  negb (PyStr.is_empty s)
  && forallb (fun c => if N.ltb c 128 then N.leb 48 c && N.leb c 57 else ucd_isdigit c) s.

(** [^(\d+)\s*([A-D])$] *)
Definition re_line : ReLine.pattern :=
  ReLine.Seq (ReLine.Plain (Re.Group (Re.ClassPlus (digit ucd))))
    (ReLine.Seq (ReLine.Star (space ucd))
       (ReLine.Seq (ReLine.Plain (Re.Group (Re.Class is_A_to_D))) ReLine.Dollar)).

(** The body of [for line in lines]. *)
Definition store_line (answers : Dict.dict str) (line : str) : Dict.dict str :=
  let trimmed := PyStr.upper ucd (PyStr.strip ucd line) in
  if negb (PyStr.is_empty trimmed) then
    match ReLine.match_ re_line trimmed with
    | Some m =>
        let q_no := Re.group m 1 in
        let option := Re.group m 2 in
        Dict.set q_no option answers
    | None =>
        let q_no_match := Re.search (re_q_no ucd) trimmed in
        let option_match := Re.search re_option trimmed in
        match q_no_match, option_match with
        | Some qm, Some om => Dict.set (Re.group qm 1) (Re.group om 1) answers
        | _, _ => answers
        end
    end
  else answers.

(** The body of [for i in range(0, len(parts), 2)]. *)
Definition store_pair (parts : list str) (answers : Dict.dict str) (i : nat)
  : Dict.dict str :=
  if i + 1 <? length parts then
    let q_no := nth i parts [] in
    let option := nth (i + 1) parts [] in
    if isdigit q_no then
      if existsb (str_eqb option) [lit "A"; lit "B"; lit "C"; lit "D"]
      then Dict.set q_no option answers
      else answers
    else answers
  else answers.

Definition parse_answer_text (answer_text : str) : Dict.dict str :=
  if PyStr.is_empty answer_text then Dict.empty
  else
    let answers := Dict.empty in
    let answers :=
      if PyStr.contains 10%N answer_text then
        let lines := PyStr.split 10%N answer_text in
        fold_left store_line lines answers
      else answers in
    if Dict.is_empty answers then
      let text :=
        PyStr.upper ucd (PyStr.strip ucd (PyStrOps.replace 10%N 32%N answer_text)) in
      let parts := PyStrOps.split_whitespace ucd text in
      fold_left (store_pair parts) (range2 0 (length parts) (length parts)) answers
    else answers.

Definition evaluate_mcq (model_answer_text student_answer_text : str) : Z * Z :=
  let model_answers := parse_answer_text model_answer_text in
  let student_answers := parse_answer_text student_answer_text in
  let score := 0%Z in
  let total := Dict.len model_answers in
  let score := fold_left (count_answer student_answers) (Dict.items model_answers) score in
  (score, total).



End WithUnicode.
End Comparison.

(** The pairs [(parts[0], parts[1])], [(parts[2], parts[3])], ... *)
Fixpoint pairs_of (parts : list str) : list (str * str) :=
  match parts with
  | a :: b :: rest => (a, b) :: pairs_of rest
  | _ => []
  end.

(** The pairs the sibling parsers store, in the order they store them. *)
Section SiblingShapes.
Variable ucd : UnicodeData.
Variable ucd_isdigit : char -> bool.

(** The words of the text taken two by two; a last word alone is dropped. *)
Definition word_pairs (answer_text : str) : list (str * str) :=
  pairs_of (PyStrOps.split_whitespace ucd
              (PyStr.upper ucd (PyStr.strip ucd (PyStrOps.replace 10%N 32%N answer_text)))).

Definition exact_pairs (answer_text : str) : list (str * str) :=
  match adjacent_pairs ucd (PyStr.upper ucd answer_text) with
  | (_ :: _) as ps => ps
  | [] => word_pairs answer_text
  end.

(** One line of [mcq_comparison.py]: the whole line as a number and an
    option, or else its first digit run and its first letter of A-D. *)
Definition comparison_line_pair (line : str) : list (str * str) :=
  let trimmed := PyStr.upper ucd (PyStr.strip ucd line) in
  match ReLine.match_ (Comparison.re_line ucd) trimmed with
  | Some m => [pair_of_match m]
  | None =>
      match Re.search (re_q_no ucd) trimmed, Re.search re_option trimmed with
      | Some qm, Some om => [(Re.group qm 1, Re.group om 1)]
      | _, _ => []
      end
  end.

(** The check of [mcq_comparison.py] on a pair of words. *)
Definition checked_pair (p : str * str) : bool :=
  Comparison.isdigit ucd_isdigit (fst p)
  && existsb (str_eqb (snd p)) [lit "A"; lit "B"; lit "C"; lit "D"].

Definition comparison_pairs (answer_text : str) : list (str * str) :=
  match (if PyStr.contains 10%N answer_text
         then flat_map comparison_line_pair (PyStr.split 10%N answer_text)
         else []) with
  | (_ :: _) as ps => ps
  | [] => filter checked_pair (word_pairs answer_text)
  end.

End SiblingShapes.

(** The score and the total of a student's answers against the model's:
    the model's entries the student has with the same option, and the
    number of the model's entries. *)
Definition score_of (model_answers student_answers : Dict.dict str) : Z * Z :=
  (Z.of_nat (length (filter (is_match student_answers) model_answers)),
   Dict.len model_answers).

(** ** Answer sheets

    The two formats the scripts document: an answer is a number and an
    option letter, adjacent ([1A]) or with a space between ([1 a]); the
    answers follow each other on one line or one on each line. *)

(** A letter of a-d or A-D. *)
Definition option_letter (o : char) : bool := is_A_to_D (ascii_upper o).

(** An answer of a sheet: a run of decimal digits, not empty, and an
    option letter. *)
Definition sheet_answer (ucd : UnicodeData) (a : str * char) : bool :=
  negb (PyStr.is_empty (fst a)) && forallb (PyStr.isdecimal ucd) (fst a)
  && option_letter (snd a).

Definition sheet_line (gap : str) (a : str * char) : str := fst a ++ gap ++ [snd a].

Definition sheet (gap : str) (sep : char) (l : list (str * char)) : str :=
  join [sep] (map (sheet_line gap) l).

(** An answer of a sheet in upper case, and the dictionary a sheet is to
    be read as. *)
Definition upper_answer (a : str * char) : str * char := (fst a, ascii_upper (snd a)).

Definition read_back (l : list (str * char)) : Dict.dict str :=
  fold_left set_pair (map (fun a => (fst a, [ascii_upper (snd a)])) l) [].

(** No character of [P] of the text is followed by one of [Q]. *)
Fixpoint free_of (P Q : char -> bool) (s : str) : bool :=
  match s with
  | c :: s' =>
      negb (P c && match s' with a :: _ => Q a | [] => false end) && free_of P Q s'
  | [] => true
  end.

(** The decimal characters are among those [str.isdigit] accepts, as in
    the Unicode character database. *)
Definition decimal_isdigit (ucd : UnicodeData) (ucd_isdigit : char -> bool) : Prop :=
  forall c, (128 <= c)%N -> PyStr.isdecimal ucd c = true -> ucd_isdigit c = true.

(** [str.isdigit] on Latin-1: the superscripts one, two and three. *)
Definition latin1_isdigit (c : char) : bool :=
  N.eqb c 178 || N.eqb c 179 || N.eqb c 185.

(** The letter the generator's fallback gives to a question number. *)
Definition fallback_letter (num : str) : char :=
  hd 97%N (Generator.get_default num (lit "a") Generator.sample_answers).

Definition fallback_sheet (ucd : UnicodeData) (text : str) : list (str * char) :=
  map (fun q => (fst q, fallback_letter (fst q))) (Generator.extract_mcq_questions ucd text).

(** ** The integration example ([mcq_answer_integration_example.py])

    The class [MCQAnswerGenerator]: an instance is its two attributes; the
    import of the API library and the request are parameters. *)
Module Integration.
Section WithUnicode.
Variable ucd : UnicodeData.

(** Whether [import openai] succeeded, and the chat request, which gives
    the content of the first choice or raises an exception with a message. *)
Variable OPENAI_AVAILABLE : bool.
Variable chat_completion : str -> str + str.





(** [sample_answers] *)
Definition sample_answers : Dict.dict str :=
  [(lit "1", lit "b"); (lit "2", lit "b"); (lit "3", lit "d"); (lit "4", lit "c")].

(** The body of [for num, _ in questions]. *)
Definition add_answer (formatted_answers : list str) (question : str * str) : list str :=
  let '(num, _) := question in
  let answer := Generator.get_default num (lit "a") sample_answers in
  formatted_answers ++ [num ++ lit " " ++ answer].


End WithUnicode.
End Integration.

(** ** The numbering pattern read deterministically *)



Section Numbering.
Variable ucd : UnicodeData.



End Numbering.


(** ** Strings *)

Lemma str_eqb_eq (a b : str) : str_eqb a b = true <-> a = b.
Proof.
  revert b; induction a as [|x a IH]; intros [|y b]; simpl; split;
    try congruence; try reflexivity.
  - rewrite andb_true_iff, N.eqb_eq, IH. intros [-> ->]; reflexivity.
  - intros E; injection E as -> ->. rewrite N.eqb_refl. apply IH; reflexivity.
Qed.

Lemma str_eqb_refl (a : str) : str_eqb a a = true.
Proof. apply str_eqb_eq; reflexivity. Qed.

Lemma str_eqb_neq (a b : str) : str_eqb a b = false <-> a <> b.
Proof.
  rewrite <- str_eqb_eq. destruct (str_eqb a b); split; congruence.
Qed.

(** ** Dictionaries *)
Module DictFacts.
Import Dict.

Section WithValue.
Context {V : Type}.
Implicit Types (d : dict V) (k q : str) (v : V).

Lemma get_set_same k v d : get k (set k v d) = Some v.
Proof.
  induction d as [|[k' v'] d IH]; simpl.
  - rewrite str_eqb_refl; reflexivity.
  - destruct (str_eqb k' k) eqn:E; simpl; rewrite E; auto.
Qed.

Lemma get_set_other k q v d : k <> q -> get q (set k v d) = get q d.
Proof.
  intros N. induction d as [|[k' v'] d IH]; simpl.
  - apply str_eqb_neq in N. rewrite N; reflexivity.
  - destruct (str_eqb k' k) eqn:E; simpl.
    + apply str_eqb_eq in E; subst k'. apply str_eqb_neq in N.
      rewrite N; reflexivity.
    + destruct (str_eqb k' q); auto.
Qed.

(** Setting a key appends it, unless it is there already. *)
Lemma keys_set_old k v d : In k (keys d) -> keys (set k v d) = keys d.
Proof.
  induction d as [|[k' v'] d IH]; simpl; [tauto|].
  destruct (str_eqb k' k) eqn:E; simpl; [reflexivity|].
  apply str_eqb_neq in E. intros [H|H]; [congruence|].
  f_equal; auto.
Qed.

Lemma keys_set_new k v d : ~ In k (keys d) -> keys (set k v d) = keys d ++ [k].
Proof.
  induction d as [|[k' v'] d IH]; simpl; [reflexivity|].
  intros H. destruct (str_eqb k' k) eqn:E; simpl.
  - apply str_eqb_eq in E. tauto.
  - f_equal; apply IH; tauto.
Qed.

Lemma set_new k v d : ~ In k (keys d) -> set k v d = d ++ [(k, v)].
Proof.
  induction d as [|[k' v'] d IH]; simpl; [reflexivity|].
  intros H. destruct (str_eqb k' k) eqn:E; simpl.
  - apply str_eqb_eq in E. tauto.
  - f_equal; apply IH; tauto.
Qed.

Lemma In_keys_dec k d : {In k (keys d)} + {~ In k (keys d)}.
Proof. apply in_dec, list_eq_dec, N.eq_dec. Qed.

Lemma NoDup_keys_set k v d : NoDup (keys d) -> NoDup (keys (set k v d)).
Proof.
  intros H. destruct (In_keys_dec k d) as [I|I].
  - rewrite keys_set_old; assumption.
  - rewrite keys_set_new by assumption.
    apply NoDup_app; [assumption | repeat constructor; auto | ].
    intros x Hx [<-|[]]. contradiction.
Qed.

Lemma set_not_empty k v d : set k v d <> [].
Proof. destruct d as [|[k' v'] d]; simpl; [|destruct (str_eqb k' k)]; discriminate. Qed.
End WithValue.
End DictFacts.

(** ** The parser *)
Section ParserFacts.
Variable ucd : UnicodeData.
Import Dict DictFacts.

Lemma fold_store_match ms answers :
  fold_left store_match ms answers
  = fold_left set_pair (map pair_of_match ms) answers.
Proof.
  revert answers; induction ms as [|m ms IH]; intros answers; simpl; auto.
Qed.

Lemma search_q_no_nil : Re.search (re_q_no ucd) [] = None.
Proof. reflexivity. Qed.

Lemma store_line_pairs answers line :
  store_line ucd answers line = fold_left set_pair (line_pair ucd line) answers.
Proof.
  unfold store_line, line_pair.
  destruct (PyStr.strip ucd line) as [|c trimmed] eqn:E; simpl PyStr.is_empty; cbv iota.
  - rewrite search_q_no_nil. reflexivity.
  - simpl negb. cbv iota.
    destruct (Re.search (re_q_no ucd) (c :: trimmed));
      destruct (Re.search re_option (c :: trimmed)); reflexivity.
Qed.

Lemma fold_store_line lines answers :
  fold_left (store_line ucd) lines answers
  = fold_left set_pair (flat_map (line_pair ucd) lines) answers.
Proof.
  revert answers; induction lines as [|l lines IH]; intros answers; simpl; auto.
  rewrite fold_left_app, <- store_line_pairs. apply IH.
Qed.

Lemma fold_set_pair_not_empty ps answers :
  answers <> [] -> fold_left set_pair ps answers <> [].
Proof.
  revert answers; induction ps as [|p ps IH]; intros answers H; simpl; auto.
  apply IH. apply set_not_empty.
Qed.

Lemma fold_set_pair_is_empty ps :
  is_empty (fold_left set_pair ps []) = match ps with [] => true | _ => false end.
Proof.
  destruct ps as [|p ps]; simpl; auto.
  destruct (fold_left set_pair ps (set_pair [] p)) eqn:E; auto.
  exfalso. revert E. apply fold_set_pair_not_empty. discriminate.
Qed.

(** The stored option of a question is that of its last pair. *)
Lemma get_fold_set_pair q ps answers :
  get q (fold_left set_pair ps answers)
  = match last_option q ps with
    | Some v => Some v
    | None => get q answers
    end.
Proof.
  revert answers; induction ps as [|[k v] ps IH]; intros answers; simpl; auto.
  rewrite IH. destruct (last_option q ps); auto.
  unfold set_pair; simpl. destruct (str_eqb k q) eqn:E.
  - apply str_eqb_eq in E; subst. apply get_set_same.
  - apply str_eqb_neq in E. apply get_set_other; assumption.
Qed.

Lemma NoDup_keys_fold_set_pair ps answers :
  NoDup (keys answers) -> NoDup (keys (fold_left set_pair ps answers)).
Proof.
  revert answers; induction ps as [|p ps IH]; intros answers H; simpl; auto.
  apply IH, NoDup_keys_set, H.
Qed.

(** [parse_answer_text] stores the pairs of the selected shape. *)
Lemma parse_answer_text_selected answer_text :
  parse_answer_text ucd answer_text
  = fold_left set_pair
      (selected_pairs ucd (PyStr.upper ucd (PyStr.strip ucd answer_text))) [].
Proof.
  unfold parse_answer_text.
  destruct answer_text as [|c t]; [reflexivity|].
  simpl PyStr.is_empty; cbv iota zeta.
  set (text := PyStr.upper ucd (PyStr.strip ucd (c :: t))).
  unfold selected_pairs, empty.
  rewrite !fold_store_match. fold (space_pairs ucd text) (adjacent_pairs ucd text).
  rewrite fold_set_pair_is_empty.
  destruct (space_pairs ucd text) as [|p ps] eqn:Es.
  - simpl fold_left at 2 3. rewrite fold_set_pair_is_empty.
    destruct (adjacent_pairs ucd text) as [|p' ps'] eqn:Ea.
    + simpl. unfold line_pairs.
      destruct (PyStr.contains 10%N text); [apply fold_store_line | reflexivity].
    + reflexivity.
  - rewrite fold_set_pair_is_empty. reflexivity.
Qed.

Lemma NoDup_keys_parse answer_text :
  NoDup (keys (parse_answer_text ucd answer_text)).
Proof.
  rewrite parse_answer_text_selected. apply NoDup_keys_fold_set_pair. constructor.
Qed.

Lemma get_parse q answer_text :
  get q (parse_answer_text ucd answer_text)
  = last_option q (selected_pairs ucd (PyStr.upper ucd (PyStr.strip ucd answer_text))).
Proof.
  rewrite parse_answer_text_selected, get_fold_set_pair.
  destruct (last_option q _); reflexivity.
Qed.
End ParserFacts.

(** ** Rounding to binary64 *)
Module PyFloatFacts.
Import PyFloat.
Local Open Scope Z_scope.

(** Settle a comparison whose outcome [lia] knows. *)
Ltac is_false b :=
  replace b with false
    by (symmetry; first [apply Z.eqb_neq | apply Z.ltb_ge | apply Z.leb_gt]; lia).

Lemma fexp_eq e : fexp prec emax e = Z.max (e - 53) (-1074).
Proof. reflexivity. Qed.

Lemma digits2_pos_gt p : Z.pos p < 2 ^ Z.pos (digits2_pos p).
Proof.
  induction p as [p IH|p IH|]; simpl digits2_pos;
    rewrite ?Pos2Z.inj_succ, ?Z.pow_succ_r by lia; lia.
Qed.

Lemma digits2_pos_le p : forall j, 0 <= j -> Z.pos p < 2 ^ j -> Z.pos (digits2_pos p) <= j.
Proof.
  induction p as [p IH|p IH|]; intros j Hj H; simpl digits2_pos;
    rewrite ?Pos2Z.inj_succ.
  - assert (j = Z.succ (j - 1)) as E by lia.
    destruct (Z.eq_dec j 0) as [->|N]; [simpl in H; lia|].
    rewrite E, Z.pow_succ_r in H by lia.
    specialize (IH (j - 1)). lia.
  - assert (j = Z.succ (j - 1)) as E by lia.
    destruct (Z.eq_dec j 0) as [->|N]; [simpl in H; lia|].
    rewrite E, Z.pow_succ_r in H by lia.
    specialize (IH (j - 1)). lia.
  - destruct (Z.eq_dec j 0) as [->|N]; [simpl in H; lia|]. lia.
Qed.

Lemma Zdigits2_le m j : 0 <= m -> 0 <= j -> m < 2 ^ j -> Zdigits2 m <= j.
Proof.
  destruct m as [|p|p]; simpl; intros; try lia. apply digits2_pos_le; assumption.
Qed.

Lemma Zdigits2_gt m : 0 <= m -> m < 2 ^ Zdigits2 m.
Proof.
  destruct m as [|p|p]; simpl; intros; try lia. apply digits2_pos_gt.
Qed.

Lemma Zdigits2_nonneg m : 0 <= Zdigits2 m.
Proof. destruct m; simpl; lia. Qed.

(** *** Shifting a mantissa right *)

Lemma shr_m_of_loc m l : shr_m (shr_record_of_loc m l) = m.
Proof. destruct l as [|[| |]]; reflexivity. Qed.

Lemma loc_of_shr_record_of_loc m l : loc_of_shr_record (shr_record_of_loc m l) = l.
Proof. destruct l as [|[| |]]; reflexivity. Qed.

Lemma shifted_0 a : 0 <= shr_m a -> shifted 0 a a.
Proof.
  intros H. unfold shifted. rewrite Z.pow_0_r, Z.div_1_r. auto.
Qed.

Lemma shifted_1 a : 0 <= shr_m a -> shifted 1 a (shr_1 a).
Proof.
  destruct a as [m r s]. unfold shifted. simpl shr_m. intros H.
  change (2 ^ 1) with 2.
  destruct m as [|[p|p|]|p]; try lia; simpl shr_1; simpl shr_m.
  - repeat split; auto. destruct r, s; simpl; try discriminate; auto.
  - repeat split; try lia.
    + apply Z.div_unique with (r := 1); lia.
    + intros _ E. exfalso. rewrite Pos2Z.inj_xI in E.
      rewrite Z.mul_comm, Z.add_comm, Z.mod_add in E by lia. discriminate.
  - repeat split; try lia.
    + apply Z.div_unique with (r := 0); lia.
    + destruct r, s; simpl; try discriminate; auto.
  - repeat split; try lia. intros _ E. discriminate.
Qed.

Lemma shifted_trans j k a b c :
  0 <= j -> 0 <= k -> shifted j a b -> shifted k b c -> shifted (j + k) a c.
Proof.
  intros Hj Hk (Hb & Eb & Lb) (Hc & Ec & Lc).
  assert (0 < 2 ^ j) as Pj by (apply Z.pow_pos_nonneg; lia).
  assert (0 < 2 ^ k) as Pk by (apply Z.pow_pos_nonneg; lia).
  unfold shifted. rewrite Z.pow_add_r by assumption.
  repeat split; auto.
  - rewrite Ec, Eb. apply Z.div_div; lia.
  - intros La Ma.
    apply Z.div_exact in Ma; [|lia].
    set (x := shr_m a / (2 ^ j * 2 ^ k)) in Ma.
    assert (shr_m a mod 2 ^ j = 0) as Mj.
    { rewrite Ma. replace (2 ^ j * 2 ^ k * x) with (2 ^ k * x * 2 ^ j) by ring.
      apply Z.mod_mul; lia. }
    assert (shr_m b mod 2 ^ k = 0) as Mk.
    { rewrite Eb, Ma. replace (2 ^ j * 2 ^ k * x) with (2 ^ k * x * 2 ^ j) by ring.
      rewrite Z.div_mul by lia. rewrite Z.mul_comm. apply Z.mod_mul; lia. }
    auto.
Qed.

Lemma shifted_nonneg k a b : 0 <= shr_m a -> shifted k a b -> 0 <= shr_m b.
Proof. intros _ (H & _); exact H. Qed.

Lemma iter_pos_shifted p : forall a,
  0 <= shr_m a -> shifted (Z.pos p) a (iter_pos shr_1 p a).
Proof.
  induction p as [p IH|p IH|]; intros a Ha; simpl iter_pos.
  - replace (Z.pos p~1) with (1 + Z.pos p + Z.pos p) by lia.
    pose proof (shifted_1 a Ha) as H1.
    pose proof (shifted_nonneg _ _ _ Ha H1) as Hb.
    pose proof (IH _ Hb) as H2.
    pose proof (IH _ (shifted_nonneg _ _ _ Hb H2)) as H3.
    apply shifted_trans with (b := iter_pos shr_1 p (shr_1 a)); try lia; auto.
    apply shifted_trans with (b := shr_1 a); try lia; auto.
  - replace (Z.pos p~0) with (Z.pos p + Z.pos p) by lia.
    pose proof (IH _ Ha) as H1.
    pose proof (IH _ (shifted_nonneg _ _ _ Ha H1)) as H2.
    apply shifted_trans with (b := iter_pos shr_1 p a); try lia; auto.
  - apply shifted_1; assumption.
Qed.

Lemma shr_shifted mrs e n :
  0 <= shr_m mrs ->
  snd (shr mrs e n) = e + Z.max n 0 /\ shifted (Z.max n 0) mrs (fst (shr mrs e n)).
Proof.
  intros H. destruct n as [|p|p]; simpl shr; simpl fst; simpl snd.
  - split; [lia | apply shifted_0; assumption].
  - rewrite Z.max_l by lia. split; [reflexivity | apply iter_pos_shifted; assumption].
  - rewrite Z.max_r by lia. split; [lia | apply shifted_0; assumption].
Qed.

(** *** Rounding keeps a value below an integer bound *)
Section Bounded.
Variables B k : Z.
Hypothesis HB : 0 < B < 2 ^ k.
Hypothesis Hk : 0 <= k <= 52.

Lemma shr_fexp_at_most mx ex lx :
  0 <= mx -> ex < 0 -> at_most B mx ex lx ->
  let r := shr_fexp prec emax mx ex lx in
  0 <= shr_m (fst r) /\ snd r < 0
  /\ at_most B (shr_m (fst r)) (snd r) (loc_of_shr_record (fst r)).
Proof.
  intros Hm He [Hle Hlt]. unfold shr_fexp.
  set (n := fexp prec emax (Zdigits2 mx + ex) - ex).
  destruct (shr_shifted (shr_record_of_loc mx lx) ex n) as [E (H0 & Em & L)];
    [rewrite shr_m_of_loc; assumption|].
  rewrite shr_m_of_loc in Em. rewrite shr_m_of_loc, loc_of_shr_record_of_loc in L.
  set (mrs := fst (shr (shr_record_of_loc mx lx) ex n)) in *.
  set (e1 := snd (shr (shr_record_of_loc mx lx) ex n)) in *.
  cbv zeta.
  assert (Zdigits2 mx + ex <= k) as Hd.
  { assert (Zdigits2 mx <= k - ex); [|lia].
    apply Zdigits2_le; try lia.
    replace (k - ex) with (k + - ex) by lia. rewrite Z.pow_add_r by lia.
    assert (0 < 2 ^ (- ex)) by (apply Z.pow_pos_nonneg; lia). nia. }
  assert (e1 < 0) as He1.
  { rewrite E. unfold n. rewrite fexp_eq. lia. }
  set (K := Z.max n 0) in *.
  assert (0 <= K) as HK by (unfold K; lia).
  assert (2 ^ (- ex) = 2 ^ (- e1) * 2 ^ K) as Ep.
  { rewrite <- Z.pow_add_r by lia. f_equal. lia. }
  assert (0 < 2 ^ (- e1)) as PP by (apply Z.pow_pos_nonneg; lia).
  assert (0 < 2 ^ K) as PQ by (apply Z.pow_pos_nonneg; lia).
  rewrite Ep in Hle, Hlt.
  set (P := 2 ^ (- e1)) in *. set (Q := 2 ^ K) in *.
  assert (shr_m mrs <= B * P) as Hle1.
  { rewrite Em. apply Z.div_le_upper_bound; [assumption | nia]. }
  repeat split; auto.
  intros NE. destruct (Z.lt_ge_cases (shr_m mrs) (B * P)) as [|Hge]; [assumption|].
  exfalso. apply NE.
  assert (shr_m mrs = B * P) as Eq1 by lia.
  pose proof (Z.mul_div_le mx Q PQ) as Hq. rewrite <- Em, Eq1 in Hq.
  assert (mx = B * P * Q) as Emx by nia.
  apply L.
  - destruct lx as [|c]; [reflexivity|]. exfalso.
    assert (mx < B * (P * Q)) by (apply Hlt; discriminate). lia.
  - rewrite Emx. apply Z.mod_mul. lia.
Qed.

Lemma round_nearest_even_at_most m e l :
  0 <= m -> at_most B m e l ->
  0 <= round_nearest_even m l /\ at_most B (round_nearest_even m l) e loc_Exact.
Proof.
  intros Hm [Hle Hlt]. unfold at_most.
  assert (round_nearest_even m l = m
          \/ (l <> loc_Exact /\ round_nearest_even m l = m + 1)) as [->|[NE ->]].
  { destruct l as [|[| |]]; simpl; auto.
    - destruct (Z.even m); [left; reflexivity | right; split; [discriminate|reflexivity]].
    - right; split; [discriminate|reflexivity]. }
  - repeat split; auto; intros F; exfalso; apply F; reflexivity.
  - specialize (Hlt NE). repeat split; try lia; intros F; exfalso; apply F; reflexivity.
Qed.

Lemma binary_round_aux_at_most mx ex lx :
  0 <= mx -> ex < 0 -> at_most B mx ex lx ->
  float_in B (binary_round_aux prec emax false mx ex lx).
Proof.
  intros Hm He Hb. unfold binary_round_aux.
  pose proof (shr_fexp_at_most mx ex lx Hm He Hb) as H1. cbv zeta in H1.
  destruct (shr_fexp prec emax mx ex lx) as [mrs' e'].
  simpl fst in H1; simpl snd in H1. destruct H1 as (Hm1 & He1 & Hb1).
  destruct (round_nearest_even_at_most _ _ _ Hm1 Hb1) as [Hm2 Hb2].
  pose proof (shr_fexp_at_most _ _ _ Hm2 He1 Hb2) as H3. cbv zeta in H3.
  destruct (shr_fexp prec emax _ e' loc_Exact) as [mrs'' e''].
  simpl fst in H3; simpl snd in H3. destruct H3 as (Hm3 & He3 & [Hb3 _]).
  destruct (shr_m mrs'') as [|m|m]; [left; reflexivity | | lia].
  right. exists m, e''.
  replace (e'' <=? emax - prec) with true by (symmetry; apply Z.leb_le; unfold emax, prec; lia).
  auto.
Qed.
End Bounded.

(** *** The three operations of the percentage *)

Lemma new_location_exact t : new_location t 0 = loc_Exact.
Proof.
  unfold new_location, new_location_even, new_location_odd.
  destruct (Z.even t); reflexivity.
Qed.

Lemma new_location_inexact t r : new_location t r <> loc_Exact -> r <> 0.
Proof. intros H ->. apply H, new_location_exact. Qed.

Lemma div_eucl_eq a b : Z.div_eucl a b = (a / b, a mod b).
Proof. unfold Z.div, Z.modulo. destruct (Z.div_eucl a b); reflexivity. Qed.

(** The quotient of two positive integers [s <= t] is a double in [0, 1]. *)
Lemma truediv_le_1 s t :
  0 < s <= t -> exists x, truediv s t = Return x /\ float_in 1 x.
Proof.
  intros H. unfold truediv.
  is_false (t =? 0). is_false (s =? 0). is_false (s <? 0). is_false (t <? 0).
  simpl xorb. rewrite !Z.abs_eq by lia.
  unfold SFdiv_core_binary.
  set (e' := Z.min (fexp prec emax (Zdigits2 s + 0 - (Zdigits2 t + 0))) (0 - 0)).
  assert (Zdigits2 s <= Zdigits2 t) as Hd.
  { apply Zdigits2_le; [lia | apply Zdigits2_nonneg |].
    pose proof (Zdigits2_gt t). lia. }
  assert (e' <= -53 /\ -1074 <= e') as He.
  { unfold e'. rewrite fexp_eq. lia. }
  destruct (0 - 0 - e') as [|sh|sh] eqn:Esh; try lia.
  rewrite <- Esh. rewrite Z.shiftl_mul_pow2 by lia.
  replace (0 - 0 - e') with (- e') by lia.
  rewrite div_eucl_eq.
  assert (0 < 2 ^ (- e')) as PP by (apply Z.pow_pos_nonneg; lia).
  set (P := 2 ^ (- e')) in *.
  assert (float_in 1 (binary_round_aux prec emax false (s * P / t) e'
                        (new_location t ((s * P) mod t)))) as F.
  { apply binary_round_aux_at_most with (k := 1).
    - simpl; lia.
    - lia.
    - apply Z.div_pos; nia.
    - lia.
    - unfold at_most. fold P. split.
      + apply Z.div_le_upper_bound; nia.
      + intros NE. apply new_location_inexact in NE.
        pose proof (Z.div_mod (s * P) t ltac:(lia)) as D.
        pose proof (Z.mod_pos_bound (s * P) t ltac:(lia)) as R.
        assert (t * (s * P / t) < t * P) by nia.
        rewrite Z.mul_1_l. apply Z.mul_lt_mono_pos_l with (p := t); lia. }
  destruct F as [->|(m & e & -> & F)].
  - eexists; split; [reflexivity | left; reflexivity].
  - eexists; split; [reflexivity | right; eauto].
Qed.

(** The quotient of a positive integer by itself is [1.0]. *)
Lemma truediv_same t :
  0 < t -> truediv t t = Return (S754_finite false 4503599627370496 (-52)).
Proof.
  intros H. unfold truediv.
  is_false (t =? 0). is_false (t <? 0).
  simpl xorb. rewrite !Z.abs_eq by lia.
  unfold SFdiv_core_binary.
  replace (Zdigits2 t + 0 - (Zdigits2 t + 0)) with 0 by lia.
  change (Z.min (fexp prec emax 0) (0 - 0)) with (-53).
  change (0 - 0 - -53) with 53.
  rewrite Z.shiftl_mul_pow2 by lia.
  rewrite div_eucl_eq, Z.mul_comm, Z.mul_comm.
  replace (t * 2 ^ 53) with (2 ^ 53 * t) by ring.
  rewrite Z.div_mul, Z.mod_mul by lia.
  rewrite new_location_exact. reflexivity.
Qed.

Lemma of_int_100 : of_int 100 = Return (S754_finite false 7036874417766400 (-46)).
Proof. reflexivity. Qed.

(** A double in [0, 1] times [100] is a double in [0, 100]. *)
Lemma mul_int_100_le x :
  float_in 1 x -> exists y, mul_int x 100 = Return y /\ float_in 100 y.
Proof.
  intros F. unfold mul_int. rewrite of_int_100. simpl bind.
  eexists; split; [reflexivity|].
  destruct F as [->|(m & e & -> & He & Hm)]; [left; reflexivity|].
  unfold mul, SFmul. simpl xorb.
  apply binary_round_aux_at_most with (k := 7); try lia.
  unfold at_most. split; [|intros F; exfalso; apply F; reflexivity].
  replace (- (e + -46)) with (- e + 46) by lia.
  rewrite Z.pow_add_r by lia. rewrite Pos2Z.inj_mul.
  change (Z.pos 7036874417766400) with (100 * 2 ^ 46).
  assert (0 < 2 ^ 46) by (apply Z.pow_pos_nonneg; lia).
  assert (0 < 2 ^ (- e)) by (apply Z.pow_pos_nonneg; lia).
  nia.
Qed.

(** Rounding a double in [0, B] gives an integer in [0, B]. *)
Lemma round_le B y :
  0 < B -> float_in B y -> exists p, round y = Return p /\ 0 <= p <= B.
Proof.
  intros HB [->|(m & e & -> & He & Hm)].
  - exists 0. split; [reflexivity | lia].
  - simpl round. eexists; split; [reflexivity|].
    unfold nearest_even.
    is_false (0 <=? e).
    assert (0 < 2 ^ (- e)) as PP by (apply Z.pow_pos_nonneg; lia).
    set (d := 2 ^ (- e)) in *.
    pose proof (Z.div_mod (Z.pos m) d) as D.
    pose proof (Z.mod_pos_bound (Z.pos m) d PP) as R.
    assert (0 <= Z.pos m / d) as Q0 by (apply Z.div_pos; lia).
    assert (Z.pos m / d <= B) as QB by (apply Z.div_le_upper_bound; nia).
    destruct (2 * (Z.pos m mod d) ?= d) eqn:C.
    + apply Z.compare_eq in C. destruct (Z.even (Z.pos m / d)); nia.
    + lia.
    + apply Z.compare_gt_iff in C. nia.
Qed.
End PyFloatFacts.

(** ** The scorer *)
Section ScorerFacts.
Import Dict DictFacts PyFloatFacts.
Local Open Scope Z_scope.

Lemma truediv_0 t : 0 < t -> PyFloat.truediv 0 t = Return (S754_zero false).
Proof.
  intros H. unfold PyFloat.truediv.
  PyFloatFacts.is_false (t =? 0). PyFloatFacts.is_false (t <? 0).
  reflexivity.
Qed.

(** The percentage of a score between [0] and the total: defined, between
    [0] and [100], [0] for no question and [100] for a full score. *)
Lemma percentage_of_spec sc tot :
  0 <= sc <= tot ->
  exists p, percentage_of sc tot = Return p
            /\ 0 <= p <= 100
            /\ (tot = 0 -> p = 0)
            /\ (0 < tot -> sc = tot -> p = 100).
Proof.
  intros H. unfold percentage_of.
  destruct (0 <? tot) eqn:T.
  - apply Z.ltb_lt in T.
    destruct (Z.eq_dec sc tot) as [->|N].
    + rewrite truediv_same by assumption. exists 100.
      repeat split; try lia; reflexivity.
    + assert (exists x, PyFloat.truediv sc tot = Return x /\ float_in 1 x)
        as (x & -> & Fx).
      { destruct (Z.eq_dec sc 0) as [->|N0].
        - rewrite truediv_0 by assumption. eexists; split; [reflexivity|left; reflexivity].
        - apply truediv_le_1. lia. }
      cbn [bind].
      destruct (mul_int_100_le x Fx) as (y & -> & Fy). cbn [bind].
      destruct (round_le 100 y ltac:(lia) Fy) as (p & -> & Hp).
      exists p. repeat split; lia.
  - apply Z.ltb_ge in T. exists 0. repeat split; lia.
Qed.

Lemma compare_answer_eq student_answers sc res item :
  ~ In (fst item) (keys res) ->
  compare_answer student_answers (sc, res) item
  = (sc + (if is_match student_answers item then 1 else 0),
     res ++ [entry_of student_answers item]).
Proof.
  destruct item as [q c]. intros NI. unfold compare_answer, entry_of, is_match.
  simpl fst in *; simpl snd.
  destruct (opt_eqb (get q student_answers) c).
  - rewrite set_new by assumption. reflexivity.
  - rewrite set_new by assumption. rewrite Z.add_0_r. reflexivity.
Qed.

Lemma keys_app {V} (a b : dict V) : keys (a ++ b) = keys a ++ keys b.
Proof. apply map_app. Qed.

(** The loop of [evaluate_mcq] in closed form, over model answers whose
    keys are distinct and not yet in [results]. *)
Lemma compare_all student_answers items : forall sc res,
  NoDup (keys res ++ keys items) ->
  fold_left (compare_answer student_answers) items (sc, res)
  = (sc + Z.of_nat (length (filter (is_match student_answers) items)),
     res ++ map (entry_of student_answers) items).
Proof.
  induction items as [|item items IH]; intros sc res ND.
  - simpl. rewrite Z.add_0_r, app_nil_r. reflexivity.
  - cbn [fold_left]. rewrite compare_answer_eq.
    + rewrite IH.
      * simpl filter. simpl map.
        destruct (is_match student_answers item); simpl length;
          rewrite <- app_assoc; simpl app; f_equal; lia.
      * rewrite keys_app. simpl. rewrite <- app_assoc. exact ND.
    + simpl in ND. apply NoDup_remove_2 in ND.
      intros I. apply ND. apply in_or_app. left; exact I.
Qed.

Lemma keys_entries student_answers items :
  keys (map (entry_of student_answers) items) = keys items.
Proof.
  unfold keys. rewrite map_map. apply map_ext. intros [q c]; reflexivity.
Qed.

Lemma count_correct_entries student_answers items :
  count_correct (map (entry_of student_answers) items)
  = Z.of_nat (length (filter (is_match student_answers) items)).
Proof.
  unfold count_correct. f_equal.
  induction items as [|item items IH]; simpl; auto.
  destruct (is_match student_answers item); simpl; auto.
Qed.

Lemma get_of_In {V} (d : dict V) k v :
  NoDup (keys d) -> In (k, v) d -> get k d = Some v.
Proof.
  induction d as [|[k' v'] d IH]; simpl; intros ND I; [tauto|].
  inversion ND as [|? ? NI ND']; subst.
  destruct I as [E|I].
  - injection E as -> ->. rewrite str_eqb_refl. reflexivity.
  - destruct (str_eqb k' k) eqn:E; auto.
    apply str_eqb_eq in E; subst k'. exfalso. apply NI.
    change k with (fst (k, v)). apply in_map. exact I.
Qed.

(** Against themselves, all answers match. *)
Lemma filter_is_match_self (answers : dict str) :
  NoDup (keys answers) -> filter (is_match answers) answers = answers.
Proof.
  intros ND. apply forallb_filter_id. apply forallb_forall.
  intros [q c] I. unfold is_match. simpl.
  rewrite (get_of_In answers q c ND I). simpl. apply str_eqb_refl.
Qed.

(** Only the student's answers to the model's questions are read. *)
Lemma entries_ext s1 s2 (items : dict str) :
  (forall q, In q (keys items) -> get q s1 = get q s2) ->
  map (entry_of s1) items = map (entry_of s2) items
  /\ filter (is_match s1) items = filter (is_match s2) items.
Proof.
  intros H. split.
  - apply map_ext_in. intros [q c] I. unfold entry_of, is_match. simpl.
    rewrite (H q); [reflexivity|]. change q with (fst (q, c)). apply in_map, I.
  - apply filter_ext_in. intros [q c] I. unfold is_match. simpl.
    rewrite (H q); [reflexivity|]. change q with (fst (q, c)). apply in_map, I.
Qed.

Variable ucd : UnicodeData.

(** [evaluate_mcq] without its loop. *)
Lemma evaluate_mcq_eq model_answer_text student_answer_text :
  let model_answers := parse_answer_text ucd model_answer_text in
  let student_answers := parse_answer_text ucd student_answer_text in
  let sc := Z.of_nat (length (filter (is_match student_answers) model_answers)) in
  evaluate_mcq ucd model_answer_text student_answer_text
  = (percentage <- percentage_of sc (len model_answers) ;;
     Return {| score := sc;
               total := len model_answers;
               results := map (entry_of student_answers) model_answers;
               percentage := percentage;
               formattedOutput := None |}).
Proof.
  intros model_answers student_answers sc. unfold evaluate_mcq, items, empty.
  fold model_answers student_answers.
  rewrite compare_all by (simpl; apply NoDup_keys_parse).
  reflexivity.
Qed.

Lemma filter_length_le {A} (f : A -> bool) (l : list A) :
  (length (filter f l) <= length l)%nat.
Proof.
  induction l as [|x l IH]; simpl; [lia|]. destruct (f x); simpl; lia.
Qed.

(** [evaluate_mcq] returns, and what it returns. *)
Lemma evaluate_mcq_returns model_answer_text student_answer_text :
  let model_answers := parse_answer_text ucd model_answer_text in
  let student_answers := parse_answer_text ucd student_answer_text in
  let sc := Z.of_nat (length (filter (is_match student_answers) model_answers)) in
  exists p,
    evaluate_mcq ucd model_answer_text student_answer_text
    = Return {| score := sc;
                total := len model_answers;
                results := map (entry_of student_answers) model_answers;
                percentage := p;
                formattedOutput := None |}
    /\ percentage_of sc (len model_answers) = Return p
    /\ 0 <= sc <= len model_answers
    /\ 0 <= p <= 100.
Proof.
  intros model_answers student_answers sc. rewrite evaluate_mcq_eq. cbv zeta.
  fold model_answers student_answers sc.
  assert (0 <= sc <= len model_answers) as Hsc.
  { unfold sc, len.
    pose proof (filter_length_le (is_match student_answers) model_answers). lia. }
  destruct (percentage_of_spec sc (len model_answers) Hsc) as (p & E & Hp & _).
  exists p. rewrite E. simpl. auto.
Qed.
End ScorerFacts.

(** ** Whitespace *)
Section StripFacts.
Variable ucd : UnicodeData.

Lemma lstrip_all_space s : all_space ucd s = true -> PyStr.lstrip ucd s = [].
Proof.
  induction s as [|c s IH]; simpl; auto.
  destruct (PyStr.isspace ucd c); simpl; [exact IH | discriminate].
Qed.

Lemma strip_all_space s : all_space ucd s = true -> PyStr.strip ucd s = [].
Proof.
  intros H. unfold PyStr.strip. rewrite lstrip_all_space by assumption. reflexivity.
Qed.

Lemma parse_all_space s : all_space ucd s = true -> parse_answer_text ucd s = [].
Proof.
  intros H. rewrite parse_answer_text_selected, strip_all_space by assumption.
  reflexivity.
Qed.

(** With no model answer there is nothing to score. *)
Lemma evaluate_mcq_no_answers model_answer_text student_answer_text :
  parse_answer_text ucd model_answer_text = [] ->
  evaluate_mcq ucd model_answer_text student_answer_text
  = Return {| score := 0; total := 0; results := []; percentage := 0;
              formattedOutput := None |}.
Proof.
  intros E. rewrite evaluate_mcq_eq. cbv zeta. rewrite E. reflexivity.
Qed.

(** [process_json_input] on two strings that are not empty. *)
Lemma process_json_input_nonempty m s :
  m <> [] -> s <> [] ->
  exists r,
    evaluate_mcq ucd m s = Return r
    /\ process_json_input ucd {| model_answers := Some m; student_answers := Some s |}
       = ([Call_evaluate_mcq m s; Call_format_results r],
          Return {| score := score r;
                    total := total r;
                    results := results r;
                    percentage := percentage r;
                    formattedOutput := Some (format_results r) |}).
Proof.
  intros Hm Hs. destruct (evaluate_mcq_returns ucd m s) as (p & E & _).
  eexists. split; [exact E|].
  unfold process_json_input. simpl model_answers. simpl student_answers.
  destruct m as [|c m]; [congruence|]. destruct s as [|c' s]; [congruence|].
  simpl PyStr.is_empty. simpl orb. cbv iota. rewrite E. reflexivity.
Qed.

(** An empty student text is rejected, whatever the model text. *)
Lemma process_json_input_empty_student m :
  process_json_input ucd {| model_answers := m; student_answers := Some [] |}
  = ([], Raise invalid_json_input).
Proof.
  destruct m as [m|]; [|reflexivity]. unfold process_json_input. simpl.
  rewrite orb_true_r. reflexivity.
Qed.
End StripFacts.

(** ** The claims *)

(** C1. For every input string, [parse_answer_text] takes the pairs of the
    space-separated shape when there is one; those of the adjacent shape
    only when the space-separated shape yields none; and those of the line
    scan only when both yield none. In each case the option stored for a
    question is the one of the last pair of that shape for it. *)
Theorem parse_priority_and_last_wins (ucd : UnicodeData) (answer_text q : str) :
  let text := PyStr.upper ucd (PyStr.strip ucd answer_text) in
  let answers := parse_answer_text ucd answer_text in
  (space_pairs ucd text <> [] ->
     Dict.get q answers = last_option q (space_pairs ucd text))
  /\ (space_pairs ucd text = [] -> adjacent_pairs ucd text <> [] ->
     Dict.get q answers = last_option q (adjacent_pairs ucd text))
  /\ (space_pairs ucd text = [] -> adjacent_pairs ucd text = [] ->
     Dict.get q answers = last_option q (line_pairs ucd text))
  /\ NoDup (Dict.keys answers).
Proof.
  intros text answers. subst answers. rewrite get_parse. fold text.
  unfold selected_pairs.
  repeat split.
  - destruct (space_pairs ucd text); congruence.
  - intros -> H. destruct (adjacent_pairs ucd text); congruence.
  - intros -> ->. reflexivity.
  - apply NoDup_keys_parse.
Qed.

(** The three shapes on concrete texts: a space-separated pair hides the
    adjacent pair [7D]; without one the adjacent pairs are taken, the later
    [1B] replacing [1A]; the lines are scanned when neither shape matches,
    and only in a text that has a newline. *)
Example parse_priority_examples (ucd : UnicodeData) :
  parse_answer_text ucd (lit "1 a 7D 1 c") = [(lit "1", lit "C")]
  /\ parse_answer_text ucd (lit "1A2b 1B") = [(lit "1", lit "B"); (lit "2", lit "B")]
  /\ parse_answer_text ucd text_lines = [(lit "1", lit "A"); (lit "2", lit "B")]
  /\ parse_answer_text ucd (lit "Q1: a") = [].
Proof. repeat split; vm_compute; reflexivity. Qed.

Lemma parse_priority_and_last_wins_witness :
  Dict.get (lit "1") (parse_answer_text latin1 (lit "1 a 7D 1 c")) = Some (lit "C")
  /\ Dict.get (lit "1") (parse_answer_text latin1 (lit "1A2b 1B")) = Some (lit "B")
  /\ Dict.get (lit "2") (parse_answer_text latin1 text_lines) = Some (lit "B").
Proof.
  split; [|split].
  - destruct (parse_priority_and_last_wins latin1 (lit "1 a 7D 1 c") (lit "1"))
      as (H & _).
    rewrite H; [reflexivity | intros E; vm_compute in E; discriminate E].
  - destruct (parse_priority_and_last_wins latin1 (lit "1A2b 1B") (lit "1"))
      as (_ & H & _).
    rewrite H; [reflexivity | reflexivity | intros E; vm_compute in E; discriminate E].
  - destruct (parse_priority_and_last_wins latin1 text_lines (lit "2"))
      as (_ & _ & H & _).
    rewrite H; reflexivity.
Defined.

(** C2. [process_json_input] raises the invalid-input [ValueError], having
    called nothing, whenever one of the two strings is absent or empty;
    whatever the model text, an empty student text is rejected; and two
    strings that are not empty are never rejected, whatever they parse to:
    the evaluation is made and returned. *)
Theorem process_json_input_precheck (ucd : UnicodeData) (j : json_input) :
  let absent_or_empty (o : option str) := o = None \/ o = Some [] in
  (absent_or_empty (model_answers j) \/ absent_or_empty (student_answers j) ->
     process_json_input ucd j = ([], Raise invalid_json_input))
  /\ (forall m,
     process_json_input ucd {| model_answers := m; student_answers := Some [] |}
     = ([], Raise invalid_json_input))
  /\ (forall m s, model_answers j = Some m -> student_answers j = Some s ->
     m <> [] -> s <> [] ->
     exists r,
       evaluate_mcq ucd m s = Return r
       /\ process_json_input ucd j
          = ([Call_evaluate_mcq m s; Call_format_results r],
             Return {| score := score r;
                       total := total r;
                       results := results r;
                       percentage := percentage r;
                       formattedOutput := Some (format_results r) |})
       /\ (parse_answer_text ucd m = [] -> total r = 0%Z)).
Proof.
  intros absent_or_empty. repeat split.
  - unfold process_json_input.
    intros [[E|E]|[E|E]]; rewrite E.
    + reflexivity.
    + destruct (student_answers j); reflexivity.
    + destruct (model_answers j) as [[|c m]|]; reflexivity.
    + destruct (model_answers j) as [[|c m]|]; reflexivity.
  - apply process_json_input_empty_student.
  - intros m s Em Es Hm Hs.
    destruct (process_json_input_nonempty ucd m s Hm Hs) as (r & E & P).
    destruct j as [jm js]. simpl in Em, Es. subst jm js.
    eexists. split; [exact E|]. split; [exact P|].
    intros E0. rewrite (evaluate_mcq_no_answers ucd m s E0) in E.
    injection E as <-. reflexivity.
Qed.

Lemma process_json_input_precheck_witness :
  process_json_input latin1 {| model_answers := None;
                               student_answers := Some (lit "1A") |}
  = ([], Raise invalid_json_input)
  /\ exists r,
       evaluate_mcq latin1 (lit "hello world") (lit "1 a") = Return r
       /\ total r = 0%Z
       /\ fst (process_json_input latin1 {| model_answers := Some (lit "hello world");
                                            student_answers := Some (lit "1 a") |})
          = [Call_evaluate_mcq (lit "hello world") (lit "1 a"); Call_format_results r].
Proof.
  split.
  - pose proof (process_json_input_precheck latin1
                  {| model_answers := None; student_answers := Some (lit "1A") |}) as H.
    cbv zeta in H. apply H. left; left; reflexivity.
  - pose proof (process_json_input_precheck latin1
                  {| model_answers := Some (lit "hello world");
                     student_answers := Some (lit "1 a") |}) as H.
    cbv zeta in H. destruct H as (_ & _ & H).
    destruct (H (lit "hello world") (lit "1 a") eq_refl eq_refl) as (r & E & P & T);
      [discriminate | discriminate |].
    exists r. split; [exact E|]. split; [apply T; reflexivity|].
    rewrite P. reflexivity.
Defined.

(** C3. Parsing ["Q1: a\nQ2: b"] gives [{"1": "A", "2": "B"}]: on the
    upper-cased text neither the space-separated nor the adjacent pattern
    matches (the colon after each digit run is neither whitespace nor a
    letter of A-D), the text has a newline, and the line scan pairs the
    first digit run of each line with its first letter of A-D. *)
Theorem parse_line_fallback (ucd : UnicodeData) :
  let text := PyStr.upper ucd (PyStr.strip ucd text_lines) in
  text = lit "Q1: A" ++ [10%N] ++ lit "Q2: B"
  /\ Re.finditer (re_space_separated ucd) text = []
  /\ Re.finditer (re_adjacent_pairs ucd) text = []
  /\ PyStr.isspace ucd 58%N = false /\ is_A_to_D 58%N = false
  /\ PyStr.contains 10%N text = true
  /\ map (line_pair ucd) (PyStr.split 10%N text)
     = [[(lit "1", lit "A")]; [(lit "2", lit "B")]]
  /\ parse_answer_text ucd text_lines = [(lit "1", lit "A"); (lit "2", lit "B")].
Proof. repeat split; vm_compute; reflexivity. Qed.

(** C4. The results of an evaluation have exactly the keys of the model
    answers, each once; and the evaluation is the same for any student
    text whose answers to the model's questions are the same, whatever it
    answers to other questions. *)
Theorem results_keys_and_frame (ucd : UnicodeData) (model_text student_text : str) :
  exists r,
    evaluate_mcq ucd model_text student_text = Return r
    /\ Dict.keys (results r) = Dict.keys (parse_answer_text ucd model_text)
    /\ NoDup (Dict.keys (results r))
    /\ forall student_text',
         (forall q, In q (Dict.keys (parse_answer_text ucd model_text)) ->
                    Dict.get q (parse_answer_text ucd student_text')
                    = Dict.get q (parse_answer_text ucd student_text)) ->
         evaluate_mcq ucd model_text student_text' = Return r.
Proof.
  destruct (evaluate_mcq_returns ucd model_text student_text) as (p & E & Ep & _).
  eexists. split; [exact E|]. simpl results.
  rewrite keys_entries. repeat split.
  - apply NoDup_keys_parse.
  - intros student_text' H.
    rewrite evaluate_mcq_eq. cbv zeta.
    destruct (entries_ext _ _ _ H) as [-> ->].
    rewrite Ep. reflexivity.
Qed.

(** C4 on concrete texts: the student's answers to questions 5 and 6,
    which the model does not have, change nothing. *)
Lemma results_keys_and_frame_witness :
  evaluate_mcq latin1 (lit "1A 2B") (lit "1 a 5 d 6 b")
  = evaluate_mcq latin1 (lit "1A 2B") (lit "1 a 5 c").
Proof.
  destruct (results_keys_and_frame latin1 (lit "1A 2B") (lit "1 a 5 c"))
    as (r & E & _ & _ & H).
  rewrite E. apply H.
  intros q [<-|[<-|[]]]; vm_compute; reflexivity.
Defined.

(** C5. Evaluating a text against itself gives a score equal to the
    total, and the percentage 100 when the total is positive. *)
Theorem evaluate_against_itself (ucd : UnicodeData) (answer_text : str) :
  exists r,
    evaluate_mcq ucd answer_text answer_text = Return r
    /\ score r = total r
    /\ (0 < total r -> percentage r = 100)%Z.
Proof.
  destruct (evaluate_mcq_returns ucd answer_text answer_text) as (p & E & Ep & Hs & _).
  eexists. split; [exact E|]. simpl score; simpl total; simpl percentage.
  rewrite filter_is_match_self in * by apply NoDup_keys_parse.
  split; [reflexivity|].
  intros T.
  destruct (percentage_of_spec _ _ Hs) as (p' & Ep' & _ & _ & H100).
  rewrite Ep in Ep'. injection Ep' as <-. apply H100; [exact T | reflexivity].
Qed.

Lemma evaluate_against_itself_witness :
  exists r,
    evaluate_mcq latin1 text_model text_model = Return r
    /\ score r = 4%Z /\ total r = 4%Z /\ percentage r = 100%Z.
Proof.
  destruct (evaluate_against_itself latin1 text_model) as (r & E & S & P).
  exists r. split; [exact E|].
  assert (total r = 4%Z) as T.
  { vm_compute in E. injection E as <-. reflexivity. }
  rewrite S, T. repeat split. apply P. rewrite T. reflexivity.
Defined.

(** C6. When the model text has no pair, the evaluation is total 0, score
    0, percentage 0; the division, which raises for a zero divisor, is not
    made for a zero total. *)
Theorem zero_total_no_division (ucd : UnicodeData) (model_text student_text : str) :
  parse_answer_text ucd model_text = [] ->
  evaluate_mcq ucd model_text student_text
  = Return {| score := 0; total := 0; results := []; percentage := 0;
              formattedOutput := None |}
  /\ forall sc, percentage_of sc 0 = Return 0%Z
                /\ PyFloat.truediv sc 0 = Raise ZeroDivisionError.
Proof.
  intros E. split; [apply evaluate_mcq_no_answers, E|].
  intros sc. split; reflexivity.
Qed.

Lemma zero_total_no_division_witness :
  parse_answer_text latin1 (lit "hello world") = []
  /\ evaluate_mcq latin1 (lit "hello world") (lit "1A")
     = Return {| score := 0; total := 0; results := []; percentage := 0;
                 formattedOutput := None |}.
Proof.
  split; [reflexivity|].
  apply (zero_total_no_division latin1 (lit "hello world") (lit "1A")).
  reflexivity.
Defined.

(** C7. Model ["1A 2B 3C 4D"] against student ["1 a 2 x 3 c 4 d"]: score
    3, total 4, percentage 75; [X] is not a letter of A-D, the pair [2 x]
    stores nothing, and question 2 is incorrect with no student option. *)
Theorem scenario_three_of_four (ucd : UnicodeData) :
  is_A_to_D 88%N = false
  /\ parse_answer_text ucd text_student
     = [(lit "1", lit "A"); (lit "3", lit "C"); (lit "4", lit "D")]
  /\ evaluate_mcq ucd text_model text_student
     = Return {| score := 3;
                 total := 4;
                 results :=
                   [(lit "1", {| correctOption := lit "A"; studentOption := Some (lit "A");
                                 isCorrect := true |});
                    (lit "2", {| correctOption := lit "B"; studentOption := None;
                                 isCorrect := false |});
                    (lit "3", {| correctOption := lit "C"; studentOption := Some (lit "C");
                                 isCorrect := true |});
                    (lit "4", {| correctOption := lit "D"; studentOption := Some (lit "D");
                                 isCorrect := true |})];
                 percentage := 75;
                 formattedOutput := None |}.
Proof. repeat split; vm_compute; reflexivity. Qed.

(** C8. [evaluate_mcq] returns a result for every pair of strings. The
    empty string parses to the empty dictionary, so [evaluate_mcq] returns
    for it too, where [process_json_input] raises. *)
Theorem evaluate_mcq_total (ucd : UnicodeData) (model_text student_text : str) :
  (exists r, evaluate_mcq ucd model_text student_text = Return r)
  /\ parse_answer_text ucd [] = Dict.empty
  /\ (exists r, evaluate_mcq ucd model_text [] = Return r)
  /\ evaluate_mcq ucd [] student_text
     = Return {| score := 0; total := 0; results := []; percentage := 0;
                 formattedOutput := None |}
  /\ process_json_input ucd {| model_answers := Some model_text;
                               student_answers := Some [] |}
     = ([], Raise invalid_json_input).
Proof.
  split; [|split; [|split; [|split]]].
  - destruct (evaluate_mcq_returns ucd model_text student_text) as (p & E & _); eauto.
  - reflexivity.
  - destruct (evaluate_mcq_returns ucd model_text []) as (p & E & _); eauto.
  - apply evaluate_mcq_no_answers. reflexivity.
  - apply process_json_input_empty_student.
Qed.

(** C9. The result of every evaluation has [0 <= score <= total], a score
    equal to the number of results marked correct, and
    [0 <= percentage <= 100]. *)
Theorem result_invariants (ucd : UnicodeData) (model_text student_text : str) :
  exists r,
    evaluate_mcq ucd model_text student_text = Return r
    /\ (0 <= score r <= total r)%Z
    /\ score r = count_correct (results r)
    /\ (0 <= percentage r <= 100)%Z.
Proof.
  destruct (evaluate_mcq_returns ucd model_text student_text) as (p & E & _ & Hs & Hp).
  eexists. split; [exact E|]. simpl.
  rewrite count_correct_entries. auto.
Qed.

(** C10. A string of whitespace only is not empty: [process_json_input]
    does not reject it. As the model text it gives the evaluation with
    total 0, and as the student text an evaluation all the same. *)
Theorem whitespace_only_accepted (ucd : UnicodeData) (blank other : str) :
  blank <> [] -> all_space ucd blank = true -> other <> [] ->
  (exists log out,
     process_json_input ucd {| model_answers := Some blank; student_answers := Some other |}
     = (log, Return out)
     /\ log <> []
     /\ total out = 0%Z /\ score out = 0%Z /\ percentage out = 0%Z /\ results out = [])
  /\ (exists log out,
     process_json_input ucd {| model_answers := Some other; student_answers := Some blank |}
     = (log, Return out)).
Proof.
  intros Hb Hs Ho. split.
  - destruct (process_json_input_nonempty ucd blank other Hb Ho) as (r & E & P).
    rewrite (evaluate_mcq_no_answers ucd blank other (parse_all_space ucd blank Hs)) in E.
    injection E as <-.
    eexists. eexists. split; [exact P|]. simpl.
    split; [discriminate | auto].
  - destruct (process_json_input_nonempty ucd other blank Ho Hb) as (r & E & P).
    eexists. eexists. exact P.
Qed.

Lemma whitespace_only_accepted_witness :
  exists log out,
    process_json_input latin1 {| model_answers := Some (lit " ");
                                 student_answers := Some (lit "1A") |}
    = (log, Return out)
    /\ log <> []
    /\ total out = 0%Z /\ score out = 0%Z /\ percentage out = 0%Z /\ results out = [].
Proof.
  apply (whitespace_only_accepted latin1 (lit " ") (lit "1A")).
  - discriminate.
  - reflexivity.
  - discriminate.
Defined.

(** ** The matcher and what a pattern denotes *)
Module ReFacts.
Import Re.

Lemma many_inv {A} p (k : str -> option A) : forall s x,
  many p k s = Some x ->
  exists pre rest,
    s = pre ++ rest /\ pre <> [] /\ forallb p pre = true /\ k rest = Some x.
Proof.
  induction s as [|c s IH]; intros x H; simpl in H; [discriminate|].
  destruct (p c) eqn:Pc; [|discriminate].
  destruct (many p k s) as [y|] eqn:M.
  - injection H as ->. destruct (IH x eq_refl) as (pre & rest & -> & _ & F & K).
    exists (c :: pre), rest. repeat split; auto; [discriminate|].
    simpl. rewrite Pc. exact F.
  - exists [c], s. repeat split; auto; [discriminate|].
    simpl. rewrite Pc. reflexivity.
Qed.

Lemma firstn_consumed (pre rest : str) :
  firstn (length (pre ++ rest) - length rest) (pre ++ rest) = pre.
Proof.
  rewrite length_app, Nat.add_sub, firstn_app, Nat.sub_diag, firstn_all.
  simpl. apply app_nil_r.
Qed.

(** A match of the backtracking matcher is a match of the pattern. *)
Lemma exec_sound {A} r : forall s gs (k : str -> list str -> option A) x,
  exec r s gs k = Some x ->
  exists pre rest g,
    s = pre ++ rest /\ denotes r pre g /\ k rest (gs ++ g) = Some x.
Proof.
  induction r as [p|p|r1 IH1 r2 IH2|r IH]; intros s gs k x H; simpl in H.
  - destruct s as [|c s]; [discriminate|]. destruct (p c) eqn:Pc; [|discriminate].
    exists [c], s, []. rewrite app_nil_r. repeat split; auto.
    simpl. eauto.
  - apply many_inv in H. destruct H as (pre & rest & -> & N & F & K).
    exists pre, rest, []. rewrite app_nil_r. simpl. auto.
  - apply IH1 in H. destruct H as (p1 & rest1 & g1 & -> & D1 & H).
    apply IH2 in H. destruct H as (p2 & rest & g2 & -> & D2 & H).
    exists (p1 ++ p2), rest, (g1 ++ g2).
    split; [apply app_assoc|]. split; [|rewrite app_assoc; exact H].
    simpl. exists p1, p2, g1, g2. auto.
  - apply IH in H. destruct H as (pre & rest & g & -> & D & H).
    rewrite firstn_consumed in H.
    exists pre, rest, (g ++ [pre]).
    split; [reflexivity|]. split; [|rewrite app_assoc; exact H].
    simpl. eauto.
Qed.

Lemma match_at_sound r s m rest :
  match_at r s = Some (m, rest) -> exists pre, s = pre ++ rest /\ denotes r pre m.
Proof.
  unfold match_at. intros H. apply exec_sound in H.
  destruct H as (pre & rest' & g & -> & D & [= <- <-]). eauto.
Qed.

Lemma finditer_from_Forall (P : match_obj -> Prop) r :
  (forall s m rest, match_at r s = Some (m, rest) -> P m) ->
  forall s n, Forall P (finditer_from r s n).
Proof.
  intros H. induction s as [|c s IH]; intros n; simpl; [constructor|].
  destruct n as [|n]; [|apply IH].
  destruct (match_at r (c :: s)) as [[m rest]|] eqn:M; [|apply IH].
  constructor; [eapply H; eassumption | apply IH].
Qed.

Lemma search_inv r : forall s m,
  search r s = Some m -> exists s' rest, match_at r s' = Some (m, rest).
Proof.
  induction s as [|c s IH]; intros m H; simpl in H.
  - destruct (match_at r []) as [[m' rest]|] eqn:M; [|discriminate].
    injection H as ->. eauto.
  - destruct (match_at r (c :: s)) as [[m' rest]|] eqn:M.
    + injection H as ->. eauto.
    + apply IH, H.
Qed.
End ReFacts.

(** ** What the parser stores *)
Section StoredAnswers.
Variable ucd : UnicodeData.
Import Dict DictFacts ReFacts.

Lemma nonempty_is_empty (s : str) : s <> [] -> PyStr.is_empty s = false.
Proof. destruct s; [congruence | reflexivity]. Qed.

Lemma space_separated_valid s m rest :
  Re.match_at (re_space_separated ucd) s = Some (m, rest) ->
  valid_answer ucd (pair_of_match m) = true.
Proof.
  intros H. apply match_at_sound in H. destruct H as (pre & _ & D).
  simpl in D.
  destruct D as (p1 & p2 & g1 & g2 & _ & -> & (g & -> & Nd & Fd & ->) & D).
  destruct D as (p3 & p4 & g3 & g4 & _ & -> & (_ & _ & ->) & (g' & -> & c & -> & Pc & ->)).
  unfold valid_answer, pair_of_match, Re.group. simpl.
  rewrite (nonempty_is_empty p1 Nd). unfold digit in Fd. rewrite Fd, Pc. reflexivity.
Qed.

Lemma adjacent_pairs_valid s m rest :
  Re.match_at (re_adjacent_pairs ucd) s = Some (m, rest) ->
  valid_answer ucd (pair_of_match m) = true.
Proof.
  intros H. apply match_at_sound in H. destruct H as (pre & _ & D).
  simpl in D.
  destruct D as (p1 & p2 & g1 & g2 & _ & -> & (g & -> & Nd & Fd & ->) & D).
  destruct D as (g' & -> & c & -> & Pc & ->).
  unfold valid_answer, pair_of_match, Re.group. simpl.
  rewrite (nonempty_is_empty p1 Nd). unfold digit in Fd. rewrite Fd, Pc. reflexivity.
Qed.

Lemma finditer_valid r text :
  (forall s m rest, Re.match_at r s = Some (m, rest) ->
                    valid_answer ucd (pair_of_match m) = true) ->
  forallb (valid_answer ucd) (map pair_of_match (Re.finditer r text)) = true.
Proof.
  intros H. apply forallb_forall. intros a I.
  apply in_map_iff in I. destruct I as (m & <- & I).
  pose proof (finditer_from_Forall
                (fun m => valid_answer ucd (pair_of_match m) = true) r H text 0) as F.
  rewrite Forall_forall in F. apply F, I.
Qed.

Lemma line_pair_valid line : forallb (valid_answer ucd) (line_pair ucd line) = true.
Proof.
  unfold line_pair.
  destruct (Re.search (re_q_no ucd) _) as [qm|] eqn:Q; [|reflexivity].
  destruct (Re.search re_option _) as [om|] eqn:O; [|reflexivity].
  apply search_inv in Q. destruct Q as (s1 & r1 & Q).
  apply search_inv in O. destruct O as (s2 & r2 & O).
  apply match_at_sound in Q. destruct Q as (p1 & _ & g & -> & Nd & Fd & ->).
  apply match_at_sound in O. destruct O as (p2 & _ & g' & -> & c & -> & Pc & ->).
  unfold valid_answer, Re.group. simpl.
  rewrite (nonempty_is_empty p1 Nd). unfold digit in Fd. rewrite Fd, Pc. reflexivity.
Qed.

Lemma selected_pairs_valid text :
  forallb (valid_answer ucd) (selected_pairs ucd text) = true.
Proof.
  unfold selected_pairs.
  pose proof (finditer_valid (re_space_separated ucd) text space_separated_valid) as S.
  pose proof (finditer_valid (re_adjacent_pairs ucd) text adjacent_pairs_valid) as A.
  fold (space_pairs ucd text) in S. fold (adjacent_pairs ucd text) in A.
  destruct (space_pairs ucd text); [|exact S].
  destruct (adjacent_pairs ucd text); [|exact A].
  unfold line_pairs. destruct (PyStr.contains 10%N text); [|reflexivity].
  apply forallb_forall. intros a I. apply in_flat_map in I.
  destruct I as (line & _ & I).
  pose proof (line_pair_valid line) as V. rewrite forallb_forall in V. apply V, I.
Qed.

Lemma In_set {V} (a : str * V) k v (d : dict V) :
  In a (set k v d) -> a = (k, v) \/ In a d.
Proof.
  induction d as [|[k' v'] d IH]; simpl.
  - intros [<-|[]]; auto.
  - destruct (str_eqb k' k) eqn:E; simpl.
    + apply str_eqb_eq in E; subst k'. intros [<-|I]; auto.
    + intros [<-|I]; auto. destruct (IH I); auto.
Qed.

Lemma In_fold_set_pair a ps : forall answers,
  In a (fold_left set_pair ps answers) -> In a ps \/ In a answers.
Proof.
  induction ps as [|p ps IH]; intros answers H; simpl in *; auto.
  destruct (IH _ H) as [I|I]; auto.
  apply In_set in I. destruct I as [->|I]; auto.
  left; left. destruct p; reflexivity.
Qed.

Lemma parse_valid answer_text :
  forallb (valid_answer ucd) (parse_answer_text ucd answer_text) = true.
Proof.
  rewrite parse_answer_text_selected. apply forallb_forall. intros a I.
  apply In_fold_set_pair in I. destruct I as [I|[]].
  pose proof (selected_pairs_valid (PyStr.upper ucd (PyStr.strip ucd answer_text))) as V.
  rewrite forallb_forall in V. apply V, I.
Qed.

(** The keys of the stored pairs, in the order they were first seen. *)
Lemma existsb_str_eqb k (seen : list str) :
  existsb (str_eqb k) seen = true <-> In k seen.
Proof.
  rewrite existsb_exists. split.
  - intros (x & I & E). apply str_eqb_eq in E. subst; exact I.
  - intros I. exists k. split; [exact I | apply str_eqb_refl].
Qed.

Lemma keys_set_pair answers p : keys (set_pair answers p) = see (keys answers) (fst p).
Proof.
  unfold set_pair, see. destruct (existsb (str_eqb (fst p)) (keys answers)) eqn:E.
  - apply keys_set_old. apply existsb_str_eqb, E.
  - apply keys_set_new. intros I. apply existsb_str_eqb in I. congruence.
Qed.

Lemma keys_fold_set_pair ps : forall answers,
  keys (fold_left set_pair ps answers) = fold_left see (map fst ps) (keys answers).
Proof.
  induction ps as [|p ps IH]; intros answers; simpl; auto.
  rewrite IH, keys_set_pair. reflexivity.
Qed.
End StoredAnswers.

(** ** Whitespace around a text, and the case of its letters *)
Section TextFacts.
Variable ucd : UnicodeData.

Lemma lstrip_nil_iff s : PyStr.lstrip ucd s = [] <-> all_space ucd s = true.
Proof.
  induction s as [|c s IH]; simpl; [tauto|].
  destruct (PyStr.isspace ucd c); simpl; [exact IH|]. split; discriminate.
Qed.

Lemma lstrip_app_space ws s :
  all_space ucd ws = true -> PyStr.lstrip ucd (ws ++ s) = PyStr.lstrip ucd s.
Proof.
  induction ws as [|c ws IH]; simpl; auto.
  destruct (PyStr.isspace ucd c); simpl; [exact IH | discriminate].
Qed.

Lemma lstrip_app_r s ws :
  all_space ucd ws = true ->
  PyStr.lstrip ucd (s ++ ws)
  = match PyStr.lstrip ucd s with
    | [] => []
    | u => u ++ ws
    end.
Proof.
  intros H. induction s as [|c s IH]; simpl.
  - apply lstrip_nil_iff, H.
  - destruct (PyStr.isspace ucd c); [exact IH | reflexivity].
Qed.

Lemma forallb_rev' {A} (f : A -> bool) l : forallb f (rev l) = forallb f l.
Proof.
  induction l as [|x l IH]; simpl; auto.
  rewrite forallb_app, IH. simpl. rewrite andb_true_r. apply andb_comm.
Qed.

Lemma all_space_rev ws : all_space ucd (rev ws) = all_space ucd ws.
Proof. apply forallb_rev'. Qed.

Lemma rstrip_app_space s ws :
  all_space ucd ws = true -> PyStr.rstrip ucd (s ++ ws) = PyStr.rstrip ucd s.
Proof.
  intros H. unfold PyStr.rstrip. rewrite rev_app_distr, lstrip_app_space; auto.
  rewrite all_space_rev. exact H.
Qed.

(** Whitespace before and after a text is stripped with the text's own. *)
Lemma strip_padded ws s ws' :
  all_space ucd ws = true -> all_space ucd ws' = true ->
  PyStr.strip ucd (ws ++ s ++ ws') = PyStr.strip ucd s.
Proof.
  intros H H'. unfold PyStr.strip.
  rewrite lstrip_app_space, lstrip_app_r by assumption.
  destruct (PyStr.lstrip ucd s) as [|c u]; [reflexivity|].
  apply rstrip_app_space, H'.
Qed.

(** A property of the ASCII characters holds when it holds of each. *)
Lemma ascii_cases (P : char -> bool) :
  forallb P (map N.of_nat (seq 0 128)) = true ->
  forall c, (c < 128)%N -> P c = true.
Proof.
  intros H c Hc. rewrite forallb_forall in H. apply H.
  apply in_map_iff. exists (N.to_nat c). split; [apply N2Nat.id|].
  apply in_seq. lia.
Qed.

Lemma isspace_ascii_upper c :
  PyStr.isspace ucd (ascii_upper c) = PyStr.isspace ucd c.
Proof.
  destruct (N.ltb_spec c 128) as [L|G].
  - apply Bool.eqb_prop.
    apply (ascii_cases
             (fun c => Bool.eqb (PyStr.isspace ucd (ascii_upper c)) (PyStr.isspace ucd c)));
      [vm_compute; reflexivity | exact L].
  - unfold ascii_upper.
    replace (N.leb c 122) with false by (symmetry; apply N.leb_gt; lia).
    rewrite andb_false_r. reflexivity.
Qed.

Lemma lstrip_ascii_upper s :
  PyStr.lstrip ucd (map ascii_upper s) = map ascii_upper (PyStr.lstrip ucd s).
Proof.
  induction s as [|c s IH]; simpl; auto.
  rewrite isspace_ascii_upper. destruct (PyStr.isspace ucd c); auto.
Qed.

Lemma strip_ascii_upper s :
  PyStr.strip ucd (map ascii_upper s) = map ascii_upper (PyStr.strip ucd s).
Proof.
  unfold PyStr.strip, PyStr.rstrip.
  rewrite lstrip_ascii_upper, <- map_rev, lstrip_ascii_upper, map_rev. reflexivity.
Qed.

Lemma upper_ascii s :
  ascii_text s = true -> PyStr.upper ucd s = map ascii_upper s.
Proof.
  unfold PyStr.upper. induction s as [|c s IH]; simpl; auto.
  rewrite andb_true_iff. intros [Hc Hs]. rewrite IH by assumption.
  unfold PyStr.toupper, ascii_upper. rewrite Hc.
  destruct (_ && _)%bool; reflexivity.
Qed.

Lemma ascii_text_lstrip s : ascii_text s = true -> ascii_text (PyStr.lstrip ucd s) = true.
Proof.
  induction s as [|c s IH]; simpl; auto.
  destruct (PyStr.isspace ucd c); simpl; auto.
  rewrite andb_true_iff. intros [_ H]; auto.
Qed.

Lemma ascii_text_rev s : ascii_text (rev s) = ascii_text s.
Proof. apply forallb_rev'. Qed.

Lemma ascii_text_strip s : ascii_text s = true -> ascii_text (PyStr.strip ucd s) = true.
Proof.
  intros H. unfold PyStr.strip, PyStr.rstrip.
  rewrite ascii_text_rev. apply ascii_text_lstrip.
  rewrite ascii_text_rev. apply ascii_text_lstrip, H.
Qed.

(** On ASCII text, stripping and upper-casing commute. *)
Lemma upper_strip_ascii s :
  ascii_text s = true ->
  PyStr.upper ucd (PyStr.strip ucd s) = PyStr.strip ucd (PyStr.upper ucd s).
Proof.
  intros H. rewrite (upper_ascii s H), strip_ascii_upper.
  apply upper_ascii, ascii_text_strip, H.
Qed.

(** [evaluate_mcq] reads its texts through [parse_answer_text] only. *)
Lemma evaluate_mcq_parse m1 s1 m2 s2 :
  parse_answer_text ucd m1 = parse_answer_text ucd m2 ->
  parse_answer_text ucd s1 = parse_answer_text ucd s2 ->
  evaluate_mcq ucd m1 s1 = evaluate_mcq ucd m2 s2.
Proof. intros Em Es. unfold evaluate_mcq. rewrite Em, Es. reflexivity. Qed.
End TextFacts.

(** ** Scores *)
Section ScoreFacts.
Variable ucd : UnicodeData.
Import Dict DictFacts.
Local Open Scope Z_scope.

Lemma get_In {V} q (v : V) (d : dict V) : get q d = Some v -> In (q, v) d.
Proof.
  induction d as [|[k' v'] d IH]; simpl; [discriminate|].
  destruct (str_eqb k' q) eqn:E; auto.
  apply str_eqb_eq in E. intros [= ->]. left; congruence.
Qed.

Lemma NoDup_dict {V} (d : dict V) : NoDup (keys d) -> NoDup d.
Proof. apply NoDup_map_inv. Qed.

Lemma opt_eqb_true so c : opt_eqb so c = true <-> so = Some c.
Proof.
  destruct so as [v|]; simpl; [|split; discriminate].
  rewrite str_eqb_eq. split; congruence.
Qed.

Lemma is_match_iff (student_answers : dict str) q c :
  is_match student_answers (q, c) = true <-> get q student_answers = Some c.
Proof. apply opt_eqb_true. Qed.

(** The answers the two dictionaries share are counted alike from both. *)
Lemma matches_incl (a b : dict str) :
  NoDup (keys a) -> incl (filter (is_match b) a) (filter (is_match a) b).
Proof.
  intros Na [q c] I. apply filter_In in I. destruct I as [I M].
  apply is_match_iff in M. apply filter_In. split; [apply get_In, M|].
  apply is_match_iff. apply get_of_In; assumption.
Qed.

Lemma matches_symmetric (a b : dict str) :
  NoDup (keys a) -> NoDup (keys b) ->
  length (filter (is_match b) a) = length (filter (is_match a) b).
Proof.
  intros Na Nb. apply Nat.le_antisymm; apply NoDup_incl_length.
  - apply NoDup_filter, NoDup_dict, Na.
  - apply matches_incl, Na.
  - apply NoDup_filter, NoDup_dict, Nb.
  - apply matches_incl, Nb.
Qed.

Lemma filter_all_iff {A} (f : A -> bool) (l : list A) :
  length (filter f l) = length l <-> forallb f l = true.
Proof.
  induction l as [|x l IH]; simpl; [tauto|].
  pose proof (filter_length_le f l) as L.
  destruct (f x); simpl.
  - rewrite <- IH. split; [intros [= E]; exact E | intros ->; reflexivity].
  - split; [intros E; exfalso; lia | discriminate].
Qed.

Lemma filter_none_iff {A} (f : A -> bool) (l : list A) :
  length (filter f l) = 0%nat <-> forall x, In x l -> f x = false.
Proof.
  induction l as [|x l IH]; simpl; [tauto|].
  destruct (f x) eqn:E; simpl.
  - split; [discriminate|]. intros H. specialize (H x (or_introl eq_refl)). congruence.
  - rewrite IH. split; [intros H y [<-|I]; auto | intros H y I; auto].
Qed.

(** The entry of a question in [results]. *)
Lemma get_entries (student_answers model_answers : dict str) q :
  get q (map (entry_of student_answers) model_answers)
  = match get q model_answers with
    | Some c => Some (snd (entry_of student_answers (q, c)))
    | None => None
    end.
Proof.
  induction model_answers as [|[k c] d IH]; simpl; auto.
  destruct (str_eqb k q) eqn:E; auto.
  apply str_eqb_eq in E; subst k. reflexivity.
Qed.

(** A parsed option is never the empty string. *)
Lemma truthy_get_parse text q :
  let so := get q (parse_answer_text ucd text) in
  (if truthy so then so else None) = so.
Proof.
  cbv zeta. destruct (get q (parse_answer_text ucd text)) as [v|] eqn:G; [|reflexivity].
  apply get_In in G.
  pose proof (parse_valid ucd text) as V. rewrite forallb_forall in V.
  specialize (V _ G). unfold valid_answer in V. simpl in V.
  destruct v as [|c [|c' v]]; simpl; auto.
  rewrite andb_false_r in V. discriminate.
Qed.
End ScoreFacts.

(** ** Further properties of the parser and the scorer *)

(** X1. Whatever the text, [parse_answer_text] stores only question
    numbers that are runs of decimal digits, not empty, with one of the
    four letters A, B, C, D, in upper case, as the option. *)
Theorem parse_stores_valid_answers (ucd : UnicodeData) (answer_text : str) :
  forallb (valid_answer ucd) (parse_answer_text ucd answer_text) = true
  /\ forall q o,
       Dict.get q (parse_answer_text ucd answer_text) = Some o ->
       q <> [] /\ forallb (PyStr.isdecimal ucd) q = true
       /\ (o = lit "A" \/ o = lit "B" \/ o = lit "C" \/ o = lit "D").
Proof.
  split; [apply parse_valid|].
  intros q o G. apply get_In in G.
  pose proof (parse_valid ucd answer_text) as V. rewrite forallb_forall in V.
  specialize (V _ G). unfold valid_answer in V. simpl in V.
  apply andb_true_iff in V. destruct V as [V Vo].
  apply andb_true_iff in V. destruct V as [Vn Vd].
  split; [destruct q; [discriminate | discriminate]|]. split; [exact Vd|].
  destruct o as [|c [|c' o]]; try discriminate.
  unfold is_A_to_D in Vo. apply andb_true_iff in Vo. destruct Vo as [L U].
  apply N.leb_le in L. apply N.leb_le in U.
  assert (c = 65 \/ c = 66 \/ c = 67 \/ c = 68)%N as [E|[E|[E|E]]] by lia;
    subst c; vm_compute; auto.
Qed.

(** X2. The questions of the parsed dictionary, and with them the
    results of an evaluation, are in the order in which the text first
    names them; a question named again keeps its place and counts once in
    the total. *)
Theorem questions_in_first_seen_order (ucd : UnicodeData) (model_text student_text : str) :
  let pairs := selected_pairs ucd (PyStr.upper ucd (PyStr.strip ucd model_text)) in
  Dict.keys (parse_answer_text ucd model_text) = first_seen (map fst pairs)
  /\ exists r,
       evaluate_mcq ucd model_text student_text = Return r
       /\ Dict.keys (results r) = first_seen (map fst pairs)
       /\ total r = Z.of_nat (length (first_seen (map fst pairs))).
Proof.
  intros pairs.
  assert (Dict.keys (parse_answer_text ucd model_text) = first_seen (map fst pairs)) as K.
  { rewrite parse_answer_text_selected. apply keys_fold_set_pair. }
  split; [exact K|].
  destruct (evaluate_mcq_returns ucd model_text student_text) as (p & E & _).
  eexists. split; [exact E|]. simpl.
  rewrite keys_entries, K. split; [reflexivity|].
  unfold Dict.len. rewrite <- K. unfold Dict.keys. rewrite length_map. reflexivity.
Qed.

(** X3. Whitespace before and after a text changes neither what is parsed
    from it nor an evaluation it takes part in, as model or as student
    text. *)
Theorem surrounding_whitespace_ignored (ucd : UnicodeData) (before text after : str) :
  all_space ucd before = true -> all_space ucd after = true ->
  parse_answer_text ucd (before ++ text ++ after) = parse_answer_text ucd text
  /\ forall other,
       evaluate_mcq ucd (before ++ text ++ after) other = evaluate_mcq ucd text other
       /\ evaluate_mcq ucd other (before ++ text ++ after) = evaluate_mcq ucd other text.
Proof.
  intros Hb Ha.
  assert (parse_answer_text ucd (before ++ text ++ after) = parse_answer_text ucd text) as E.
  { rewrite !parse_answer_text_selected, strip_padded by assumption. reflexivity. }
  split; [exact E|].
  intros other. split; apply evaluate_mcq_parse; auto.
Qed.

Lemma surrounding_whitespace_ignored_witness :
  parse_answer_text latin1 ([10; 32] ++ lit "1A 2b" ++ [32; 9; 10])%N
  = [(lit "1", lit "A"); (lit "2", lit "B")].
Proof.
  destruct (surrounding_whitespace_ignored latin1 [10; 32]%N (lit "1A 2b") [32; 9; 10]%N)
    as [E _]; [reflexivity | reflexivity |].
  etransitivity; [exact E | reflexivity].
Defined.

(** X4. Two ASCII texts that differ only in the case of their letters are
    parsed to the same dictionary, and are interchangeable in an
    evaluation. *)
Theorem letter_case_ignored (ucd : UnicodeData) (text1 text2 : str) :
  ascii_text text1 = true -> ascii_text text2 = true ->
  PyStr.upper ucd text1 = PyStr.upper ucd text2 ->
  parse_answer_text ucd text1 = parse_answer_text ucd text2
  /\ forall other,
       evaluate_mcq ucd text1 other = evaluate_mcq ucd text2 other
       /\ evaluate_mcq ucd other text1 = evaluate_mcq ucd other text2.
Proof.
  intros H1 H2 U.
  assert (parse_answer_text ucd text1 = parse_answer_text ucd text2) as E.
  { rewrite !parse_answer_text_selected, !upper_strip_ascii, U by assumption.
    reflexivity. }
  split; [exact E|].
  intros other. split; apply evaluate_mcq_parse; auto.
Qed.

Lemma letter_case_ignored_witness :
  parse_answer_text latin1 (lit "1a 2 B") = parse_answer_text latin1 (lit "1A 2 b")
  /\ parse_answer_text latin1 (lit "1a 2 B") = [(lit "2", lit "B")].
Proof.
  split; [|reflexivity].
  apply (letter_case_ignored latin1 (lit "1a 2 B") (lit "1A 2 b"));
    reflexivity.
Defined.

(** X5. For each question of the model text, [results] records the
    model's option, the option the student text gives for that question
    ([None] when it gives none) and whether the two are equal; for any
    other question it records nothing. *)
Theorem results_entry (ucd : UnicodeData) (model_text student_text q : str) :
  exists r,
    evaluate_mcq ucd model_text student_text = Return r
    /\ Dict.get q (results r)
       = match Dict.get q (parse_answer_text ucd model_text) with
         | Some c =>
             Some {| correctOption := c;
                     studentOption := Dict.get q (parse_answer_text ucd student_text);
                     isCorrect := opt_eqb (Dict.get q (parse_answer_text ucd student_text)) c |}
         | None => None
         end.
Proof.
  destruct (evaluate_mcq_returns ucd model_text student_text) as (p & E & _).
  eexists. split; [exact E|]. simpl results. rewrite get_entries.
  destruct (Dict.get q (parse_answer_text ucd model_text)) as [c|]; [|reflexivity].
  unfold entry_of, is_match. simpl.
  pose proof (truthy_get_parse ucd student_text q) as T. cbv zeta in T. rewrite T.
  destruct (opt_eqb _ c); reflexivity.
Qed.

(** X6. The score is the same when model and student text are exchanged,
    so it never exceeds the number of questions the student text
    answers. *)
Theorem score_symmetric (ucd : UnicodeData) (model_text student_text : str) :
  exists r r',
    evaluate_mcq ucd model_text student_text = Return r
    /\ evaluate_mcq ucd student_text model_text = Return r'
    /\ score r = score r'
    /\ (score r <= total r')%Z
    /\ total r' = Dict.len (parse_answer_text ucd student_text).
Proof.
  destruct (evaluate_mcq_returns ucd model_text student_text) as (p & E & _).
  destruct (evaluate_mcq_returns ucd student_text model_text) as (p' & E' & _ & Hs & _).
  eexists. eexists. split; [exact E|]. split; [exact E'|]. simpl.
  rewrite (matches_symmetric _ _ (NoDup_keys_parse ucd model_text)
             (NoDup_keys_parse ucd student_text)).
  repeat split. apply Hs.
Qed.

(** X7. The score equals the total exactly when the student text gives,
    for every question of the model text, the model's option, and the
    percentage is then 100 if there is a question at all; the score is 0
    exactly when it gives it for none, and the percentage is then 0. *)
Theorem full_and_zero_score (ucd : UnicodeData) (model_text student_text : str) :
  let model_answers := parse_answer_text ucd model_text in
  let student_answers := parse_answer_text ucd student_text in
  exists r,
    evaluate_mcq ucd model_text student_text = Return r
    /\ (score r = total r <->
        forall q c, Dict.get q model_answers = Some c ->
                    Dict.get q student_answers = Some c)
    /\ (score r = total r -> 0 < total r -> percentage r = 100)%Z
    /\ (score r = 0%Z <->
        forall q c, Dict.get q model_answers = Some c ->
                    Dict.get q student_answers <> Some c)
    /\ (score r = 0 -> percentage r = 0)%Z.
Proof.
  intros model_answers student_answers.
  destruct (evaluate_mcq_returns ucd model_text student_text) as (p & E & Ep & Hs & _).
  fold model_answers student_answers in E, Ep, Hs.
  pose proof (NoDup_keys_parse ucd model_text) as ND. fold model_answers in ND.
  eexists. split; [exact E|]. simpl.
  destruct (percentage_of_spec _ _ Hs) as (p' & Ep' & _ & _ & H100).
  rewrite Ep in Ep'. injection Ep' as <-.
  split; [|split; [|split]].
  - unfold Dict.len. rewrite Nat2Z.inj_iff, filter_all_iff, forallb_forall. split.
    + intros H q c G. apply is_match_iff. apply H. apply get_In, G.
    + intros H [q c] I. apply is_match_iff, H. apply get_of_In; assumption.
  - intros Es T. apply H100; assumption.
  - change 0%Z with (Z.of_nat 0). rewrite Nat2Z.inj_iff, filter_none_iff. split.
    + intros H q c G M. apply is_match_iff in M.
      rewrite (H (q, c) (get_In _ _ _ G)) in M. discriminate.
    + intros H [q c] I. destruct (is_match student_answers (q, c)) eqn:M; auto.
      apply is_match_iff in M. exfalso. apply (H q c); [|exact M].
      apply get_of_In; assumption.
  - intros Z0. rewrite Z0 in Ep. unfold percentage_of in Ep.
    destruct (0 <? Dict.len model_answers)%Z eqn:T.
    + apply Z.ltb_lt in T. rewrite truediv_0 in Ep by exact T.
      vm_compute in Ep. congruence.
    + congruence.
Qed.

(** ** The report *)
Section ReportFacts.
Variable ucd : UnicodeData.
Import Dict DictFacts.

Lemma contains_app sep a b :
  PyStr.contains sep (a ++ b) = PyStr.contains sep a || PyStr.contains sep b.
Proof. apply existsb_app. Qed.

Lemma split_app_sep sep a b :
  PyStr.contains sep a = false ->
  PyStr.split sep (a ++ sep :: b) = a :: PyStr.split sep b.
Proof.
  induction a as [|c a IH]; simpl.
  - intros _. rewrite N.eqb_refl. reflexivity.
  - intros H. apply orb_false_iff in H. destruct H as [Hc Ha].
    rewrite N.eqb_sym, Hc, (IH Ha). reflexivity.
Qed.

Lemma split_unlines ls :
  forallb (fun l => negb (PyStr.contains 10%N l)) ls = true ->
  PyStr.split 10%N (unlines ls) = ls ++ [[]].
Proof.
  induction ls as [|l ls IH]; simpl; [reflexivity|].
  intros H. apply andb_true_iff in H. destruct H as [Hl Hs].
  unfold newline. rewrite <- app_assoc. simpl.
  rewrite split_app_sep by (apply negb_true_iff, Hl).
  rewrite (IH Hs). reflexivity.
Qed.

Lemma fold_format_line items : forall output,
  fold_left format_line items output = output ++ unlines (map question_line items).
Proof.
  induction items as [|[q e] items IH]; intros output; cbn [fold_left map].
  - symmetry; apply app_nil_r.
  - rewrite IH. unfold unlines, format_line, question_line.
    cbn [flat_map fst snd].
    destruct (studentOption e) as [[|c o]|]; repeat rewrite <- app_assoc; reflexivity.
Qed.

(** The report is made of the lines of [report_lines]. *)
Lemma format_results_unlines r : format_results r = unlines (report_lines r).
Proof.
  unfold format_results, report_lines, items. rewrite fold_format_line.
  unfold unlines. rewrite !flat_map_app.
  unfold final_score_line, performance_label.
  cbn [flat_map]. repeat rewrite <- app_assoc.
  destruct (90 <=? percentage r)%Z; [reflexivity|].
  destruct (70 <=? percentage r)%Z; [reflexivity|].
  destruct (50 <=? percentage r)%Z; reflexivity.
Qed.

Lemma digits_no_newline q :
  forallb (PyStr.isdecimal ucd) q = true -> PyStr.contains 10%N q = false.
Proof.
  unfold PyStr.contains.
  induction q as [|c q IH]; cbn [forallb existsb]; auto.
  intros H. apply andb_true_iff in H. destruct H as [Hc Hq].
  rewrite (IH Hq), orb_false_r.
  destruct (N.eqb_spec 10 c) as [<-|]; [|reflexivity].
  vm_compute in Hc. discriminate.
Qed.

Lemma valid_answer_no_newline a :
  valid_answer ucd a = true ->
  PyStr.contains 10%N (fst a) = false /\ PyStr.contains 10%N (snd a) = false.
Proof.
  unfold valid_answer. intros V.
  apply andb_true_iff in V. destruct V as [V Vo].
  apply andb_true_iff in V. destruct V as [_ Vd].
  split; [apply digits_no_newline, Vd|].
  destruct (snd a) as [|c [|c' o]]; try discriminate.
  unfold PyStr.contains. cbn [existsb]. rewrite orb_false_r.
  destruct (N.eqb_spec 10 c) as [<-|]; [|reflexivity].
  vm_compute in Vo. discriminate.
Qed.

Lemma uint_no_newline d :
  PyStr.contains 10%N (lit (NilEmpty.string_of_uint d)) = false.
Proof. induction d; simpl; auto. Qed.

Lemma str_of_int_no_newline n : PyStr.contains 10%N (str_of_int n) = false.
Proof.
  unfold str_of_int, NilZero.string_of_int.
  destruct (Z.to_int n) as [d|d]; unfold NilZero.string_of_uint.
  - destruct d; try apply uint_no_newline; reflexivity.
  - change (lit (String "-" ?s)) with (45%N :: lit s). simpl.
    destruct d; try apply uint_no_newline; reflexivity.
Qed.

(** The line of a question whose strings have no newline has none. *)
Lemma question_line_no_newline q e :
  PyStr.contains 10%N q = false ->
  PyStr.contains 10%N (correctOption e) = false ->
  (forall o, studentOption e = Some o -> PyStr.contains 10%N o = false) ->
  PyStr.contains 10%N (question_line (q, e)) = false.
Proof.
  intros Hq Hc Ho. unfold question_line. simpl fst; simpl snd.
  rewrite !contains_app, Hq, Hc.
  destruct (studentOption e) as [[|c o]|] eqn:So; [| rewrite (Ho _ eq_refl) |];
  destruct (isCorrect e); reflexivity.
Qed.

Lemma entry_lines_no_newline (student_answers model_answers : dict str) :
  forallb (valid_answer ucd) student_answers = true ->
  forallb (valid_answer ucd) model_answers = true ->
  forallb (fun l => negb (PyStr.contains 10%N l))
          (map question_line (map (entry_of student_answers) model_answers)) = true.
Proof.
  intros Vs Vm. rewrite forallb_forall in Vs, Vm.
  apply forallb_forall. intros l I.
  apply in_map_iff in I. destruct I as ([q e] & <- & I).
  apply in_map_iff in I. destruct I as ([q' c] & E & I).
  unfold entry_of in E. simpl in E. injection E as <- <-.
  destruct (valid_answer_no_newline _ (Vm _ I)) as [Hq Hc]. simpl in Hq, Hc.
  apply negb_true_iff. apply question_line_no_newline; auto. simpl.
  assert (forall o, get q' student_answers = Some o -> PyStr.contains 10%N o = false) as Hs.
  { intros o G. apply get_In in G.
    destruct (valid_answer_no_newline _ (Vs _ G)) as [_ H]. exact H. }
  intros o. destruct (is_match student_answers (q', c)); [apply Hs|].
  destruct (truthy (get q' student_answers)); [apply Hs | discriminate].
Qed.
End ReportFacts.

(** X8. The report written for an evaluation is, line by line: an empty
    line and five lines of heading, one line for each question of the
    model text in order, with its mark, the model's option and the
    student's option or [No answer]; then an empty line, the score line
    between two rules and the label; no answer breaks a line. It is the
    [formattedOutput] that [process_json_input] returns. *)
Theorem report_line_by_line (ucd : UnicodeData) (model_text student_text : str) :
  exists r,
    evaluate_mcq ucd model_text student_text = Return r
    /\ PyStr.split 10%N (format_results r) = report_lines r ++ [[]]
    /\ length (PyStr.split 10%N (format_results r))
       = (length (parse_answer_text ucd model_text) + 13)%nat
    /\ (model_text <> [] -> student_text <> [] ->
        exists out,
          snd (process_json_input ucd {| model_answers := Some model_text;
                                         student_answers := Some student_text |})
          = Return out
          /\ formattedOutput out = Some (format_results r)).
Proof.
  destruct (evaluate_mcq_returns ucd model_text student_text) as (p & E & _).
  eexists. split; [exact E|].
  match goal with |- ?X /\ _ => assert X as S end.
  { rewrite format_results_unlines. apply split_unlines.
    unfold report_lines. rewrite !forallb_app. simpl results.
    rewrite (entry_lines_no_newline ucd) by apply parse_valid.
    unfold final_score_line. cbn [forallb].
    rewrite !contains_app, !str_of_int_no_newline.
    unfold performance_label. simpl percentage.
    destruct (90 <=? p)%Z; [reflexivity|].
    destruct (70 <=? p)%Z; [reflexivity|].
    destruct (50 <=? p)%Z; reflexivity. }
  split; [exact S|]. split.
  - rewrite S. unfold report_lines. simpl results.
    rewrite !length_app, !length_map. simpl. lia.
  - intros Hm Hs.
    destruct (process_json_input_nonempty ucd model_text student_text Hm Hs)
      as (r' & E' & P).
    rewrite E in E'. injection E' as <-.
    apply (f_equal snd) in P. simpl in P.
    eexists. split; [exact P | reflexivity].
Qed.

(** ** Scanning a text for matches *)
Module ScanFacts.
Import Re ReOps ReFacts.

(** Greedy [p+]: the whole run is taken when what follows can go on. *)
Lemma many_greedy {A} p (k : str -> option A) s x : forall d,
  d <> [] -> forallb p d = true -> many p k s = None -> k s = Some x ->
  many p k (d ++ s) = Some x.
Proof.
  induction d as [|c d IH]; intros N F M K; [congruence|].
  simpl in F. apply andb_true_iff in F. destruct F as [Pc F].
  simpl. rewrite Pc. destruct d as [|c' d].
  - simpl. rewrite M. exact K.
  - rewrite IH; auto. discriminate.
Qed.

Lemma finditer_skip r s : forall pre,
  finditer_from r (pre ++ s) (length pre) = finditer_from r s 0.
Proof. induction pre as [|c pre IH]; simpl; auto. Qed.

Lemma finditer_match r pre rest m :
  pre <> [] -> match_at r (pre ++ rest) = Some (m, rest) ->
  finditer_from r (pre ++ rest) 0 = m :: finditer_from r rest 0.
Proof.
  destruct pre as [|c pre]; [congruence|]. intros _ M.
  change ((c :: pre) ++ rest) with (c :: (pre ++ rest)) in *.
  cbn [finditer_from]. rewrite M. f_equal.
  rewrite length_app, Nat.add_sub. apply finditer_skip.
Qed.

Lemma finditer_no_match r c s :
  match_at r (c :: s) = None -> finditer_from r (c :: s) 0 = finditer_from r s 0.
Proof. intros M. cbn [finditer_from]. rewrite M. reflexivity. Qed.

(** The pieces of [re.split], for a matcher that gives one group. *)
Lemma split_from_interleave (m : matcher) (P : str -> Prop) :
  (forall s gs rest, m s = Some (gs, rest) -> exists g, gs = [g] /\ P g) ->
  forall s skip piece,
    exists first l,
      split_from m s skip piece = first :: interleave l
      /\ Forall (fun gp => P (fst gp)) l.
Proof.
  intros H. induction s as [|c s IH]; intros skip piece; simpl.
  - exists piece, []. split; [reflexivity | constructor].
  - destruct skip as [|n]; [|apply IH].
    destruct (m (c :: s)) as [[gs rest]|] eqn:M; [|apply IH].
    destruct (H _ _ _ M) as (g & -> & Pg).
    destruct (IH (length s - length rest)%nat []) as (first & l & -> & F).
    exists piece, ((g, first) :: l). split; [reflexivity|].
    constructor; auto.
Qed.
End ScanFacts.

(** ** The generator's questions *)
Section GeneratorFacts.
Variable ucd : UnicodeData.
Import Dict DictFacts ReFacts ScanFacts Generator.

Lemma denotes_literal s r : forall pre gs,
  denotes (ReOps.literal s r) pre gs ->
  exists p2, pre = s ++ p2 /\ denotes r p2 gs.
Proof.
  induction s as [|c s IH]; intros pre gs D; simpl in D;
    [exists pre; split; [reflexivity | exact D]|].
  destruct D as (p1 & p2 & g1 & g2 & -> & -> & (c' & -> & E & ->) & D).
  apply N.eqb_eq in E; subst c'.
  destruct (IH _ _ D) as (p3 & -> & D'). exists p3. auto.
Qed.

Lemma re_number_inv pre gs :
  denotes (re_number ucd) pre gs ->
  exists d, gs = [d] /\ d <> [] /\ forallb (PyStr.isdecimal ucd) d = true.
Proof.
  unfold re_number. simpl.
  intros (p1 & p2 & g1 & g2 & _ & -> & (g & -> & N & F & ->) & (c & _ & _ & ->)).
  exists p1. auto.
Qed.

(** A match of the numbering pattern has one group, a run of digits. *)
Lemma re_question_number_inv s gs rest :
  re_question_number ucd s = Some (gs, rest) ->
  exists d, gs = [d] /\ d <> [] /\ forallb (PyStr.isdecimal ucd) d = true.
Proof.
  unfold re_question_number.
  destruct (Re.match_at (ReOps.literal _ _) s) as [[gs' rest']|] eqn:M.
  - intros [= -> ->]. apply match_at_sound in M. destruct M as (pre & _ & D).
    apply denotes_literal in D. destruct D as (p2 & _ & D). simpl in D.
    destruct D as (p3 & p4 & g1 & g2 & _ & -> & (_ & _ & ->) & D).
    apply re_number_inv in D. exact D.
  - intros M'. apply match_at_sound in M'. destruct M' as (pre & _ & D).
    apply re_number_inv in D. exact D.
Qed.

(** The loop of [extract_mcq_questions] pairs each group with the piece
    after it. *)
Lemma fold_add_question l : forall pre result fuel,
  (length (interleave l) <= fuel)%nat ->
  fold_left (add_question ucd (pre ++ interleave l))
            (range2 (length pre) (length (pre ++ interleave l)) fuel) result
  = result ++ map (fun gp => (PyStr.strip ucd (fst gp), PyStr.strip ucd (snd gp))) l.
Proof.
  induction l as [|[g p] l IH]; intros pre result fuel Hf.
  - simpl interleave. rewrite app_nil_r. simpl map. rewrite app_nil_r.
    destruct fuel; simpl; [reflexivity|]. rewrite Nat.ltb_irrefl. reflexivity.
  - simpl interleave in *. simpl length in Hf.
    destruct fuel as [|fuel]; [lia|]. cbn [range2].
    replace (length pre <? length (pre ++ g :: p :: interleave l)) with true
      by (symmetry; apply Nat.ltb_lt; rewrite length_app; simpl; lia).
    cbn [fold_left]. unfold add_question at 2.
    replace (length pre + 1 <? length (pre ++ g :: p :: interleave l)) with true
      by (symmetry; apply Nat.ltb_lt; rewrite length_app; simpl; lia).
    rewrite app_nth2 by lia. rewrite Nat.sub_diag. cbn [nth].
    rewrite app_nth2 by lia. replace (length pre + 1 - length pre)%nat with 1%nat by lia.
    cbn [nth].
    replace (pre ++ g :: p :: interleave l) with ((pre ++ [g; p]) ++ interleave l)
      by (rewrite <- app_assoc; reflexivity).
    replace (length pre + 2)%nat with (length (pre ++ [g; p]))
      by (rewrite length_app; reflexivity).
    rewrite IH by lia. simpl map. rewrite <- app_assoc. reflexivity.
Qed.

Lemma length_split_from m : forall s skip piece,
  (length (ReOps.split_from m s skip piece) >= 1)%nat.
Proof.
  induction s as [|c s IH]; intros skip piece; simpl; [lia|].
  destruct skip; [|apply IH]. destruct (m (c :: s)) as [[gs rest]|]; [simpl; lia | apply IH].
Qed.

(** The questions are the groups of the matches, in order, each with the
    text up to the next match, both stripped. *)
Lemma extract_mcq_questions_eq text :
  exists first l,
    ReOps.split (re_question_number ucd) text = first :: interleave l
    /\ Forall (fun gp => fst gp <> []
                         /\ forallb (PyStr.isdecimal ucd) (fst gp) = true) l
    /\ extract_mcq_questions ucd text
       = map (fun gp => (PyStr.strip ucd (fst gp), PyStr.strip ucd (snd gp))) l.
Proof.
  destruct (split_from_interleave (re_question_number ucd)
              (fun g => g <> [] /\ forallb (PyStr.isdecimal ucd) g = true))
    with (s := text) (skip := 0%nat) (piece := @nil char) as (first & l & E & F).
  { intros s gs rest M. destruct (re_question_number_inv _ _ _ M) as (d & -> & N & D).
    exists d. auto. }
  exists first, l. split; [exact E|]. split; [exact F|].
  unfold extract_mcq_questions. unfold ReOps.split in *. rewrite E.
  change (first :: interleave l) with ([first] ++ interleave l).
  change 1%nat with (length [first]) at 1.
  rewrite fold_add_question; [reflexivity|].
  rewrite length_app. simpl. lia.
Qed.

Lemma lstrip_head c s :
  PyStr.isspace ucd c = false -> PyStr.lstrip ucd (c :: s) = c :: s.
Proof. intros H. simpl. rewrite H. reflexivity. Qed.

Lemma rstrip_last s a :
  PyStr.isspace ucd a = false -> PyStr.rstrip ucd (s ++ [a]) = s ++ [a].
Proof.
  intros H. unfold PyStr.rstrip. rewrite rev_app_distr.
  change (rev [a] ++ rev s) with (a :: rev s).
  rewrite lstrip_head by exact H.
  change (rev (a :: rev s)) with (rev (rev s) ++ [a]).
  rewrite rev_involutive. reflexivity.
Qed.

(** A text that neither begins nor ends with whitespace is its own strip. *)
Lemma strip_no_space_ends s :
  (forall c s', s = c :: s' -> PyStr.isspace ucd c = false) ->
  (forall s' a, s = s' ++ [a] -> PyStr.isspace ucd a = false) ->
  PyStr.strip ucd s = s.
Proof.
  intros Hh Hl. unfold PyStr.strip.
  destruct s as [|c s]; [reflexivity|].
  rewrite lstrip_head by (eapply Hh; reflexivity).
  destruct (exists_last (l := c :: s)) as (s' & a & E); [discriminate|].
  rewrite E. apply rstrip_last. eapply Hl. exact E.
Qed.

Lemma strip_digits d :
  plain_digits ucd -> forallb (PyStr.isdecimal ucd) d = true -> PyStr.strip ucd d = d.
Proof.
  intros H F. rewrite forallb_forall in F. apply strip_no_space_ends.
  - intros c s' ->. apply H, F. left; reflexivity.
  - intros s' a ->. apply H, F. apply in_or_app. right; left; reflexivity.
Qed.

Lemma upper_digits d :
  plain_digits ucd -> forallb (PyStr.isdecimal ucd) d = true -> PyStr.upper ucd d = d.
Proof.
  intros H. unfold PyStr.upper. induction d as [|c d IH]; simpl; auto.
  intros F. apply andb_true_iff in F. destruct F as [Fc Fd].
  destruct (H c Fc) as [_ ->]. rewrite IH by exact Fd. reflexivity.
Qed.
End GeneratorFacts.

(** X9. Every question [extract_mcq_questions] returns has as number the
    stripped digits of one match of the numbering pattern, and the
    questions are as many as half the pieces of the split after the first;
    when digits are not whitespace, each number is a run of decimal digits,
    not empty. *)
Theorem extracted_numbers_are_digits (ucd : UnicodeData) (text : str) :
  let questions := Generator.extract_mcq_questions ucd text in
  Forall (fun q => exists d, fst q = PyStr.strip ucd d /\ d <> []
                             /\ forallb (PyStr.isdecimal ucd) d = true) questions
  /\ length (ReOps.split (Generator.re_question_number ucd) text)
     = (2 * length questions + 1)%nat
  /\ (plain_digits ucd ->
      Forall (fun q => fst q <> [] /\ forallb (PyStr.isdecimal ucd) (fst q) = true)
             questions).
Proof.
  intros questions. subst questions.
  destruct (extract_mcq_questions_eq ucd text) as (first & l & E & F & ->).
  rewrite E. rewrite Forall_forall in F. split; [|split].
  - apply Forall_forall. intros q I. apply in_map_iff in I.
    destruct I as (gp & <- & I). destruct (F _ I) as [N D]. cbn [fst]. eauto.
  - rewrite length_map. simpl. f_equal. unfold interleave.
    clear. induction l as [|gp l IH]; simpl; [reflexivity|]. rewrite IH. lia.
  - intros H. apply Forall_forall. intros q I. apply in_map_iff in I.
    destruct I as ([g p] & <- & I). destruct (F _ I) as [N D]. cbn [fst] in *.
    rewrite (strip_digits ucd _ H D). auto.
Qed.

(** ** From the generator's fallback to the parser *)
Section RoundTrip.
Variable ucd : UnicodeData.
Hypothesis digits : plain_digits ucd.
Import Dict DictFacts ReFacts ScanFacts Generator.

Lemma fold_add_answer questions : forall formatted_answers,
  fold_left add_answer questions formatted_answers
  = formatted_answers ++ map answer_line questions.
Proof.
  induction questions as [|[num t] qs IH]; intros acc; simpl.
  - symmetry; apply app_nil_r.
  - rewrite IH, <- app_assoc. reflexivity.
Qed.

Lemma sample_answer_cases num :
  exists a, get_default num (lit "a") sample_answers = [a]
            /\ (a = 97 \/ a = 98 \/ a = 99 \/ a = 100)%N.
Proof.
  unfold get_default, sample_answers. cbn [get].
  repeat match goal with
         | |- context [str_eqb ?a ?b] => destruct (str_eqb a b)
         end; eexists; (split; [reflexivity|]); vm_compute; tauto.
Qed.


Lemma upper_app a b : PyStr.upper ucd (a ++ b) = PyStr.upper ucd a ++ PyStr.upper ucd b.
Proof. apply flat_map_app. Qed.



Lemma match_line num a rest :
  num <> [] -> forallb (PyStr.isdecimal ucd) num = true -> is_A_to_D a = true ->
  PyStr.isspace ucd a = false ->
  Re.match_at (re_space_separated ucd) (num ++ 32%N :: a :: rest)
  = Some ([num; [a]], rest).
Proof.
  intros N D A S. unfold Re.match_at, re_space_separated. cbn [Re.exec].
  apply many_greedy; [exact N | exact D | |].
  - cbn [Re.many]. change (digit ucd 32%N) with false. reflexivity.
  - cbn [Re.many]. change (space ucd 32%N) with true. cbv iota.
    unfold space at 1. rewrite S, A.
    rewrite firstn_consumed.
    change (a :: rest) with ([a] ++ rest). rewrite firstn_consumed. reflexivity.
Qed.




(** A text of lines that begin and end with a character of [P] does so. *)
Lemma join_ends (P : char -> Prop) sep lines :
  Forall (fun l => exists c mid a, l = c :: mid ++ [a] /\ P c /\ P a) lines ->
  lines <> [] ->
  exists c mid a, join sep lines = c :: mid ++ [a] /\ P c /\ P a.
Proof.
  induction lines as [|x lines IH]; intros F N; [congruence|].
  inversion F as [|? ? (c & mid & a & -> & Pc & Pa) F']; subst.
  destruct lines as [|y lines]; [exists c, mid, a; simpl; auto|].
  destruct (IH F' ltac:(discriminate)) as (c' & mid' & a' & E & _ & Pa').
  change (join sep ((c :: mid ++ [a]) :: y :: lines))
    with ((c :: mid ++ [a]) ++ sep ++ join sep (y :: lines)).
  rewrite E. exists c, (mid ++ [a] ++ sep ++ c' :: mid'), a'.
  split; [|auto].
  repeat (rewrite <- app_assoc || rewrite <- app_comm_cons). reflexivity.
Qed.




Lemma str_eqb_sym a b : str_eqb a b = str_eqb b a.
Proof.
  destruct (str_eqb a b) eqn:E.
  - apply str_eqb_eq in E; subst. symmetry; apply str_eqb_refl.
  - symmetry. apply str_eqb_neq. apply str_eqb_neq in E. congruence.
Qed.


Lemma extract_numbers_valid text :
  Forall (fun q => fst q <> [] /\ forallb (PyStr.isdecimal ucd) (fst q) = true)
         (extract_mcq_questions ucd text).
Proof.
  destruct (extract_mcq_questions_eq ucd text) as (first & l & _ & F & ->).
  rewrite Forall_forall in F. apply Forall_forall. intros q I.
  apply in_map_iff in I. destruct I as ([g p] & <- & I).
  destruct (F _ I) as [N D]. cbn [fst] in *.
  rewrite (strip_digits ucd _ digits D). auto.
Qed.

End RoundTrip.

(** The Latin-1 table has plain digits. *)
Lemma latin1_plain_digits : plain_digits latin1.
Proof.
  intros c D. destruct (N.ltb_spec c 128) as [L|G].
  - pose proof (ascii_cases
                  (fun c => implb (PyStr.isdecimal latin1 c)
                                  (negb (PyStr.isspace latin1 c)
                                   && str_eqb (PyStr.toupper latin1 c) [c]))
                  eq_refl c L) as H.
    cbv beta in H. rewrite D in H. simpl in H.
    apply andb_true_iff in H. destruct H as [S U].
    split; [apply negb_true_iff, S | apply str_eqb_eq, U].
  - unfold PyStr.isdecimal in D.
    replace (N.ltb c 128) with false in D by (symmetry; apply N.ltb_ge; exact G).
    discriminate.
Qed.




(** ** Runs of whitespace *)
Section CleanFacts.
Variable ucd : UnicodeData.
Import Re ReOps Generator.

Lemma match_at_plus p c s :
  match_at (ClassPlus p) (c :: s) = if p c then Some ([], drop_while p s) else None.
Proof.
  unfold match_at. cbn [exec]. revert c.
  induction s as [|c' s IH]; intros c; cbn [many].
  - destruct (p c); reflexivity.
  - destruct (p c); [|reflexivity].
    specialize (IH c'). cbn [many] in IH. rewrite IH.
    cbn [drop_while]. destruct (p c'); reflexivity.
Qed.

Lemma drop_while_suffix p s :
  exists pre, s = pre ++ drop_while p s /\ forallb p pre = true.
Proof.
  induction s as [|c s (pre & E & F)]; simpl.
  - exists []. auto.
  - destruct (p c) eqn:Pc.
    + exists (c :: pre). simpl. rewrite Pc, <- E. auto.
    + exists []. auto.
Qed.

Lemma sub_from_skip m repl s : forall pre,
  sub_from m repl (pre ++ s) (length pre) = sub_from m repl s 0.
Proof. induction pre as [|c pre IH]; simpl; auto. Qed.

(** [re.sub] of [p+], one step. *)
Lemma sub_plus_cons p repl c s :
  sub (match_at (ClassPlus p)) repl (c :: s)
  = if p c then repl ++ sub (match_at (ClassPlus p)) repl (drop_while p s)
    else c :: sub (match_at (ClassPlus p)) repl s.
Proof.
  unfold sub. cbn [sub_from]. rewrite match_at_plus.
  destruct (p c); [|reflexivity]. f_equal.
  destruct (drop_while_suffix p s) as (pre & E & _).
  rewrite E at 1 2. rewrite length_app, Nat.add_sub. apply sub_from_skip.
Qed.

Lemma sub_plus_none p repl s :
  forallb (fun c => negb (p c)) s = true -> sub (match_at (ClassPlus p)) repl s = s.
Proof.
  induction s as [|c s IH]; [reflexivity|]. simpl forallb.
  intros H. apply andb_true_iff in H. destruct H as [Hc Hs].
  rewrite sub_plus_cons. apply negb_true_iff in Hc. rewrite Hc, (IH Hs). reflexivity.
Qed.

Lemma collapse_after_run s : forall pre,
  all_space ucd pre = true -> collapse ucd (pre ++ s) true = collapse ucd s true.
Proof.
  induction pre as [|c pre IH]; simpl; auto.
  destruct (PyStr.isspace ucd c); [exact IH | discriminate].
Qed.

Lemma collapse_at_word s b :
  (forall c s', s = c :: s' -> PyStr.isspace ucd c = false) ->
  collapse ucd s b = collapse ucd s false.
Proof.
  destruct s as [|c s]; [reflexivity|]. intros H. simpl.
  rewrite (H c s eq_refl). reflexivity.
Qed.

Lemma drop_while_head p s c s' : drop_while p s = c :: s' -> p c = false.
Proof.
  induction s as [|x s IH]; simpl; [discriminate|].
  destruct (p x) eqn:Px; [exact IH|]. intros [= <- _]. exact Px.
Qed.

(** Replacing [\s+] by a space collapses the runs of whitespace. *)
Lemma sub_spaces_collapse : forall n s,
  (length s <= n)%nat -> sub (re_spaces ucd) (lit " ") s = collapse ucd s false.
Proof.
  unfold re_spaces.
  induction n as [|n IH]; intros s L.
  - destruct s; [reflexivity | simpl in L; lia].
  - destruct s as [|c s]; [reflexivity|]. rewrite sub_plus_cons. cbn [collapse].
    destruct (PyStr.isspace ucd c).
    + destruct (drop_while_suffix (PyStr.isspace ucd) s) as (pre & E & F).
      rewrite IH.
      * rewrite E at 2. rewrite (collapse_after_run _ pre F).
        rewrite (collapse_at_word _ true); [reflexivity|].
        intros c' s' E'. eapply drop_while_head, E'.
      * simpl in L. rewrite E in L. rewrite length_app in L. lia.
    + rewrite IH by (simpl in L; lia). reflexivity.
Qed.

Lemma collapse_no_newline s : forall b,
  forallb (fun c => negb (N.eqb 10 c)) (collapse ucd s b) = true.
Proof.
  induction s as [|c s IH]; intros b; cbn [collapse]; [reflexivity|].
  destruct (PyStr.isspace ucd c) eqn:S.
  - destruct b; cbn [forallb]; [apply IH|]. rewrite IH. reflexivity.
  - cbn [forallb]. rewrite IH, andb_true_r.
    destruct (N.eqb_spec 10 c) as [<-|]; [vm_compute in S; discriminate | reflexivity].
Qed.

(** *** Words *)

Lemma words_from_not_nil s : forall word,
  word <> [] -> PyStrOps.words_from ucd s word <> [].
Proof.
  induction s as [|c s IH]; intros word N; simpl.
  - destruct word; [congruence | discriminate].
  - destruct (PyStr.isspace ucd c).
    + destruct word; [congruence | discriminate].
    + apply IH. destruct word; discriminate.
Qed.

Lemma is_word_snoc word c :
  (word = [] \/ is_word ucd word = true) -> PyStr.isspace ucd c = false ->
  is_word ucd (word ++ [c]) = true.
Proof.
  unfold is_word. intros H S. rewrite forallb_app. simpl. rewrite S. simpl.
  destruct H as [->|H]; [reflexivity|].
  apply andb_true_iff in H. destruct H as [_ ->].
  destruct word; reflexivity.
Qed.

Lemma words_from_words s : forall word,
  (word = [] \/ is_word ucd word = true) ->
  forallb (is_word ucd) (PyStrOps.words_from ucd s word) = true.
Proof.
  induction s as [|c s IH]; intros word H; simpl.
  - destruct H as [->|H]; [reflexivity|].
    destruct word; [discriminate|]. simpl. rewrite H. reflexivity.
  - destruct (PyStr.isspace ucd c) eqn:S.
    + destruct H as [->|H]; [apply IH; auto|].
      destruct word; [discriminate|]. simpl. rewrite H. apply IH; auto.
    + apply IH. right. apply is_word_snoc; assumption.
Qed.

(** The collapsed text is the words joined by single spaces, with a space
    after them when the text ends with whitespace. *)
Lemma collapse_words s :
  (forall word, word <> [] ->
     exists trail, (trail = [] \/ trail = [32%N])
       /\ word ++ collapse ucd s false
          = join (lit " ") (PyStrOps.words_from ucd s word) ++ trail)
  /\ (exists trail, (trail = [] \/ trail = [32%N])
       /\ collapse ucd s true
          = join (lit " ") (PyStrOps.words_from ucd s []) ++ trail
       /\ (PyStrOps.words_from ucd s [] = [] -> collapse ucd s true = [])).
Proof.
  induction s as [|c s [IH1 IH2]]; split.
  - intros word N. exists []. split; [auto|].
    simpl. rewrite (nonempty_is_empty word N). simpl. reflexivity.
  - exists []. simpl. auto.
  - intros word N. simpl. destruct (PyStr.isspace ucd c) eqn:S.
    + rewrite (nonempty_is_empty word N).
      destruct IH2 as (trail & T & E & Z).
      destruct (PyStrOps.words_from ucd s []) as [|w ws] eqn:W.
      * exists [32%N]. split; [auto|]. rewrite (Z eq_refl). reflexivity.
      * exists trail. split; [exact T|]. rewrite E.
        change (join (lit " ") (word :: w :: ws))
          with (word ++ lit " " ++ join (lit " ") (w :: ws)).
        rewrite <- !app_assoc. reflexivity.
    + destruct (IH1 (word ++ [c])) as (trail & T & E); [destruct word; discriminate|].
      exists trail. split; [exact T|]. rewrite <- E, <- app_assoc. reflexivity.
  - simpl. destruct (PyStr.isspace ucd c) eqn:S; [exact IH2|].
    destruct (IH1 [c]) as (trail & T & E); [discriminate|].
    exists trail. split; [exact T|]. split; [exact E|].
    intros W. exfalso. revert W. apply words_from_not_nil. discriminate.
Qed.

Lemma last_join sep lines : forall x,
  forallb (is_word ucd) (x :: lines) = true ->
  exists front a, join sep (x :: lines) = front ++ [a] /\ PyStr.isspace ucd a = false.
Proof.
  induction lines as [|y lines IH]; intros x H; simpl in H.
  - apply andb_true_iff in H. destruct H as [H _]. unfold is_word in H.
    apply andb_true_iff in H. destruct H as [N F].
    destruct (exists_last (l := x)) as (front & a & ->); [destruct x; discriminate|].
    exists front, a. split; [reflexivity|].
    rewrite forallb_app in F. simpl in F. rewrite andb_true_r in F.
    apply andb_true_iff in F. destruct F as [_ F]. apply negb_true_iff, F.
  - apply andb_true_iff in H. destruct H as [_ H].
    destruct (IH y H) as (front & a & E & S).
    exists (x ++ sep ++ front), a. split; [|exact S].
    change (join sep (x :: y :: lines)) with (x ++ sep ++ join sep (y :: lines)).
    rewrite E, <- !app_assoc. reflexivity.
Qed.

(** Words joined by single spaces are their own strip. *)
Lemma strip_join_words ws :
  forallb (is_word ucd) ws = true ->
  PyStr.strip ucd (join (lit " ") ws) = join (lit " ") ws.
Proof.
  intros H. destruct ws as [|w ws]; [reflexivity|].
  apply strip_no_space_ends.
  - intros c s' E.
    simpl in H. apply andb_true_iff in H. destruct H as [Hw _].
    unfold is_word in Hw. apply andb_true_iff in Hw. destruct Hw as [N F].
    destruct w as [|c' w]; [discriminate|].
    assert (c = c') as -> by (destruct ws; cbn [join app] in E; congruence).
    simpl in F. apply andb_true_iff in F. destruct F as [F _]. apply negb_true_iff, F.
  - intros s' a E. destruct (last_join (lit " ") ws w H) as (front & a' & E' & S).
    rewrite E in E'. apply app_inj_tail in E'. destruct E' as [_ ->]. exact S.
Qed.

Lemma trail_space trail : trail = [] \/ trail = [32%N] -> all_space ucd trail = true.
Proof. intros [->| ->]; reflexivity. Qed.

(** [clean_text] gives the words of the text, joined by single spaces. *)
Lemma clean_text_words text :
  ReOps.sub (re_newlines) [10%N] (ReOps.sub (re_spaces ucd) (lit " ") text)
  = ReOps.sub (re_spaces ucd) (lit " ") text
  /\ clean_text ucd text = join (lit " ") (PyStrOps.split_whitespace ucd text).
Proof.
  assert (ReOps.sub (re_newlines) [10%N] (ReOps.sub (re_spaces ucd) (lit " ") text)
          = ReOps.sub (re_spaces ucd) (lit " ") text) as E.
  { rewrite (sub_spaces_collapse (length text) text (le_n _)).
    apply sub_plus_none, collapse_no_newline. }
  split; [exact E|].
  unfold clean_text. rewrite E, (sub_spaces_collapse (length text) text (le_n _)).
  unfold PyStrOps.split_whitespace.
  pose proof (words_from_words text [] (or_introl eq_refl)) as V.
  destruct text as [|c s]; [reflexivity|].
  destruct (collapse_words s) as [C1 C2].
  simpl. destruct (PyStr.isspace ucd c) eqn:S.
  - destruct C2 as (trail & T & -> & _).
    simpl in V. rewrite S in V. simpl in V.
    change (32%N :: join (lit " ") (PyStrOps.words_from ucd s []) ++ trail)
      with ([32%N] ++ join (lit " ") (PyStrOps.words_from ucd s []) ++ trail).
    rewrite strip_padded by (try reflexivity; apply trail_space, T).
    apply strip_join_words, V.
  - destruct (C1 [c]) as (trail & T & E'); [discriminate|].
    simpl in V. rewrite S in V. simpl in V.
    change (c :: collapse ucd s false) with ([c] ++ collapse ucd s false).
    rewrite E'.
    rewrite <- (app_nil_l (join _ _ ++ trail)).
    rewrite strip_padded by (try reflexivity; apply trail_space, T).
    apply strip_join_words, V.
Qed.

(** The words of words joined by single spaces are the words. *)
Lemma words_from_word w : forall s word,
  forallb (fun c => negb (PyStr.isspace ucd c)) w = true ->
  PyStrOps.words_from ucd (w ++ s) word = PyStrOps.words_from ucd s (word ++ w).
Proof.
  induction w as [|c w IH]; intros s word F; simpl.
  - rewrite app_nil_r. reflexivity.
  - simpl in F. apply andb_true_iff in F. destruct F as [Fc Fw].
    apply negb_true_iff in Fc. rewrite Fc, IH by exact Fw.
    rewrite <- app_assoc. reflexivity.
Qed.

Lemma split_join_words ws :
  forallb (is_word ucd) ws = true ->
  PyStrOps.split_whitespace ucd (join (lit " ") ws) = ws.
Proof.
  unfold PyStrOps.split_whitespace.
  induction ws as [|w ws IH]; intros H; [reflexivity|].
  simpl in H. apply andb_true_iff in H. destruct H as [Hw Hs].
  unfold is_word in Hw. apply andb_true_iff in Hw. destruct Hw as [N F].
  destruct ws as [|w' ws].
  - simpl join. rewrite <- (app_nil_r w) at 1. rewrite words_from_word by exact F.
    simpl. destruct w; [discriminate | reflexivity].
  - change (join (lit " ") (w :: w' :: ws))
      with (w ++ 32%N :: join (lit " ") (w' :: ws)).
    rewrite words_from_word by exact F. cbn [PyStrOps.words_from app].
    change (PyStr.isspace ucd 32%N) with true. cbv iota.
    destruct w; [discriminate|]. cbn [PyStr.is_empty]. rewrite (IH Hs). reflexivity.
Qed.
End CleanFacts.

(** X11. [clean_text] returns the words of the text, the stretches
    between its runs of whitespace, joined by single spaces; its second
    substitution, of runs of newlines, never changes the text it gets;
    and cleaning a cleaned text changes nothing. *)
Theorem clean_text_normal_form (ucd : UnicodeData) (text : str) :
  Generator.clean_text ucd text
  = join (lit " ") (PyStrOps.split_whitespace ucd text)
  /\ ReOps.sub Generator.re_newlines [10%N]
               (ReOps.sub (Generator.re_spaces ucd) (lit " ") text)
     = ReOps.sub (Generator.re_spaces ucd) (lit " ") text
  /\ forallb (is_word ucd) (PyStrOps.split_whitespace ucd text) = true
  /\ Generator.clean_text ucd (Generator.clean_text ucd text)
     = Generator.clean_text ucd text.
Proof.
  destruct (clean_text_words ucd text) as [E C].
  pose proof (words_from_words ucd text [] (or_introl eq_refl)) as V.
  fold (PyStrOps.split_whitespace ucd text) in V.
  split; [exact C|]. split; [exact E|]. split; [exact V|].
  destruct (clean_text_words ucd (Generator.clean_text ucd text)) as [_ C'].
  rewrite C', C, (split_join_words ucd _ V). reflexivity.
Qed.

(** ** The sibling parsers *)
Section SiblingFacts.
Variable ucd : UnicodeData.
Variable ucd_isdigit : char -> bool.
Import Dict DictFacts ReFacts.

(** The loop over [range(0, len(parts), 2)] visits the words two by two. *)
Lemma fold_range2_pairs (f : dict str -> str * str -> dict str)
      (store : list str -> dict str -> nat -> dict str) :
  (forall parts answers i,
      store parts answers i
      = if i + 1 <? length parts
        then f answers (nth i parts [], nth (i + 1) parts [])
        else answers) ->
  forall fuel rest pre answers,
    (length rest <= 2 * fuel)%nat ->
    fold_left (store (pre ++ rest))
              (range2 (length pre) (length (pre ++ rest)) fuel) answers
    = fold_left f (pairs_of rest) answers.
Proof.
  intros Hs. induction fuel as [|fuel IH]; intros rest pre answers L.
  - destruct rest; [reflexivity | simpl in L; lia].
  - cbn [range2]. rewrite length_app.
    destruct rest as [|a [|b rest]].
    + simpl. replace (length pre <? length pre + 0) with false; [reflexivity|].
      symmetry. apply Nat.ltb_ge. lia.
    + replace (length pre <? length pre + length [a]) with true
        by (symmetry; apply Nat.ltb_lt; simpl; lia).
      cbn [fold_left pairs_of]. rewrite Hs.
      replace (length pre + 1 <? length (pre ++ [a])) with false
        by (symmetry; apply Nat.ltb_ge; rewrite length_app; simpl; lia).
      assert (range2 (length pre + 2) (length pre + length [a]) fuel = []) as ->;
        [|reflexivity].
      destruct fuel; [reflexivity|]. cbn [range2].
      replace (length pre + 2 <? length pre + length [a]) with false; [reflexivity|].
      symmetry; apply Nat.ltb_ge; simpl; lia.
    + replace (length pre <? length pre + length (a :: b :: rest)) with true
        by (symmetry; apply Nat.ltb_lt; simpl; lia).
      cbn [fold_left pairs_of]. rewrite Hs.
      replace (length pre + 1 <? length (pre ++ a :: b :: rest)) with true
        by (symmetry; apply Nat.ltb_lt; rewrite length_app; simpl; lia).
      rewrite app_nth2 by lia. rewrite Nat.sub_diag. cbn [nth].
      rewrite app_nth2 by lia.
      replace (length pre + 1 - length pre)%nat with 1%nat by lia. cbn [nth].
      specialize (IH rest (pre ++ [a; b])).
      rewrite <- app_assoc in IH. cbn [app] in IH.
      rewrite length_app in IH. cbn [length] in IH.
      rewrite <- IH by (simpl in L; lia).
      rewrite length_app. reflexivity.
Qed.

Lemma fold_pairs (f : dict str -> str * str -> dict str)
      (store : list str -> dict str -> nat -> dict str) parts answers :
  (forall parts answers i,
      store parts answers i
      = if i + 1 <? length parts
        then f answers (nth i parts [], nth (i + 1) parts [])
        else answers) ->
  fold_left (store parts) (range2 0 (length parts) (length parts)) answers
  = fold_left f (pairs_of parts) answers.
Proof.
  intros Hs. apply (fold_range2_pairs f store Hs (length parts) parts []). lia.
Qed.

Lemma fold_filter_pairs (ok : str * str -> bool) ps : forall answers : dict str,
  fold_left (fun d p => if ok p then set_pair d p else d) ps answers
  = fold_left set_pair (filter ok ps) answers.
Proof.
  induction ps as [|p ps IH]; intros answers; simpl; [reflexivity|].
  destruct (ok p); simpl; apply IH.
Qed.

(** [exact_mcq_comparison.py]: the dictionary is the pairs stored in turn. *)
Lemma exact_parse_pairs dict_repr answer_text :
  snd (Exact.parse_answer_text ucd dict_repr answer_text)
  = fold_left set_pair (exact_pairs ucd answer_text) [].
Proof.
  unfold Exact.parse_answer_text, exact_pairs.
  destruct answer_text as [|c t]; [reflexivity|].
  cbn [PyStr.is_empty snd]. rewrite fold_store_match.
  fold (adjacent_pairs ucd (PyStr.upper ucd (c :: t))).
  unfold empty. rewrite fold_set_pair_is_empty.
  destruct (adjacent_pairs ucd (PyStr.upper ucd (c :: t))) as [|p ps]; [|reflexivity].
  cbn [fold_left]. unfold word_pairs.
  apply (fold_pairs set_pair). reflexivity.
Qed.



Lemma comparison_store_line answers line :
  Comparison.store_line ucd answers line
  = fold_left set_pair (comparison_line_pair ucd line) answers.
Proof.
  unfold Comparison.store_line, comparison_line_pair.
  destruct (PyStr.upper ucd (PyStr.strip ucd line)) as [|c t] eqn:E.
  - reflexivity.
  - cbn [PyStr.is_empty negb].
    destruct (ReLine.match_ _ _); [reflexivity|].
    destruct (Re.search (re_q_no ucd) _); [|reflexivity].
    destruct (Re.search re_option _); reflexivity.
Qed.

Lemma comparison_fold_store_line lines : forall answers,
  fold_left (Comparison.store_line ucd) lines answers
  = fold_left set_pair (flat_map (comparison_line_pair ucd) lines) answers.
Proof.
  induction lines as [|l lines IH]; intros answers; [reflexivity|].
  cbn [fold_left flat_map]. rewrite fold_left_app, IH, comparison_store_line. reflexivity.
Qed.

(** [mcq_comparison.py]: the dictionary is the pairs stored in turn. *)
Lemma comparison_parse_pairs answer_text :
  Comparison.parse_answer_text ucd ucd_isdigit answer_text
  = fold_left set_pair (comparison_pairs ucd ucd_isdigit answer_text) [].
Proof.
  unfold Comparison.parse_answer_text, comparison_pairs.
  destruct answer_text as [|c t]; [reflexivity|].
  cbn [PyStr.is_empty].
  assert ((if PyStr.contains 10%N (c :: t)
           then fold_left (Comparison.store_line ucd) (PyStr.split 10%N (c :: t)) empty
           else empty)
          = fold_left set_pair
              (if PyStr.contains 10%N (c :: t)
               then flat_map (comparison_line_pair ucd) (PyStr.split 10%N (c :: t))
               else []) []) as ->.
  { destruct (PyStr.contains 10%N (c :: t)); [apply comparison_fold_store_line | reflexivity]. }
  rewrite fold_set_pair_is_empty.
  destruct (if PyStr.contains 10%N (c :: t) then _ else _) as [|p ps]; [|reflexivity].
  cbn [fold_left]. unfold word_pairs.
  rewrite (fold_pairs (fun d p => if checked_pair ucd_isdigit p then set_pair d p else d)).
  - apply fold_filter_pairs.
  - intros parts answers i. unfold Comparison.store_pair, checked_pair, set_pair.
    cbn [fst snd].
    destruct (i + 1 <? length parts); [|reflexivity].
    destruct (Comparison.isdigit _ _); [|reflexivity].
    destruct (existsb _ _); reflexivity.
Qed.



Lemma pairs_of_words (P : str -> Prop) parts :
  Forall P parts -> Forall (fun p => P (fst p) /\ P (snd p)) (pairs_of parts).
Proof.
  revert parts. fix IH 1. intros [|a [|b rest]] F; try constructor.
  - inversion F as [|? ? Pa F']; subst. inversion F' as [|? ? Pb F'']; subst. auto.
  - inversion F as [|? ? Pa F']; subst. inversion F' as [|? ? Pb F'']; subst.
    apply IH, F''.
Qed.
End SiblingFacts.


(** ** The sibling scorers *)
Section SiblingScores.
Import Dict DictFacts.
Local Open Scope Z_scope.

Lemma fold_count_answer (student_answers : dict str) items : forall sc,
  fold_left (count_answer student_answers) items sc
  = sc + Z.of_nat (length (filter (is_match student_answers) items)).
Proof.
  induction items as [|[q c] items IH]; intros sc; [simpl; lia|].
  cbn [fold_left filter]. rewrite IH. unfold count_answer, is_match. cbn [fst snd].
  destruct (opt_eqb _ _); cbn [length]; lia.
Qed.

Lemma comparison_evaluate_eq ucd ucd_isdigit model_text student_text :
  Comparison.evaluate_mcq ucd ucd_isdigit model_text student_text
  = score_of (Comparison.parse_answer_text ucd ucd_isdigit model_text)
             (Comparison.parse_answer_text ucd ucd_isdigit student_text).
Proof. unfold Comparison.evaluate_mcq, items. rewrite fold_count_answer. reflexivity. Qed.

Lemma exact_evaluate_eq ucd dict_repr model_text student_text :
  Exact.evaluate_mcq ucd dict_repr model_text student_text
  = (fst (Exact.parse_answer_text ucd dict_repr model_text)
     ++ fst (Exact.parse_answer_text ucd dict_repr student_text),
     score_of (snd (Exact.parse_answer_text ucd dict_repr model_text))
              (snd (Exact.parse_answer_text ucd dict_repr student_text))).
Proof.
  unfold Exact.evaluate_mcq, items.
  destruct (Exact.parse_answer_text ucd dict_repr model_text) as [pm m].
  destruct (Exact.parse_answer_text ucd dict_repr student_text) as [ps s].
  rewrite fold_count_answer. reflexivity.
Qed.

(** The score of dictionaries without repeated keys. *)
Lemma score_of_spec (m s : dict str) :
  NoDup (keys m) -> NoDup (keys s) ->
  0 <= fst (score_of m s) <= snd (score_of m s)
  /\ fst (score_of m s) <= len s
  /\ fst (score_of m s) = fst (score_of s m)
  /\ score_of m m = (len m, len m).
Proof.
  intros Nm Ns. unfold score_of, len. cbn [fst snd].
  pose proof (filter_length_le (is_match s) m).
  pose proof (filter_length_le (is_match m) s).
  pose proof (matches_symmetric m s Nm Ns) as E.
  rewrite (filter_is_match_self m Nm).
  split; [lia|]. split; [lia|]. split; [lia | reflexivity].
Qed.
End SiblingScores.

(** X13. The three scripts score alike, each with its own parser: the
    score is the number of the model's entries that the student's
    dictionary has with the same option, the total the number of the
    model's entries. For the two siblings as for the JSON script, the
    score lies between 0 and the total, is at most the number of the
    student's entries, is the same with the two texts exchanged, and a text
    scored against itself gets the total. *)
Theorem sibling_scores
        (ucd : UnicodeData) (ucd_isdigit : char -> bool)
        (dict_repr : Dict.dict str -> str) (model_text student_text : str) :
  let c := Comparison.parse_answer_text ucd ucd_isdigit in
  let e := fun t => snd (Exact.parse_answer_text ucd dict_repr t) in
  let j := parse_answer_text ucd in
  Comparison.evaluate_mcq ucd ucd_isdigit model_text student_text
  = score_of (c model_text) (c student_text)
  /\ snd (Exact.evaluate_mcq ucd dict_repr model_text student_text)
     = score_of (e model_text) (e student_text)
  /\ (exists r, evaluate_mcq ucd model_text student_text = Return r
                /\ (score r, total r) = score_of (j model_text) (j student_text))
  /\ (forall parse : str -> Dict.dict str,
         parse = c \/ parse = e \/ parse = j ->
         let '(sc, tot) := score_of (parse model_text) (parse student_text) in
         (0 <= sc <= tot)%Z
         /\ (sc <= Dict.len (parse student_text))%Z
         /\ sc = fst (score_of (parse student_text) (parse model_text))
         /\ score_of (parse model_text) (parse model_text) = (tot, tot)).
Proof.
  intros c e j. split; [|split; [|split]].
  - apply comparison_evaluate_eq.
  - rewrite exact_evaluate_eq. reflexivity.
  - destruct (evaluate_mcq_returns ucd model_text student_text) as (p & E & _).
    eexists. split; [exact E|]. reflexivity.
  - intros parse P.
    assert (forall t, NoDup (Dict.keys (parse t))) as N.
    { intros t. destruct P as [->|[->| ->]].
      - subst c. cbv beta. rewrite comparison_parse_pairs.
        apply NoDup_keys_fold_set_pair. constructor.
      - subst e. cbv beta. rewrite exact_parse_pairs.
        apply NoDup_keys_fold_set_pair. constructor.
      - apply NoDup_keys_parse. }
    destruct (score_of_spec (parse model_text) (parse student_text) (N _) (N _))
      as (R & S & Y & F).
    destruct (score_of (parse model_text) (parse student_text)) as [sc tot] eqn:E.
    cbn [fst snd] in *. split; [exact R|]. split; [exact S|]. split; [exact Y|].
    rewrite F. unfold score_of in E. injection E as _ <-. reflexivity.
Qed.

(** ** Answer sheets *)
Section SheetFacts.
Variable ucd : UnicodeData.
Hypothesis digits : plain_digits ucd.
Import Dict DictFacts ReFacts ScanFacts.

Lemma option_letter_ascii o : option_letter o = true -> (o < 128)%N.
Proof.
  unfold option_letter, ascii_upper, is_A_to_D. intros H.
  destruct (N.ltb_spec o 128) as [L|G]; [exact L|]. exfalso.
  replace (N.leb o 122) with false in H by (symmetry; apply N.leb_gt; lia).
  rewrite andb_false_r in H.
  replace (N.leb o 68) with false in H by (symmetry; apply N.leb_gt; lia).
  rewrite andb_false_r in H. discriminate.
Qed.

(** What the scripts see of an option letter. *)
Lemma option_letter_facts o :
  option_letter o = true ->
  is_A_to_D (ascii_upper o) = true
  /\ PyStr.toupper ucd o = [ascii_upper o]
  /\ PyStr.isdecimal ucd (ascii_upper o) = false
  /\ PyStr.isspace ucd (ascii_upper o) = false
  /\ PyStr.isspace ucd o = false
  /\ PyStr.isdecimal ucd o = false
  /\ N.eqb o 10 = false
  /\ (ascii_upper o < 128)%N
  /\ (N.leb 48 (ascii_upper o) && N.leb (ascii_upper o) 57 = false)
  /\ existsb (str_eqb [ascii_upper o]) [lit "A"; lit "B"; lit "C"; lit "D"] = true.
Proof.
  intros H. pose proof (option_letter_ascii o H) as L.
  pose proof (ascii_cases
                (fun o => implb (option_letter o)
                   (is_A_to_D (ascii_upper o)
                    && str_eqb (PyStr.toupper ucd o) [ascii_upper o]
                    && negb (PyStr.isdecimal ucd (ascii_upper o))
                    && negb (PyStr.isspace ucd (ascii_upper o))
                    && negb (PyStr.isspace ucd o)
                    && negb (PyStr.isdecimal ucd o)
                    && negb (N.eqb o 10)
                    && N.ltb (ascii_upper o) 128
                    && negb (N.leb 48 (ascii_upper o) && N.leb (ascii_upper o) 57)
                    && existsb (str_eqb [ascii_upper o])
                               [lit "A"; lit "B"; lit "C"; lit "D"]))
                eq_refl o L) as C.
  cbv beta in C. rewrite H in C. cbn [implb] in C.
  repeat (apply andb_true_iff in C; destruct C as [C ?]).
  repeat match goal with
         | X : negb _ = true |- _ => apply negb_true_iff in X
         end.
  repeat split; try assumption.
  - apply str_eqb_eq. assumption.
  - apply N.ltb_lt. assumption.
Qed.

Lemma separator_facts (sep : char) :
  sep = 10%N \/ sep = 32%N ->
  PyStr.isdecimal ucd sep = false /\ PyStr.isspace ucd sep = true
  /\ is_A_to_D sep = false /\ PyStr.toupper ucd sep = [sep].
Proof. intros [->| ->]; repeat split. Qed.

(** *** Texts where a pattern finds nothing *)

Lemma free_of_tail P Q c s : free_of P Q (c :: s) = true -> free_of P Q s = true.
Proof. cbn [free_of]. intros H. apply andb_true_iff in H. apply H. Qed.

Lemma free_of_run P Q a rest : forall p1,
  p1 <> [] -> forallb P p1 = true -> free_of P Q (p1 ++ a :: rest) = true -> Q a = false.
Proof.
  induction p1 as [|d p1 IH]; intros N F H; [congruence|].
  cbn [forallb] in F. apply andb_true_iff in F. destruct F as [Pd F].
  destruct p1 as [|d' p1].
  - cbn [app free_of] in H. rewrite Pd in H. cbn [andb] in H.
    apply andb_true_iff in H. destruct H as [H _]. apply negb_true_iff, H.
  - apply IH; [discriminate | exact F |].
    change ((d :: d' :: p1) ++ a :: rest) with (d :: (d' :: p1) ++ a :: rest) in H.
    apply (free_of_tail _ _ _ _ H).
Qed.

Lemma no_space_separated s :
  free_of (digit ucd) (space ucd) s = true ->
  Re.match_at (re_space_separated ucd) s = None.
Proof.
  intros F. destruct (Re.match_at _ s) as [[m rest]|] eqn:M; [|reflexivity]. exfalso.
  apply match_at_sound in M. destruct M as (pre & -> & D).
  simpl in D.
  destruct D as (p1 & p2 & g1 & g2 & -> & _ & (g & _ & Nd & Fd & _) & D).
  destruct D as (p3 & p4 & g3 & g4 & -> & _ & (N3 & F3 & _) & _).
  destruct p3 as [|a p3]; [congruence|].
  cbn [forallb] in F3. apply andb_true_iff in F3. destruct F3 as [Sa _].
  rewrite <- !app_assoc in F. cbn [app] in F.
  rewrite (free_of_run _ _ _ _ p1 Nd Fd F) in Sa. discriminate.
Qed.

Lemma no_adjacent s :
  free_of (digit ucd) is_A_to_D s = true ->
  Re.match_at (re_adjacent_pairs ucd) s = None.
Proof.
  intros F. destruct (Re.match_at _ s) as [[m rest]|] eqn:M; [|reflexivity]. exfalso.
  apply match_at_sound in M. destruct M as (pre & -> & D).
  simpl in D.
  destruct D as (p1 & p2 & g1 & g2 & -> & _ & (g & _ & Nd & Fd & _) & D).
  destruct D as (g' & _ & c & -> & Pc & _).
  rewrite <- !app_assoc in F. cbn [app] in F.
  rewrite (free_of_run _ _ _ _ p1 Nd Fd F) in Pc. discriminate.
Qed.

Lemma finditer_free r P Q :
  (forall s, free_of P Q s = true -> Re.match_at r s = None) ->
  forall s, free_of P Q s = true -> Re.finditer r s = [].
Proof.
  intros H. unfold Re.finditer. induction s as [|c s IH]; intros F; [reflexivity|].
  rewrite finditer_no_match by (apply H, F).
  apply IH. apply (free_of_tail _ _ _ _ F).
Qed.

(** A run of characters that [Q] rejects, before a text that is free and
    does not begin with a character of [Q], leaves it free. *)
Lemma free_of_after_run P Q tail : forall run,
  forallb (fun c => negb (Q c)) run = true ->
  match tail with a :: _ => Q a = false | [] => True end ->
  free_of P Q tail = true ->
  free_of P Q (run ++ tail) = true.
Proof.
  induction run as [|d run IH]; intros F T H; [exact H|].
  cbn [forallb] in F. apply andb_true_iff in F. destruct F as [Qd F].
  cbn [app free_of]. rewrite (IH F T H), andb_true_r.
  apply negb_true_iff, andb_false_iff. right.
  destruct run as [|d' run].
  - cbn [app]. destruct tail; [reflexivity | exact T].
  - cbn [app]. cbn [forallb] in F. apply andb_true_iff in F.
    apply negb_true_iff, F.
Qed.

Lemma free_of_cons_other P Q c s :
  P c = false -> free_of P Q s = true -> free_of P Q (c :: s) = true.
Proof. intros Pc H. cbn [free_of]. rewrite Pc, H. reflexivity. Qed.

(** *** Sheets in upper case *)

Lemma sheet_answer_facts a :
  sheet_answer ucd a = true ->
  fst a <> [] /\ forallb (PyStr.isdecimal ucd) (fst a) = true
  /\ option_letter (snd a) = true.
Proof.
  unfold sheet_answer. intros H.
  apply andb_true_iff in H. destruct H as [H O].
  apply andb_true_iff in H. destruct H as [N D].
  split; [|auto]. destruct (fst a); [discriminate | discriminate].
Qed.

Lemma upper_join sep ls :
  PyStr.upper ucd (join sep ls) = join (PyStr.upper ucd sep) (map (PyStr.upper ucd) ls).
Proof.
  induction ls as [|x [|y ls] IH]; [reflexivity | reflexivity |].
  change (join sep (x :: y :: ls)) with (x ++ sep ++ join sep (y :: ls)).
  rewrite !upper_app, IH. reflexivity.
Qed.

Lemma upper_sheet_line (gap : str) a :
  sheet_answer ucd a = true -> gap = [] \/ gap = [32%N] ->
  PyStr.upper ucd (sheet_line gap a) = sheet_line gap (upper_answer a).
Proof.
  intros A G. destruct (sheet_answer_facts a A) as (_ & D & O).
  destruct (option_letter_facts (snd a) O) as (_ & U & _).
  unfold sheet_line, upper_answer. cbn [fst snd].
  rewrite !upper_app, (upper_digits ucd _ digits D).
  unfold PyStr.upper at 2. cbn [flat_map]. rewrite U, app_nil_r.
  destruct G as [->| ->]; reflexivity.
Qed.

Lemma upper_sheet (gap : str) (sep : char) l :
  forallb (sheet_answer ucd) l = true ->
  gap = [] \/ gap = [32%N] -> sep = 10%N \/ sep = 32%N ->
  PyStr.upper ucd (sheet gap sep l) = sheet gap sep (map upper_answer l).
Proof.
  intros A G S. unfold sheet. rewrite upper_join, !map_map.
  f_equal; [destruct S as [E|E]; rewrite E; reflexivity|].
  apply map_ext_in. intros a I.
  rewrite forallb_forall in A. apply upper_sheet_line; auto.
Qed.

(** *** What the patterns find on a sheet *)

Lemma finditer_sheet r (gap : str) (sep : char) l :
  (forall a rest, sheet_answer ucd a = true ->
     Re.match_at r (sheet_line gap (upper_answer a) ++ rest)
     = Some ([fst a; [ascii_upper (snd a)]], rest)) ->
  (forall rest, Re.match_at r (sep :: rest) = None) ->
  forallb (sheet_answer ucd) l = true ->
  Re.finditer r (sheet gap sep (map upper_answer l))
  = map (fun a => [fst a; [ascii_upper (snd a)]]) l.
Proof.
  intros Hm Hs. unfold Re.finditer, sheet.
  induction l as [|a l IH]; intros F; [reflexivity|].
  cbn [forallb] in F. apply andb_true_iff in F. destruct F as [A F].
  specialize (IH F). destruct (sheet_answer_facts a A) as (N & _ & _).
  assert (sheet_line gap (upper_answer a) <> []) as NE.
  { unfold sheet_line. cbn [upper_answer fst]. destruct (fst a); [congruence | discriminate]. }
  destruct l as [|b l].
  - cbn [map join].
    rewrite <- (app_nil_r (sheet_line gap (upper_answer a))).
    rewrite (finditer_match _ _ [] _ NE (Hm a [] A)). reflexivity.
  - change (join [sep] (map (sheet_line gap) (map upper_answer (a :: b :: l))))
      with (sheet_line gap (upper_answer a)
            ++ sep :: join [sep] (map (sheet_line gap) (map upper_answer (b :: l)))).
    rewrite (finditer_match _ _ _ _ NE (Hm a _ A)).
    rewrite finditer_no_match by apply Hs.
    rewrite IH. reflexivity.
Qed.

Lemma match_spaced a rest :
  sheet_answer ucd a = true ->
  Re.match_at (re_space_separated ucd) (sheet_line [32%N] (upper_answer a) ++ rest)
  = Some ([fst a; [ascii_upper (snd a)]], rest).
Proof.
  intros A. destruct (sheet_answer_facts a A) as (N & D & O).
  destruct (option_letter_facts (snd a) O) as (AD & _ & _ & S & _).
  unfold sheet_line. cbn [upper_answer fst snd].
  rewrite <- !app_assoc. apply match_line; assumption.
Qed.

Lemma match_adjacent a rest :
  sheet_answer ucd a = true ->
  Re.match_at (re_adjacent_pairs ucd) (sheet_line [] (upper_answer a) ++ rest)
  = Some ([fst a; [ascii_upper (snd a)]], rest).
Proof.
  intros A. destruct (sheet_answer_facts a A) as (N & D & O).
  destruct (option_letter_facts (snd a) O) as (AD & _ & ND & _).
  unfold sheet_line. cbn [upper_answer fst snd app].
  rewrite <- !app_assoc. cbn [app].
  unfold Re.match_at, re_adjacent_pairs. cbn [Re.exec].
  apply many_greedy; [exact N | exact D | |].
  - cbn [Re.many]. unfold digit. rewrite ND. reflexivity.
  - rewrite AD. rewrite firstn_consumed.
    change (ascii_upper (snd a) :: rest) with ([ascii_upper (snd a)] ++ rest).
    rewrite firstn_consumed. reflexivity.
Qed.

Lemma no_match_at_separator r (sep : char) rest :
  sep = 10%N \/ sep = 32%N ->
  r = re_space_separated ucd \/ r = re_adjacent_pairs ucd ->
  Re.match_at r (sep :: rest) = None.
Proof.
  intros S [->| ->]; unfold Re.match_at, re_space_separated, re_adjacent_pairs;
    cbn [Re.exec Re.many]; destruct S as [->| ->]; reflexivity.
Qed.

(** *** What the patterns do not find on a sheet *)

Lemma free_of_others P Q y : forall x,
  forallb (fun c => negb (P c)) x = true -> free_of P Q y = true ->
  free_of P Q (x ++ y) = true.
Proof.
  induction x as [|c x IH]; intros F H; [exact H|].
  cbn [forallb] in F. apply andb_true_iff in F. destruct F as [Pc F].
  cbn [app]. apply free_of_cons_other; [apply negb_true_iff, Pc | apply IH; assumption].
Qed.

Lemma free_sheet Q (gap : str) (sep : char) l :
  (forall c, PyStr.isdecimal ucd c = true -> Q c = false) ->
  (forall a, sheet_answer ucd a = true ->
     match gap ++ [ascii_upper (snd a)] with c :: _ => Q c = false | [] => True end) ->
  forallb (fun c => negb (PyStr.isdecimal ucd c)) gap = true ->
  PyStr.isdecimal ucd sep = false ->
  forallb (sheet_answer ucd) l = true ->
  free_of (digit ucd) Q (sheet gap sep (map upper_answer l)) = true.
Proof.
  intros HQ Hg Fg Hs. unfold sheet.
  assert (forall a rest, sheet_answer ucd a = true ->
            free_of (digit ucd) Q rest = true ->
            free_of (digit ucd) Q (sheet_line gap (upper_answer a) ++ rest) = true) as L.
  { intros a rest A R. destruct (sheet_answer_facts a A) as (N & D & O).
    destruct (option_letter_facts (snd a) O) as (_ & _ & ND & _).
    unfold sheet_line. cbn [upper_answer fst snd]. rewrite <- app_assoc.
    apply free_of_after_run.
    - apply forallb_forall. intros c I. rewrite forallb_forall in D.
      apply negb_true_iff, HQ, D, I.
    - specialize (Hg a A). rewrite <- app_assoc.
      destruct gap as [|g gap']; cbn [app] in *; exact Hg.
    - rewrite <- app_assoc. apply free_of_others; [exact Fg|].
      cbn [app]. apply free_of_cons_other; [exact ND | exact R]. }
  induction l as [|a l IH]; intros F; [reflexivity|].
  cbn [forallb] in F. apply andb_true_iff in F. destruct F as [A F].
  specialize (IH F). destruct l as [|b l].
  - cbn [map join]. rewrite <- (app_nil_r (sheet_line gap (upper_answer a))).
    apply L; [exact A | reflexivity].
  - change (join [sep] (map (sheet_line gap) (map upper_answer (a :: b :: l))))
      with (sheet_line gap (upper_answer a)
            ++ sep :: join [sep] (map (sheet_line gap) (map upper_answer (b :: l)))).
    apply L; [exact A|]. apply free_of_cons_other; [exact Hs | exact IH].
Qed.

Lemma is_A_to_D_not_decimal c : is_A_to_D c = true -> PyStr.isdecimal ucd c = false.
Proof.
  intros H. unfold is_A_to_D in H. apply andb_true_iff in H. destruct H as [L U].
  apply N.leb_le in L, U. unfold PyStr.isdecimal.
  replace (N.ltb c 128) with true by (symmetry; apply N.ltb_lt; lia).
  replace (N.leb c 57) with false by (symmetry; apply N.leb_gt; lia).
  apply andb_false_r.
Qed.

Lemma decimal_not_A_to_D c : PyStr.isdecimal ucd c = true -> is_A_to_D c = false.
Proof.
  intros D. destruct (is_A_to_D c) eqn:E; [|reflexivity].
  rewrite (is_A_to_D_not_decimal c E) in D. discriminate.
Qed.

(** On a sheet with spaces the adjacent pattern finds nothing, and on a
    sheet without, the pattern with whitespace. *)
Lemma spaced_sheet_no_adjacent (sep : char) l :
  sep = 10%N \/ sep = 32%N -> forallb (sheet_answer ucd) l = true ->
  Re.finditer (re_adjacent_pairs ucd) (sheet [32%N] sep (map upper_answer l)) = [].
Proof.
  intros S F. apply (finditer_free _ (digit ucd) is_A_to_D no_adjacent).
  apply free_sheet; auto.
  - apply decimal_not_A_to_D.
  - intros a A. reflexivity.
  - destruct S as [->| ->]; reflexivity.
Qed.

Lemma adjacent_sheet_no_spaced (sep : char) l :
  sep = 10%N \/ sep = 32%N -> forallb (sheet_answer ucd) l = true ->
  Re.finditer (re_space_separated ucd) (sheet [] sep (map upper_answer l)) = [].
Proof.
  intros S F. apply (finditer_free _ (digit ucd) (space ucd) no_space_separated).
  apply free_sheet; auto.
  - intros c D. apply digits, D.
  - intros a A. destruct (sheet_answer_facts a A) as (_ & _ & O).
    destruct (option_letter_facts (snd a) O) as (_ & _ & _ & SO & _). exact SO.
  - destruct S as [->| ->]; reflexivity.
Qed.

(** *** Stripping a sheet *)

Lemma sheet_line_ends (gap : str) a :
  sheet_answer ucd a = true -> gap = [] \/ gap = [32%N] ->
  exists c mid o, sheet_line gap a = c :: mid ++ [o]
                  /\ PyStr.isspace ucd c = false /\ PyStr.isspace ucd o = false.
Proof.
  intros A G. destruct (sheet_answer_facts a A) as (N & D & O).
  destruct (option_letter_facts (snd a) O) as (_ & _ & _ & _ & SO & _).
  unfold sheet_line. destruct (fst a) as [|c num]; [congruence|].
  exists c, (num ++ gap), (snd a). split; [|split; [|exact SO]].
  - cbn [app]. rewrite <- app_assoc. reflexivity.
  - cbn [forallb] in D. apply andb_true_iff in D. apply digits, D.
Qed.

Lemma strip_sheet (gap : str) (sep : char) l :
  forallb (sheet_answer ucd) l = true -> gap = [] \/ gap = [32%N] ->
  PyStr.strip ucd (sheet gap sep l) = sheet gap sep l.
Proof.
  intros F G. unfold sheet. destruct l as [|a l]; [reflexivity|].
  destruct (join_ends (fun c => PyStr.isspace ucd c = false) [sep]
              (map (sheet_line gap) (a :: l))) as (c & mid & o & -> & Sc & So).
  - apply Forall_forall. intros x I. apply in_map_iff in I. destruct I as (b & <- & I).
    rewrite forallb_forall in F. apply sheet_line_ends; auto.
  - discriminate.
  - apply strip_no_space_ends.
    + intros c0 s' [= <- _]. exact Sc.
    + intros s' a0 E. change (c :: mid ++ [o]) with ((c :: mid) ++ [o]) in E.
      apply app_inj_tail in E. destruct E as [_ <-]. exact So.
Qed.

(** *** The JSON script reads both kinds of sheet *)

Lemma pairs_of_matches (l : list (str * char)) :
  map pair_of_match (map (fun a => [fst a; [ascii_upper (snd a)]]) l)
  = map (fun a => (fst a, [ascii_upper (snd a)])) l.
Proof. rewrite map_map. reflexivity. Qed.

Lemma json_parse_sheet (gap : str) (sep : char) l :
  forallb (sheet_answer ucd) l = true ->
  gap = [] \/ gap = [32%N] -> sep = 10%N \/ sep = 32%N ->
  parse_answer_text ucd (sheet gap sep l) = read_back l.
Proof.
  intros F G S. rewrite parse_answer_text_selected.
  rewrite (strip_sheet gap sep l F G), (upper_sheet gap sep l F G S).
  unfold read_back. f_equal.
  destruct l as [|a l]; [reflexivity|].
  unfold selected_pairs, space_pairs, adjacent_pairs.
  destruct G as [->| ->].
  - rewrite (adjacent_sheet_no_spaced sep _ S F).
    rewrite (finditer_sheet _ [] sep (a :: l)
               match_adjacent
               (fun rest => no_match_at_separator _ sep rest S (or_intror eq_refl)) F).
    rewrite pairs_of_matches. reflexivity.
  - rewrite (finditer_sheet _ [32%N] sep (a :: l)
               match_spaced
               (fun rest => no_match_at_separator _ sep rest S (or_introl eq_refl)) F).
    rewrite pairs_of_matches. reflexivity.
Qed.

(** *** The words of a sheet *)

Lemma map_join {f : char -> char} sep ls :
  map f (join sep ls) = join (map f sep) (map (map f) ls).
Proof.
  induction ls as [|x [|y ls] IH]; [reflexivity | reflexivity |].
  change (join sep (x :: y :: ls)) with (x ++ sep ++ join sep (y :: ls)).
  rewrite !map_app, IH. reflexivity.
Qed.

Lemma sheet_line_no_newline (gap : str) a :
  sheet_answer ucd a = true -> gap = [] \/ gap = [32%N] ->
  PyStr.contains 10%N (sheet_line gap a) = false.
Proof.
  intros A G. destruct (sheet_answer_facts a A) as (_ & D & O).
  destruct (option_letter_facts (snd a) O) as (_ & _ & _ & _ & _ & _ & NL & _).
  unfold sheet_line. rewrite !contains_app, (digits_no_newline ucd _ D).
  cbn [PyStr.contains existsb orb]. rewrite N.eqb_sym, NL.
  destruct G as [->| ->]; reflexivity.
Qed.

Lemma replace_no_newline s :
  PyStr.contains 10%N s = false -> PyStrOps.replace 10%N 32%N s = s.
Proof.
  unfold PyStrOps.replace, PyStr.contains.
  induction s as [|c s IH]; [reflexivity|]. cbn [existsb map]. intros H.
  apply orb_false_iff in H. destruct H as [Hc Hs].
  rewrite N.eqb_sym, Hc, (IH Hs). reflexivity.
Qed.

Lemma replace_sheet (gap : str) (sep : char) l :
  forallb (sheet_answer ucd) l = true ->
  gap = [] \/ gap = [32%N] -> sep = 10%N \/ sep = 32%N ->
  PyStrOps.replace 10%N 32%N (sheet gap sep l) = sheet gap 32%N l.
Proof.
  intros F G S. unfold sheet, PyStrOps.replace at 1. rewrite map_join, map_map.
  f_equal; [destruct S as [E|E]; rewrite E; reflexivity|].
  apply map_ext_in. intros a I. rewrite forallb_forall in F.
  apply (replace_no_newline _ (sheet_line_no_newline gap a (F a I) G)).
Qed.

Lemma join_joined sep (w : str * char -> list str) l :
  (forall a, w a <> []) ->
  join sep (map (fun a => join sep (w a)) l) = join sep (flat_map w l).
Proof.
  intros N. assert (forall x y, x <> [] -> y <> [] ->
                      join sep (x ++ y) = join sep x ++ sep ++ join sep y) as J.
  { induction x as [|u [|v x] IH]; intros y Nx Ny; [congruence | |].
    - destruct y; [congruence | reflexivity].
    - change (join sep ((u :: v :: x) ++ y)) with (u ++ sep ++ join sep ((v :: x) ++ y)).
      rewrite IH by (discriminate || assumption).
      change (join sep (u :: v :: x)) with (u ++ sep ++ join sep (v :: x)).
      rewrite <- !app_assoc. reflexivity. }
  induction l as [|a [|b l] IH]; [reflexivity | |].
  - cbn [map flat_map join]. rewrite app_nil_r. reflexivity.
  - change (map (fun a => join sep (w a)) (a :: b :: l))
      with (join sep (w a) :: map (fun a => join sep (w a)) (b :: l)).
    change (join sep (join sep (w a) :: map (fun a => join sep (w a)) (b :: l)))
      with (join sep (w a) ++ sep ++ join sep (map (fun a => join sep (w a)) (b :: l))).
    rewrite IH. change (flat_map w (a :: b :: l)) with (w a ++ flat_map w (b :: l)).
    rewrite J; [reflexivity | apply N |].
    cbn [flat_map]. specialize (N b). destruct (w b); [congruence | discriminate].
Qed.

Lemma digits_word num :
  num <> [] -> forallb (PyStr.isdecimal ucd) num = true -> is_word ucd num = true.
Proof.
  intros N D. unfold is_word. rewrite (nonempty_is_empty num N). cbn [negb andb].
  apply forallb_forall. intros c I. rewrite forallb_forall in D.
  apply negb_true_iff, digits, D, I.
Qed.

(** The words of a sheet with spaces: each number and each option. *)
Lemma words_spaced_sheet l :
  forallb (sheet_answer ucd) l = true ->
  PyStrOps.split_whitespace ucd (sheet [32%N] 32%N (map upper_answer l))
  = flat_map (fun a => [fst a; [ascii_upper (snd a)]]) l.
Proof.
  intros F. unfold sheet. rewrite map_map.
  rewrite (map_ext _ (fun a => join [32%N] [fst a; [ascii_upper (snd a)]]))
    by reflexivity.
  rewrite (join_joined [32%N] (fun a => [fst a; [ascii_upper (snd a)]]))
    by discriminate.
  apply (split_join_words ucd).
  apply forallb_forall. intros w I. apply in_flat_map in I.
  destruct I as (a & Ia & I). rewrite forallb_forall in F.
  destruct (sheet_answer_facts a (F a Ia)) as (N & D & O).
  destruct (option_letter_facts (snd a) O) as (_ & _ & _ & SO & _).
  destruct I as [<-|[<-|[]]].
  - apply digits_word; assumption.
  - unfold is_word. cbn [PyStr.is_empty negb forallb andb]. rewrite SO. reflexivity.
Qed.

(** The words of a sheet without: each answer whole. *)
Lemma words_adjacent_sheet l :
  forallb (sheet_answer ucd) l = true ->
  PyStrOps.split_whitespace ucd (sheet [] 32%N (map upper_answer l))
  = map (fun a => fst a ++ [ascii_upper (snd a)]) l.
Proof.
  intros F. unfold sheet. rewrite map_map.
  rewrite (map_ext _ (fun a => fst a ++ [ascii_upper (snd a)])) by reflexivity.
  apply (split_join_words ucd).
  apply forallb_forall. intros w I. apply in_map_iff in I.
  destruct I as (a & <- & Ia). rewrite forallb_forall in F.
  destruct (sheet_answer_facts a (F a Ia)) as (N & D & O).
  destruct (option_letter_facts (snd a) O) as (_ & _ & _ & SO & _).
  pose proof (digits_word _ N D) as W. unfold is_word in *.
  apply andb_true_iff in W. destruct W as [_ W].
  destruct a as [num o]. cbn [fst snd] in *.
  rewrite forallb_app, W. cbn [forallb]. rewrite SO.
  destruct num; [congruence | reflexivity].
Qed.

Lemma pairs_of_flat_map (l : list (str * char)) :
  pairs_of (flat_map (fun a => [fst a; [ascii_upper (snd a)]]) l)
  = map (fun a => (fst a, [ascii_upper (snd a)])) l.
Proof. induction l as [|a l IH]; [reflexivity|]. cbn [flat_map app pairs_of map]. rewrite IH. reflexivity. Qed.

Lemma word_pairs_sheet (gap : str) (sep : char) l :
  forallb (sheet_answer ucd) l = true ->
  gap = [] \/ gap = [32%N] -> sep = 10%N \/ sep = 32%N ->
  word_pairs ucd (sheet gap sep l)
  = pairs_of (PyStrOps.split_whitespace ucd (sheet gap 32%N (map upper_answer l))).
Proof.
  intros F G S. unfold word_pairs.
  rewrite (replace_sheet gap sep l F G S), (strip_sheet gap 32%N l F G).
  rewrite (upper_sheet gap 32%N l F G (or_intror eq_refl)). reflexivity.
Qed.

(** *** [exact_mcq_comparison.py] reads both kinds of sheet *)

Lemma exact_parse_sheet dict_repr (gap : str) (sep : char) l :
  forallb (sheet_answer ucd) l = true ->
  gap = [] \/ gap = [32%N] -> sep = 10%N \/ sep = 32%N ->
  snd (Exact.parse_answer_text ucd dict_repr (sheet gap sep l)) = read_back l.
Proof.
  intros F G S. rewrite exact_parse_pairs. unfold read_back. f_equal.
  unfold exact_pairs, adjacent_pairs.
  rewrite (upper_sheet gap sep l F G S).
  destruct G as [->| ->].
  - rewrite (finditer_sheet _ [] sep l
               match_adjacent
               (fun rest => no_match_at_separator _ sep rest S (or_intror eq_refl)) F).
    rewrite pairs_of_matches. destruct l; reflexivity.
  - rewrite (spaced_sheet_no_adjacent sep l S F).
    rewrite (word_pairs_sheet [32%N] sep l F (or_intror eq_refl) S).
    rewrite (words_spaced_sheet l F). apply pairs_of_flat_map.
Qed.

(** *** [mcq_comparison.py] reads a sheet line by line, or word by word *)

Variable ucd_isdigit : char -> bool.
Hypothesis isdigits : decimal_isdigit ucd ucd_isdigit.

Lemma contains_join sep lines :
  forallb (fun x => negb (PyStr.contains 10%N x)) lines = true ->
  PyStr.contains 10%N (join [sep] lines)
  = N.eqb sep 10 && (2 <=? length lines).
Proof.
  induction lines as [|x [|y lines] IH]; intros F.
  - rewrite andb_false_r. reflexivity.
  - cbn [forallb] in F. apply andb_true_iff in F. destruct F as [X _].
    cbn [join length]. rewrite andb_false_r. apply negb_true_iff, X.
  - cbn [forallb] in F. apply andb_true_iff in F. destruct F as [X F].
    change (join [sep] (x :: y :: lines)) with (x ++ [sep] ++ join [sep] (y :: lines)).
    rewrite !contains_app, (IH F). apply negb_true_iff in X. rewrite X.
    cbn [PyStr.contains existsb orb length]. rewrite (N.eqb_sym 10 sep).
    destruct (N.eqb sep 10); [reflexivity|]. reflexivity.
Qed.

Lemma sheet_lines_no_newline (gap : str) l :
  forallb (sheet_answer ucd) l = true -> gap = [] \/ gap = [32%N] ->
  forallb (fun x => negb (PyStr.contains 10%N x)) (map (sheet_line gap) l) = true.
Proof.
  intros F G. apply forallb_forall. intros x I. apply in_map_iff in I.
  destruct I as (a & <- & I). rewrite forallb_forall in F.
  rewrite (sheet_line_no_newline gap a (F a I) G). reflexivity.
Qed.

Lemma split_no_separator sep s :
  PyStr.contains sep s = false -> PyStr.split sep s = [s].
Proof.
  unfold PyStr.contains. induction s as [|c s IH]; [reflexivity|].
  cbn [existsb PyStr.split]. intros H. apply orb_false_iff in H. destruct H as [Hc Hs].
  rewrite N.eqb_sym, Hc, (IH Hs). reflexivity.
Qed.

Lemma split_join lines :
  lines <> [] ->
  forallb (fun x => negb (PyStr.contains 10%N x)) lines = true ->
  PyStr.split 10%N (join [10%N] lines) = lines.
Proof.
  induction lines as [|x [|y lines] IH]; intros N F; [congruence | |].
  - cbn [forallb] in F. apply andb_true_iff in F. destruct F as [X _].
    apply split_no_separator, negb_true_iff, X.
  - cbn [forallb] in F. apply andb_true_iff in F. destruct F as [X F].
    change (join [10%N] (x :: y :: lines)) with (x ++ 10%N :: join [10%N] (y :: lines)).
    rewrite split_app_sep by (apply negb_true_iff, X).
    rewrite IH; [reflexivity | discriminate | exact F].
Qed.

Lemma match_re_line (gap : str) a :
  sheet_answer ucd a = true -> gap = [] \/ gap = [32%N] ->
  ReLine.match_ (Comparison.re_line ucd) (sheet_line gap (upper_answer a))
  = Some [fst a; [ascii_upper (snd a)]].
Proof.
  intros A G. destruct (sheet_answer_facts a A) as (N & D & O).
  destruct (option_letter_facts (snd a) O) as (AD & _ & ND & SO & _).
  unfold sheet_line. cbn [upper_answer fst snd].
  unfold ReLine.match_, Comparison.re_line. cbn [ReLine.exec Re.exec].
  apply many_greedy; [exact N | exact D | |].
  - destruct G as [->| ->]; cbn [app Re.many]; [unfold digit; rewrite ND|]; reflexivity.
  - rewrite firstn_consumed.
    destruct G as [->| ->]; cbn [app Re.many].
    + unfold space at 1. rewrite SO, AD. reflexivity.
    + change (space ucd 32%N) with true. cbv iota.
      unfold space at 1. rewrite SO, AD. reflexivity.
Qed.

Lemma comparison_line_sheet (gap : str) a :
  sheet_answer ucd a = true -> gap = [] \/ gap = [32%N] ->
  comparison_line_pair ucd (sheet_line gap a) = [(fst a, [ascii_upper (snd a)])].
Proof.
  intros A G. unfold comparison_line_pair.
  assert (forallb (sheet_answer ucd) [a] = true) as F by (cbn [forallb]; rewrite A; reflexivity).
  pose proof (strip_sheet gap 10%N [a] F G) as S. unfold sheet in S. cbn [map join] in S.
  rewrite S, (upper_sheet_line gap a A G), (match_re_line gap a A G). reflexivity.
Qed.

Lemma comparison_lines_sheet (gap : str) l :
  forallb (sheet_answer ucd) l = true -> gap = [] \/ gap = [32%N] ->
  flat_map (comparison_line_pair ucd) (map (sheet_line gap) l)
  = map (fun a => (fst a, [ascii_upper (snd a)])) l.
Proof.
  intros F G. induction l as [|a l IH]; [reflexivity|].
  cbn [forallb] in F. apply andb_true_iff in F. destruct F as [A F].
  cbn [map flat_map]. rewrite (comparison_line_sheet gap a A G), (IH F). reflexivity.
Qed.

Lemma decimal_digits_isdigit num :
  num <> [] -> forallb (PyStr.isdecimal ucd) num = true ->
  Comparison.isdigit ucd_isdigit num = true.
Proof.
  intros N D. unfold Comparison.isdigit. rewrite (nonempty_is_empty num N).
  cbn [negb andb]. apply forallb_forall. intros c I. rewrite forallb_forall in D.
  specialize (D c I). unfold PyStr.isdecimal in D.
  destruct (N.ltb_spec c 128) as [L|L]; [exact D|].
  apply isdigits; [exact L|]. unfold PyStr.isdecimal.
  replace (N.ltb c 128) with false by (symmetry; apply N.ltb_ge; exact L). exact D.
Qed.

Lemma checked_spaced l :
  forallb (sheet_answer ucd) l = true ->
  filter (checked_pair ucd_isdigit) (map (fun a => (fst a, [ascii_upper (snd a)])) l)
  = map (fun a => (fst a, [ascii_upper (snd a)])) l.
Proof.
  intros F. induction l as [|a l IH]; [reflexivity|].
  cbn [forallb] in F. apply andb_true_iff in F. destruct F as [A F].
  destruct (sheet_answer_facts a A) as (N & D & O).
  destruct (option_letter_facts (snd a) O) as (_ & _ & _ & _ & _ & _ & _ & _ & _ & E).
  cbn [map filter]. unfold checked_pair at 1. cbn [fst snd].
  rewrite (decimal_digits_isdigit _ N D), E, (IH F). reflexivity.
Qed.

Lemma unchecked_adjacent l :
  forallb (sheet_answer ucd) l = true ->
  filter (checked_pair ucd_isdigit)
         (pairs_of (map (fun a => fst a ++ [ascii_upper (snd a)]) l)) = [].
Proof.
  intros F.
  pose proof (pairs_of_words
                (fun w => Comparison.isdigit ucd_isdigit w = false)
                (map (fun a => fst a ++ [ascii_upper (snd a)]) l)) as W.
  assert (Forall (fun w => Comparison.isdigit ucd_isdigit w = false)
                 (map (fun a => fst a ++ [ascii_upper (snd a)]) l)) as H.
  { apply Forall_forall. intros w I. apply in_map_iff in I.
    destruct I as (a & <- & I). rewrite forallb_forall in F.
    destruct (sheet_answer_facts a (F a I)) as (_ & _ & O).
    destruct (option_letter_facts (snd a) O) as (_ & _ & _ & _ & _ & _ & _ & L & R & _).
    unfold Comparison.isdigit. rewrite forallb_app. cbn [forallb].
    apply N.ltb_lt in L. rewrite L, R. rewrite !andb_false_r. reflexivity. }
  specialize (W H). clear H.
  induction W as [|p ps [P _] W IH]; [reflexivity|].
  cbn [filter]. unfold checked_pair at 1. rewrite P. exact IH.
Qed.

Lemma comparison_parse_sheet (gap : str) (sep : char) l :
  forallb (sheet_answer ucd) l = true ->
  gap = [] \/ gap = [32%N] -> sep = 10%N \/ sep = 32%N ->
  Comparison.parse_answer_text ucd ucd_isdigit (sheet gap sep l)
  = if PyStr.is_empty gap && negb (N.eqb sep 10 && (2 <=? length l))
    then [] else read_back l.
Proof.
  intros F G S. rewrite comparison_parse_pairs. unfold comparison_pairs.
  unfold sheet at 1. rewrite (contains_join sep _ (sheet_lines_no_newline gap l F G)).
  rewrite length_map.
  destruct (N.eqb sep 10 && (2 <=? length l)) eqn:C.
  - apply andb_true_iff in C. destruct C as [E L].
    apply N.eqb_eq in E. subst sep. apply Nat.leb_le in L.
    unfold sheet. rewrite split_join.
    + rewrite (comparison_lines_sheet gap l F G).
      rewrite andb_false_r. destruct l; [simpl in L; lia | reflexivity].
    + destruct l; [simpl in L; lia | discriminate].
    + apply sheet_lines_no_newline; assumption.
  - rewrite andb_true_r. rewrite (word_pairs_sheet gap sep l F G S).
    destruct G as [->| ->]; cbn [PyStr.is_empty].
    + rewrite (words_adjacent_sheet l F), (unchecked_adjacent l F). reflexivity.
    + rewrite (words_spaced_sheet l F), pairs_of_flat_map, (checked_spaced l F).
      reflexivity.
Qed.
End SheetFacts.

Lemma latin1_decimal_isdigit : decimal_isdigit latin1 latin1_isdigit.
Proof.
  intros c L D. unfold PyStr.isdecimal in D.
  replace (N.ltb c 128) with false in D by (symmetry; apply N.ltb_ge; exact L).
  discriminate.
Qed.

Lemma last_option_upper num (l : list (str * char)) :
  last_option num (map (fun a => (fst a, [ascii_upper (snd a)])) l)
  = option_map (map ascii_upper) (last_option num (map (fun a => (fst a, [snd a])) l)).
Proof.
  induction l as [|[n c] l IH]; [reflexivity|].
  cbn [map last_option fst snd]. rewrite IH.
  destruct (last_option num (map (fun a => (fst a, [snd a])) l)); [reflexivity|].
  destruct (str_eqb n num); reflexivity.
Qed.

(** X14. Answer sheets, in the formats the scripts document: answers of a
    digit run and a letter of a-d or A-D, adjacent or with one space
    between, following each other on one line or one on each line. The JSON
    script and [exact_mcq_comparison.py] read every such sheet as the same
    dictionary, each number with its letter in upper case, a repeated number
    keeping its first place and its last letter. [mcq_comparison.py] reads
    the same dictionary, except from a sheet of adjacent answers that is not
    of two lines or more: there it stores nothing. *)
Theorem sheets_read_by_all
        (ucd : UnicodeData) (ucd_isdigit : char -> bool)
        (dict_repr : Dict.dict str -> str)
        (gap : str) (sep : char) (l : list (str * char)) :
  plain_digits ucd -> decimal_isdigit ucd ucd_isdigit ->
  forallb (sheet_answer ucd) l = true ->
  gap = [] \/ gap = [32%N] -> sep = 10%N \/ sep = 32%N ->
  parse_answer_text ucd (sheet gap sep l) = read_back l
  /\ snd (Exact.parse_answer_text ucd dict_repr (sheet gap sep l)) = read_back l
  /\ Comparison.parse_answer_text ucd ucd_isdigit (sheet gap sep l)
     = (if PyStr.is_empty gap && negb (N.eqb sep 10 && (2 <=? length l))
        then [] else read_back l)
  /\ Dict.keys (read_back l) = first_seen (map fst l)
  /\ forall num o, last_option num (map (fun a => (fst a, [snd a])) l) = Some [o] ->
       Dict.get num (read_back l) = Some [ascii_upper o].
Proof.
  intros D I F G S. split; [|split; [|split; [|split]]].
  - apply json_parse_sheet; assumption.
  - apply exact_parse_sheet; assumption.
  - apply comparison_parse_sheet; assumption.
  - unfold read_back. rewrite keys_fold_set_pair, map_map. reflexivity.
  - intros num o L. unfold read_back.
    rewrite get_fold_set_pair, last_option_upper, L. reflexivity.
Qed.

Lemma sheets_read_by_all_witness :
  let l := [(lit "1", 97%N); (lit "2", 66%N); (lit "12", 100%N); (lit "2", 99%N)] in
  parse_answer_text latin1 (sheet (lit " ") 10%N l)
  = [(lit "1", lit "A"); (lit "2", lit "C"); (lit "12", lit "D")]
  /\ Comparison.parse_answer_text latin1 latin1_isdigit (sheet [] 32%N l) = [].
Proof.
  intros l. split.
  - apply (sheets_read_by_all latin1 latin1_isdigit (fun _ => []) (lit " ") 10%N l
             latin1_plain_digits latin1_decimal_isdigit eq_refl
             (or_intror eq_refl) (or_introl eq_refl)).
  - apply (sheets_read_by_all latin1 latin1_isdigit (fun _ => []) [] 32%N l
             latin1_plain_digits latin1_decimal_isdigit eq_refl
             (or_introl eq_refl) (or_intror eq_refl)).
Defined.

(** ** The generator's fallback as an answer sheet *)
Section FallbackSheet.
Variable ucd : UnicodeData.
Hypothesis digits : plain_digits ucd.
Variable ucd_isdigit : char -> bool.
Hypothesis isdigits : decimal_isdigit ucd ucd_isdigit.

Lemma fallback_is_sheet text :
  Generator.fallback_answers ucd text = sheet [32%N] 10%N (fallback_sheet ucd text).
Proof.
  unfold Generator.fallback_answers, sheet, fallback_sheet.
  rewrite fold_add_answer, map_map. cbn [app]. f_equal.
  apply map_ext. intros q. unfold answer_line, sheet_line, fallback_letter. cbn [fst snd].
  destruct (sample_answer_cases (fst q)) as (a & -> & _). reflexivity.
Qed.

Lemma fallback_sheet_answers text :
  forallb (sheet_answer ucd) (fallback_sheet ucd text) = true.
Proof.
  apply forallb_forall. intros a I. unfold fallback_sheet in I.
  apply in_map_iff in I. destruct I as (q & <- & I).
  pose proof (extract_numbers_valid ucd digits text) as V.
  rewrite Forall_forall in V. destruct (V q I) as [N D].
  destruct q as [num t]. cbn [fst snd] in *.
  unfold sheet_answer, fallback_letter. cbn [fst snd].
  rewrite (nonempty_is_empty _ N), D.
  destruct (sample_answer_cases num) as (c & -> & [E|[E|[E|E]]]); subst c; reflexivity.
Qed.

Lemma fallback_read_alike dict_repr text :
  snd (Exact.parse_answer_text ucd dict_repr (Generator.fallback_answers ucd text))
  = parse_answer_text ucd (Generator.fallback_answers ucd text)
  /\ Comparison.parse_answer_text ucd ucd_isdigit (Generator.fallback_answers ucd text)
     = parse_answer_text ucd (Generator.fallback_answers ucd text).
Proof.
  rewrite fallback_is_sheet.
  pose proof (fallback_sheet_answers text) as F.
  rewrite (json_parse_sheet ucd digits [32%N] 10%N _ F (or_intror eq_refl) (or_introl eq_refl)).
  rewrite (exact_parse_sheet ucd digits dict_repr [32%N] 10%N _ F
             (or_intror eq_refl) (or_introl eq_refl)).
  rewrite (comparison_parse_sheet ucd digits ucd_isdigit isdigits [32%N] 10%N _ F
             (or_intror eq_refl) (or_introl eq_refl)).
  split; reflexivity.
Qed.
End FallbackSheet.

(** X15. The answers the generator falls back on are read alike by the
    three scripts: the parsers of [exact_mcq_comparison.py] and of
    [mcq_comparison.py] return the dictionary the JSON script's parser
    returns, and two such texts, one as the model's and one as the
    student's, get the same score and total from the three scorers. *)
Theorem fallback_scored_alike
        (ucd : UnicodeData) (ucd_isdigit : char -> bool)
        (dict_repr : Dict.dict str -> str) (model_questions student_questions : str) :
  plain_digits ucd -> decimal_isdigit ucd ucd_isdigit ->
  let model_text := Generator.fallback_answers ucd model_questions in
  let student_text := Generator.fallback_answers ucd student_questions in
  snd (Exact.parse_answer_text ucd dict_repr model_text) = parse_answer_text ucd model_text
  /\ Comparison.parse_answer_text ucd ucd_isdigit model_text
     = parse_answer_text ucd model_text
  /\ exists r,
       evaluate_mcq ucd model_text student_text = Return r
       /\ Comparison.evaluate_mcq ucd ucd_isdigit model_text student_text
          = (score r, total r)
       /\ snd (Exact.evaluate_mcq ucd dict_repr model_text student_text)
          = (score r, total r).
Proof.
  intros D I model_text student_text.
  destruct (fallback_read_alike ucd D ucd_isdigit I dict_repr model_questions) as [Em Cm].
  destruct (fallback_read_alike ucd D ucd_isdigit I dict_repr student_questions) as [Es Cs].
  fold model_text in Em, Cm. fold student_text in Es, Cs.
  split; [exact Em|]. split; [exact Cm|].
  destruct (evaluate_mcq_returns ucd model_text student_text) as (p & E & _).
  eexists. split; [exact E|]. cbn [score total].
  rewrite comparison_evaluate_eq, exact_evaluate_eq. cbn [snd].
  rewrite Em, Cm, Es, Cs. split; reflexivity.
Qed.

Lemma fallback_scored_alike_witness :
  let model_questions := lit "1. Which? a. x b. y 2) What- a. u b. v 7: Why" in
  let student_questions := lit "Question 2. What? Question 7. Why?" in
  Comparison.parse_answer_text latin1 latin1_isdigit
    (Generator.fallback_answers latin1 model_questions)
  = [(lit "1", lit "B"); (lit "2", lit "B"); (lit "7", lit "A")]
  /\ exists r,
       evaluate_mcq latin1 (Generator.fallback_answers latin1 model_questions)
                    (Generator.fallback_answers latin1 student_questions) = Return r
       /\ (score r, total r) = (2%Z, 3%Z).
Proof.
  intros model_questions student_questions.
  destruct (fallback_scored_alike latin1 latin1_isdigit (fun _ => [])
              model_questions student_questions
              latin1_plain_digits latin1_decimal_isdigit) as (_ & C & r & E & S & _).
  split.
  - rewrite C. reflexivity.
  - exists r. split; [exact E|]. rewrite <- S. reflexivity.
Defined.

(** ** The numbering pattern, deterministically *)
Section NumberingFacts.
Variable ucd : UnicodeData.
Hypothesis digits : plain_digits ucd.
Import Re ReOps ReFacts Generator.













(** *** Squeezing the whitespace *)















(** *** Splitting the squeezed text *)










(** *** The cleaned text is the squeezed text *)






End NumberingFacts.

(** ** The integration example and the generator *)
Section IntegrationFacts.
Variable ucd : UnicodeData.
Hypothesis digits : plain_digits ucd.


End IntegrationFacts.



(** ** [process_json_input] of [exact_mcq_comparison.py] *)



(** ** [display_results] *)


